(** * detect-web-change: orchestration core, error classifier and state update

    A shallow embedding of the JavaScript sources
    [detect-change.js], [src/error-handler.js], [src/page-monitor.js],
    [src/change-detector.js], [src/state-manager.js],
    [src/browser-controller.js] and [src/slack-notifier.js], with the
    properties the specification states about them.

    Conventions.
    - A JavaScript string is a [string]: the bytes of its UTF-8 encoding, as
      Rocq reads a string literal; [s.includes(p)] is [Str.includes s p].
    - A thrown [Error] is a record with its [name] and [message]; a call that
      may throw returns [Res A].
    - Objects that are shared and mutated (configuration entries) live in an
      explicit store, see [StateManager].
    - Collaborators outside the core (the browser page, the webhook, the file
      system) are oracles: a [World] record fixes what each call answers, and
      the calls made on them are recorded, in order, as a list of [Event]s.
    - Of the calls on a [Logger] only those of [handleError] (the error line
      and the suggestions shown) and the warning of [closePage] are kept;
      time stamps are left out, the order of the events stands for them.
    - The class [ChangeDetector] of [src/change-detector.js] stands in the
      sources behind the tests of the notifier, in
      [src/slack-notifier.test.js]; its tests stand behind [src/config.js]. *)

From Stdlib Require Import String Ascii List Bool Arith Lia.
From stdpp Require Import base option list gmap strings pretty.

Local Open Scope string_scope.

(** ** Strings *)

Module Str.

(** The double quote character, used by the message templates. *)
Definition dq : string := String (ascii_of_nat 34) EmptyString.

(** [startsWith p s]: [p] is a prefix of [s]. *)
Fixpoint startsWith (p s : string) : bool :=
  match p with
  | EmptyString => true
  | String a p' =>
      match s with
      | EmptyString => false
      | String b s' => if Ascii.eqb a b then startsWith p' s' else false
      end
  end.

(** [String.prototype.includes]: [p] occurs in [s] as a substring. *)
Fixpoint includes (s p : string) : bool :=
  startsWith p s ||
  match s with
  | EmptyString => false
  | String _ s' => includes s' p
  end.

(** [hasChar c p]: the character [c] occurs in [p]. *)
Fixpoint hasChar (c : ascii) (p : string) : bool :=
  match p with
  | EmptyString => false
  | String a p' => Ascii.eqb a c || hasChar c p'
  end.

(** JavaScript truthiness of a string: the empty string is falsy. *)
Definition truthy (s : string) : bool :=
  match s with EmptyString => false | _ => true end.

(** [a || b] on strings. *)
Definition orElse (a b : string) : string := if truthy a then a else b.

(** The string of the bytes [l]. *)
Definition utf8 (l : list nat) : string :=
  string_of_list_ascii (List.map ascii_of_nat l).

(** The characters [String.prototype.trim] removes, each in UTF-8: the white
    space of ECMAScript (TAB, VT, FF, U+FEFF and the space separators of
    Unicode: SP, U+00A0, U+1680, U+2000 to U+200A, U+202F, U+205F, U+3000)
    and its line terminators (LF, CR, U+2028, U+2029). *)
Definition whiteSpace : list string :=
  [utf8 [9]; utf8 [10]; utf8 [11]; utf8 [12]; utf8 [13]; utf8 [32];
   utf8 [194; 160]; utf8 [225; 154; 128];
   utf8 [226; 128; 128]; utf8 [226; 128; 129]; utf8 [226; 128; 130];
   utf8 [226; 128; 131]; utf8 [226; 128; 132]; utf8 [226; 128; 133];
   utf8 [226; 128; 134]; utf8 [226; 128; 135]; utf8 [226; 128; 136];
   utf8 [226; 128; 137]; utf8 [226; 128; 138];
   utf8 [226; 128; 168]; utf8 [226; 128; 169]; utf8 [226; 128; 175];
   utf8 [226; 129; 159]; utf8 [227; 128; 128]; utf8 [239; 187; 191]].

Definition isWhiteSpace (w : string) : bool := existsb (String.eqb w) whiteSpace.

(** What follows the first character of [s] when that character is white
    space; a character of the table takes one, two or three bytes. *)
Definition leadingWhiteSpace (s : string) : option string :=
  match s with
  | EmptyString => None
  | String a s1 =>
      if isWhiteSpace (String a EmptyString) then Some s1
      else match s1 with
           | EmptyString => None
           | String b s2 =>
               if isWhiteSpace (String a (String b EmptyString)) then Some s2
               else match s2 with
                    | EmptyString => None
                    | String c s3 =>
                        if isWhiteSpace (String a (String b (String c EmptyString)))
                        then Some s3 else None
                    end
           end
  end.

(** [String.prototype.trimStart]: the leading white space is removed,
    character by character. *)
Fixpoint trimStart (s : string) : string :=
  match s with
  | EmptyString => s
  | String a s1 =>
      if isWhiteSpace (String a EmptyString) then trimStart s1
      else match s1 with
           | EmptyString => s
           | String b s2 =>
               if isWhiteSpace (String a (String b EmptyString)) then trimStart s2
               else match s2 with
                    | EmptyString => s
                    | String c s3 =>
                        if isWhiteSpace (String a (String b (String c EmptyString)))
                        then trimStart s3 else s
                    end
           end
  end.

(** [String.prototype.trimEnd]: of [c s'] the byte [c] stays, followed by
    what stays of [s'], unless the two make up a character of white space;
    then [s'] was white space from that character on and nothing stays. *)
Fixpoint trimEnd (s : string) : string :=
  match s with
  | EmptyString => EmptyString
  | String c s' =>
      let t := String c (trimEnd s') in
      if isWhiteSpace t then EmptyString else t
  end.

(** [String.prototype.trim]. *)
Definition trim (s : string) : string := trimEnd (trimStart s).

(** The strings of [l] one after the other. *)
Definition concat (l : list string) : string := String.concat "" l.

(** A byte that continues a character of more than one byte. *)
Definition continues (b : ascii) : bool :=
  ((128 <=? nat_of_ascii b) && (nat_of_ascii b <? 192))%nat.

End Str.

(** ** Errors and results of calls that may throw *)

(** A JavaScript [Error] value: its [name] (["Error"], ["TimeoutError"], ...)
    and its [message]. *)
Record Err := mkErr { name : string; message : string }.

(** [new Error(msg)]. *)
Definition newError (msg : string) : Err := mkErr "Error" msg.

Inductive Res (A : Type) : Type :=
| Ok (a : A)
| Throw (e : Err).
Arguments Ok {A} a.
Arguments Throw {A} e.

(** ** src/error-handler.js *)

Module ErrorHandler.

Inductive ErrorType :=
| CONFIG_ERROR | CHROME_ERROR | BROWSER_ERROR | PAGE_ERROR | EXTRACTION_ERROR
| NOTIFICATION_ERROR | PERSISTENCE_ERROR | WORKFLOW_ERROR | TARGET_ERROR.

Inductive ErrorSeverity := CRITICAL | HIGH | MEDIUM | LOW.

#[global] Instance ErrorType_eq_dec : EqDecision ErrorType.
Proof. solve_decision. Defined.
#[global] Instance ErrorSeverity_eq_dec : EqDecision ErrorSeverity.
Proof. solve_decision. Defined.

(** The string each member of [ErrorTypes] stands for. *)
Definition typeName (t : ErrorType) : string :=
  match t with
  | CONFIG_ERROR => "CONFIG_ERROR" | CHROME_ERROR => "CHROME_ERROR"
  | BROWSER_ERROR => "BROWSER_ERROR" | PAGE_ERROR => "PAGE_ERROR"
  | EXTRACTION_ERROR => "EXTRACTION_ERROR"
  | NOTIFICATION_ERROR => "NOTIFICATION_ERROR"
  | PERSISTENCE_ERROR => "PERSISTENCE_ERROR"
  | WORKFLOW_ERROR => "WORKFLOW_ERROR" | TARGET_ERROR => "TARGET_ERROR"
  end.

(** The caller's hints: [context.type] and [context.operation]. *)
Record Context := mkContext { ctype : string; operation : string }.

Record Categorized := mkCategorized {
  type : ErrorType;
  severity : ErrorSeverity;
  category : string;
  userMessage : string;
  technicalMessage : string;
  suggestions : list string
}.

Import Str.

Definition getConfigErrorMessage (message : string) : string :=
  if includes message "not found" then
    "Configuration file not found. Please check the file path."
  else if includes message "Invalid JSON" then
    "Configuration file contains invalid JSON. Please check the file format."
  else if includes message "Missing required field" then
    "Configuration file is missing required fields. Please check the file structure."
  else "Configuration file error. Please check your input file.".

Definition getConfigErrorSuggestions (message : string) : list string :=
  ["Verify the configuration file path is correct"]
  ++ (if includes message "Invalid JSON"
      then ["Use a JSON validator to check file syntax";
            "Ensure all strings are properly quoted"]
      else [])
  ++ (if includes message "Missing required field"
      then ["Ensure each entry has url, css_selector, and current_value fields"]
      else []).

Definition getChromeErrorMessage (message : string) : string :=
  if includes message "port" && includes message "in use" then
    "Chrome debug port is already in use. Please close existing Chrome instances."
  else if includes message "launch" then
    "Failed to launch Chrome browser. Please check Chrome installation."
  else "Chrome browser error occurred.".

Definition getChromeErrorSuggestions (message : string) : list string :=
  []
  ++ (if includes message "port"
      then ["Close any existing Chrome instances";
            "Check if another application is using port 9222"]
      else [])
  ++ (if includes message "launch"
      then ["Verify Chrome is installed and accessible";
            "Check system permissions for launching applications"]
      else []).

Definition getBrowserErrorMessage (message : string) : string :=
  if includes message "connect" then
    "Failed to connect to Chrome browser. The browser may not be ready."
  else "Browser connection error occurred.".

Definition getBrowserErrorSuggestions (message : string) : list string :=
  ["Wait a moment and try again";
   "Ensure Chrome launched successfully";
   "Check if Chrome debug port is accessible"].

Definition getPageErrorMessage (message : string) : string :=
  if includes message "timeout" then
    "Page failed to load within the timeout period."
  else if includes message "net::ERR" then
    "Network error occurred while loading the page."
  else "Page navigation error occurred.".

Definition getPageErrorSuggestions (message : string) : list string :=
  ["Check your internet connection"]
  ++ (if includes message "timeout"
      then ["The website may be slow - try increasing timeout";
            "Verify the URL is correct and accessible"]
      else []).

Definition getExtractionErrorMessage (message : string) : string :=
  if includes message "selector" && includes message "not found" then
    "The specified CSS selector was not found on the page."
  else if includes message "timeout" then
    "Element selection timed out - the element may not exist or load slowly."
  else "Failed to extract content from the page element.".

Definition getExtractionErrorSuggestions (message : string) : list string :=
  []
  ++ (if includes message "selector"
      then ["Verify the CSS selector is correct";
            "Check if the page structure has changed";
            "Use browser developer tools to test the selector"]
      else [])
  ++ (if includes message "timeout"
      then ["The element may load dynamically - try increasing timeout"]
      else []).

Definition getNotificationErrorMessage (message : string) : string :=
  if includes message "webhook" then
    "Failed to send Slack notification. Check webhook URL and network connection."
  else "Notification delivery failed.".

Definition getNotificationErrorSuggestions (message : string) : list string :=
  ["Verify the Slack webhook URL is correct";
   "Check your internet connection";
   "Ensure the Slack workspace allows webhook notifications"].

Definition getPersistenceErrorMessage (message : string) : string :=
  if includes message "permission" || includes message "EACCES" then
    "Permission denied when trying to save configuration file."
  else if includes message "ENOSPC" then
    "Not enough disk space to save configuration file."
  else "Failed to save configuration changes.".

Definition getPersistenceErrorSuggestions (message : string) : list string :=
  []
  ++ (if includes message "permission"
      then ["Check file and directory permissions";
            "Ensure you have write access to the configuration file"]
      else [])
  ++ (if includes message "ENOSPC" then ["Free up disk space"] else []).

(** The five guards of [categorizeError], in the order they are tried. *)
Definition isConfigError (message : string) (context : Context) : bool :=
  includes message "Configuration" ||
  includes message "Invalid JSON" ||
  includes message "Missing required field" ||
  includes message "Config load failed" ||
  (includes message "not found" && String.eqb (ctype context) "config").

Definition isChromeError (message : string) : bool :=
  includes message "Chrome" &&
  (includes message "launch" || includes message "port" ||
   includes message "debug").

Definition isBrowserError (message : string) : bool :=
  includes message "connect" || includes message "CDP" ||
  includes message "browser".

Definition isPageError (message : string) : bool :=
  includes message "Navigation" || includes message "timeout" ||
  includes message "net::ERR" || includes message "load".

Definition isExtractionError (message : string) : bool :=
  includes message "selector" || includes message "element" ||
  includes message "textContent" || includes message "extract".

Definition isNotificationError (message : string) : bool :=
  includes message "Slack" || includes message "webhook" ||
  includes message "notification".

Definition isPersistenceError (message : string) : bool :=
  includes message "persist" || includes message "write" ||
  includes message "permission" || includes message "EACCES".

Definition categorizeError (error : Err) (context : Context) : Categorized :=
  let message := orElse (message error) "Unknown error" in
  if isConfigError message context then
    mkCategorized CONFIG_ERROR CRITICAL "Configuration"
      (getConfigErrorMessage message) message
      (getConfigErrorSuggestions message)
  else if isChromeError message then
    mkCategorized CHROME_ERROR CRITICAL "Chrome Browser"
      (getChromeErrorMessage message) message
      (getChromeErrorSuggestions message)
  else if isBrowserError message then
    mkCategorized BROWSER_ERROR CRITICAL "Browser Connection"
      (getBrowserErrorMessage message) message
      (getBrowserErrorSuggestions message)
  else if isPageError message then
    let errorType :=
      if String.eqb (operation context) "processMonitoringTarget"
      then TARGET_ERROR else PAGE_ERROR in
    mkCategorized errorType HIGH "Page Navigation"
      (getPageErrorMessage message) message
      (getPageErrorSuggestions message)
  else if isExtractionError message then
    mkCategorized EXTRACTION_ERROR MEDIUM "Element Extraction"
      (getExtractionErrorMessage message) message
      (getExtractionErrorSuggestions message)
  else if isNotificationError message then
    mkCategorized NOTIFICATION_ERROR MEDIUM "Slack Notification"
      (getNotificationErrorMessage message) message
      (getNotificationErrorSuggestions message)
  else if isPersistenceError message then
    mkCategorized PERSISTENCE_ERROR CRITICAL "File Operations"
      (getPersistenceErrorMessage message) message
      (getPersistenceErrorSuggestions message)
  else
    mkCategorized WORKFLOW_ERROR HIGH "General"
      ("An unexpected error occurred: " +:+ message) message
      ["Check the logs for more details"; "Try running the command again"].

(** Calls made on the handler's [Logger]; the level filter and the format of
    the printed line belong to the logger and are not modelled. *)
Inductive LogCall :=
| LogError (text : string)
| LogWarn (text : string)
| LogInfo (text : string).

Record ErrorRecord := mkErrorRecord {
  categorized : Categorized;
  context : Context;
  originalError : Err
}.

(** The mutable fields of an [ErrorHandler] instance, and the calls it has
    made on its logger so far. *)
Record State := mkState {
  errorCounts : gmap string nat;
  sessionErrors : list ErrorRecord;
  logged : list LogCall
}.

Definition initial : State := mkState ∅ [] [].

(** [suggestions.forEach((suggestion, index) => info(`  ${index + 1}. ...`))],
    starting at [index]. *)
Fixpoint suggestionLines (index : nat) (suggestions : list string) : list LogCall :=
  match suggestions with
  | [] => []
  | suggestion :: rest =>
      LogInfo ("  " +:+ pretty (index + 1) +:+ ". " +:+ suggestion)
      :: suggestionLines (S index) rest
  end.

Definition showSuggestions (suggestions : list string) : list LogCall :=
  match suggestions with
  | [] => []
  | _ => LogInfo "Suggestions to resolve this issue:" :: suggestionLines 0 suggestions
  end.

(** The line [handleError] logs for the error itself. *)
Definition severityLine (c : Categorized) : LogCall :=
  match severity c with
  | CRITICAL =>
      LogError ("CRITICAL " +:+ category c +:+ " Error: " +:+ userMessage c)
  | HIGH => LogError (category c +:+ " Error: " +:+ userMessage c)
  | MEDIUM => LogWarn (category c +:+ " Warning: " +:+ userMessage c)
  | LOW => LogWarn (category c +:+ " Notice: " +:+ userMessage c)
  end.

(** What [handleError] shows after the error line: the suggestions, for
    CRITICAL and HIGH only. *)
Definition shownSuggestions (c : Categorized) : list LogCall :=
  match severity c with
  | CRITICAL | HIGH => showSuggestions (suggestions c)
  | _ => []
  end.

Definition handleError (error : Err) (context : Context) (st : State)
  : Categorized * State :=
  let categorizedError := categorizeError error context in
  let key := typeName (type categorizedError) in
  let counts :=
    <[ key := default 0 (errorCounts st !! key) + 1 ]> (errorCounts st) in
  let errorRecord := mkErrorRecord categorizedError context error in
  (categorizedError,
   mkState counts
     (sessionErrors st ++ [errorRecord])
     (logged st ++ severityLine categorizedError
                :: shownSuggestions categorizedError)).

Definition shouldStopWorkflow (categorizedError : Categorized) : bool :=
  bool_decide (severity categorizedError = CRITICAL).

End ErrorHandler.

(** ** Configuration entries and change records *)

(** One monitoring target of the configuration file. [validateEntry] admits
    exactly these three fields, each a string. *)
Record Entry := mkEntry {
  url : string;
  css_selector : string;
  current_value : string
}.

#[global] Instance Entry_eq_dec : EqDecision Entry.
Proof. solve_decision. Defined.

(** ** src/page-monitor.js *)

Module PageMonitor.
Import Str.

(** What the Playwright page answers to the three calls made on it. *)
Record PageWorld := mkPageWorld {
  goto : Res unit;
  (** [page.waitForSelector]: an element handle ([true]) or [null]. *)
  pageWaitForSelector : Res bool;
  (** [page.textContent]: the text or [null]. *)
  pageTextContent : Res (option string)
}.

Definition defaultTimeout : N := 10000.
Definition navigationTimeout : N := 30000.

Definition handleNavigationError (error : Err) (url selector : string) : Err :=
  let errorMessage := orElse (message error) "Unknown error" in
  if String.eqb (name error) "TimeoutError" then
    if includes errorMessage "Navigation timeout" then
      newError ("Navigation timeout: Failed to load " +:+ dq +:+ url +:+ dq
                +:+ " within timeout period")
    else if includes errorMessage "waiting for selector" then
      newError ("Element timeout: Selector " +:+ dq +:+ selector +:+ dq
                +:+ " not found on " +:+ dq +:+ url +:+ dq
                +:+ " within timeout period")
    else
      newError ("Timeout error on " +:+ dq +:+ url +:+ dq +:+ ": "
                +:+ errorMessage)
  else if includes errorMessage "net::ERR_" then
    newError ("Network error loading " +:+ dq +:+ url +:+ dq +:+ ": "
              +:+ errorMessage)
  else if includes errorMessage "Invalid CSS selector" then
    newError ("Invalid CSS selector " +:+ dq +:+ selector +:+ dq +:+ ": "
              +:+ errorMessage)
  else if includes errorMessage "No text content found" then
    newError ("No text content found for selector " +:+ dq +:+ selector +:+ dq
              +:+ " on " +:+ dq +:+ url +:+ dq)
  else
    newError ("Page monitoring error for " +:+ dq +:+ url +:+ dq
              +:+ " with selector " +:+ dq +:+ selector +:+ dq +:+ ": "
              +:+ errorMessage).

(** The body of the [try] block of [waitForSelector]. *)
Definition waitForSelectorBody (pw : PageWorld) (selector : string) (timeout : N)
  : Res unit :=
  if negb (truthy selector) then Throw (newError "Valid CSS selector is required")
  else
    match pageWaitForSelector pw with
    | Throw e => Throw e
    | Ok false =>
        Throw (newError ("Element with selector " +:+ dq +:+ selector +:+ dq
                         +:+ " not found within " +:+ pretty timeout +:+ "ms"))
    | Ok true => Ok tt
    end.

Definition waitForSelector (pw : PageWorld) (selector : string) (timeout : N)
  : Res unit :=
  match waitForSelectorBody pw selector timeout with
  | Ok u => Ok u
  | Throw error =>
      if String.eqb (name error) "TimeoutError" then
        Throw (newError ("Timeout waiting for selector " +:+ dq +:+ selector
                         +:+ dq +:+ " after " +:+ pretty timeout +:+ "ms"))
      else
        Throw (newError ("Failed to wait for selector " +:+ dq +:+ selector
                         +:+ dq +:+ ": " +:+ message error))
  end.

(** The body of the [try] block of [extractTextContent]. *)
Definition extractTextContentBody (pw : PageWorld) (selector : string)
  : Res string :=
  if negb (truthy selector) then Throw (newError "Valid CSS selector is required")
  else
    match pageTextContent pw with
    | Throw e => Throw e
    | Ok None =>
        Throw (newError ("No text content found for selector " +:+ dq
                         +:+ selector +:+ dq))
    | Ok (Some textContent) => Ok (trim textContent)
    end.

Definition extractTextContent (pw : PageWorld) (selector : string) : Res string :=
  match extractTextContentBody pw selector with
  | Ok s => Ok s
  | Throw error =>
      Throw (newError ("Failed to extract text content from selector " +:+ dq
                       +:+ selector +:+ dq +:+ ": " +:+ message error))
  end.

Definition validationContext : ErrorHandler.Context :=
  ErrorHandler.mkContext "page" "navigate".

(** The body of the [try] block of [navigateAndExtract]. A validation error
    is handed to the monitor's own error handler before it is thrown. *)
Definition navigateAndExtractBody (pw : PageWorld) (url selector : string)
  (timeout : N) (st : ErrorHandler.State) : Res string * ErrorHandler.State :=
  if negb (truthy url) then
    let validationError := newError "Valid URL is required" in
    (Throw validationError,
     snd (ErrorHandler.handleError validationError validationContext st))
  else if negb (truthy selector) then
    let validationError := newError "Valid CSS selector is required" in
    (Throw validationError,
     snd (ErrorHandler.handleError validationError validationContext st))
  else
    match goto pw with
    | Throw e => (Throw e, st)
    | Ok _ =>
        match waitForSelector pw selector timeout with
        | Throw e => (Throw e, st)
        | Ok _ => (extractTextContent pw selector, st)
        end
    end.

(** [navigateAndExtract(page, url, selector)] on an open page, with the
    default timeouts. [st] is the state of the monitor's own error handler. *)
Definition navigateAndExtract (pw : PageWorld) (url selector : string)
  (st : ErrorHandler.State) : Res string * ErrorHandler.State :=
  match navigateAndExtractBody pw url selector defaultTimeout st with
  | (Ok textContent, st1) => (Ok textContent, st1)
  | (Throw error, st1) =>
      let handledError := handleNavigationError error url selector in
      (Throw handledError,
       snd (ErrorHandler.handleError handledError
              (ErrorHandler.mkContext "page" "navigateAndExtract") st1))
  end.

End PageMonitor.

(** ** src/change-detector.js

    The text of the class stands in [src/slack-notifier.test.js], behind the
    tests of the notifier. *)

Module ChangeDetector.
Import Str.

(** A JavaScript number as [String] prints it. A finite number other than
    zero is held by its sign and by the decimal digits and the exponent [n]
    that Number::toString of ECMAScript picks for it in step 5: with [k]
    digits, the number is [digits] times ten to the power [n - k], and
    [digits] is the shortest numeral that reads back as the number. So 123
    is [Finite false 123 3], 0.5 is [Finite false 5 0] and 1e21 is
    [Finite false 1 22]. *)
Inductive Number :=
| NaN
| Infinity (negative : bool)
| Zero (negative : bool)
| Finite (negative : bool) (digits : positive) (n : Z).

(** [n] occurrences of the digit zero. *)
Definition zeros (n : Z) : string := concat (replicate (Z.to_nat n) "0").

(** Number::toString for radix 10, steps 6 to 12, on the digits [s] and the
    exponent [n] of a positive number: plain decimal notation when [n] is
    between -5 and 21, scientific notation otherwise. *)
Definition formatDigits (s : positive) (n : Z) : string :=
  let digits := pretty (Npos s) in
  let k := Z.of_nat (String.length digits) in
  if ((-5 <=? n) && (n <=? 21))%Z then
    if (k <=? n)%Z then digits +:+ zeros (n - k)
    else if (0 <? n)%Z then
      substring 0 (Z.to_nat n) digits +:+ "." +:+
      substring (Z.to_nat n) (Z.to_nat (k - n)) digits
    else "0." +:+ zeros (- n) +:+ digits
  else
    let exponentSign := if (n <? 0)%Z then "-" else "+" in
    let exponent := pretty (Z.to_N (Z.abs (n - 1))) in
    if (k =? 1)%Z then digits +:+ "e" +:+ exponentSign +:+ exponent
    else
      substring 0 1 digits +:+ "." +:+ substring 1 (Z.to_nat (k - 1)) digits +:+
      "e" +:+ exponentSign +:+ exponent.

(** Number::toString for radix 10. *)
Definition numberToString (x : Number) : string :=
  match x with
  | NaN => "NaN"
  | Zero _ => "0"
  | Infinity negative => (if negative then "-" else "") +:+ "Infinity"
  | Finite negative s n => (if negative then "-" else "") +:+ formatDigits s n
  end.

(** The values of JavaScript, by type. An object (an array, a function) is
    held by the string that [String] makes of it, which is all that
    [detectChange] asks of it, and a symbol by its description. An object
    for which [String] throws is no value of this type: neither
    [JSON.parse] nor [page.textContent], from which the compared values
    come, gives one. *)
Inductive JsValue :=
| JUndefined
| JNull
| JBool (b : bool)
| JNumber (x : Number)
| JBigInt (z : Z)
| JString (s : string)
| JSymbol (description : string)
| JObject (asString : string).

(** [String(v)]. *)
Definition toString (v : JsValue) : string :=
  match v with
  | JUndefined => "undefined"
  | JNull => "null"
  | JBool true => "true"
  | JBool false => "false"
  | JNumber x => numberToString x
  | JBigInt z => pretty z
  | JString s => s
  | JSymbol description => "Symbol(" +:+ description +:+ ")"
  | JObject asString => asString
  end.

(** [v == null]: [v] is [null] or [undefined]. *)
Definition isNullish (v : JsValue) : bool :=
  match v with JNull | JUndefined => true | _ => false end.

(** [detectChange(currentValue, storedValue)]. *)
Definition detectChange (currentValue storedValue : JsValue) : bool :=
  if isNullish currentValue && isNullish storedValue then false
  else if isNullish currentValue || isNullish storedValue then true
  else
    let trimmedCurrent := trim (toString currentValue) in
    let trimmedStored := trim (toString storedValue) in
    negb (String.eqb trimmedCurrent trimmedStored).

(** The outcome of one target: the entry (the very object of the target
    list), whether it changed, the stored and the extracted value. *)
Record ChangeRecord := mkChangeRecord {
  entry : Entry;
  hasChanged : bool;
  oldValue : string;
  newValue : string
}.

(** [processEntry(entry, extractedValue)] for an entry of the configuration,
    whose [current_value] is a string, and the text extracted from a page.
    Both branches build a record of the same four fields, [createChangeRecord]
    for an entry that changed; the fields [url] and [css_selector] that it
    adds repeat those of [entry], and the time stamps are left out. *)
Definition processEntry (entry : Entry) (extractedValue : string) : ChangeRecord :=
  mkChangeRecord entry
    (detectChange (JString extractedValue) (JString (current_value entry)))
    (current_value entry) extractedValue.

End ChangeDetector.

(** ** Events of a run *)

(** A page handle. *)
Definition Page := nat.

(** The calls on outside collaborators that a run makes, in the order in
    which they happen. A notification attempt is bracketed by [EvNotify]
    (the call) and [EvNotified] (its completion). *)
Inductive Event :=
| EvLoadConfig (configPath : string)
| EvLaunch
| EvConnect
| EvCreatePage (index : nat)
| EvNavigate (url selector : string)
| EvClosePage (page : Page)
| EvPageClose (page : Page)
| EvNotify (change : ChangeDetector.ChangeRecord)
| EvNotified (change : ChangeDetector.ChangeRecord)
| EvPersist (configPath : string) (targets : list Entry)
    (changes : list ChangeDetector.ChangeRecord)
| EvDisconnect
| EvTerminate.

Definition isNotifyEvent (ev : Event) : bool :=
  match ev with EvNotify _ | EvNotified _ => true | _ => false end.

Definition isPersistEvent (ev : Event) : bool :=
  match ev with EvPersist _ _ _ => true | _ => false end.

(** ** src/browser-controller.js *)

Module BrowserController.

(** What the page answers when it is released. *)
Record CloseWorld := mkCloseWorld {
  pageIsClosed : Res bool;
  pageClose : Res unit
}.

(** The tracking set of open pages and the warnings logged so far. *)
Record State := mkState {
  pages : gset Page;
  warned : list string
}.

(** The body of the [try] block of [closePage]. *)
Definition closePageBody (cw : CloseWorld) (page : option Page) (st : State)
  : Res unit * State * list Event :=
  match page with
  | None => (Ok tt, st, [])
  | Some p =>
      let st1 := mkState (pages st ∖ {[ p ]}) (warned st) in
      match pageIsClosed cw with
      | Throw e => (Throw e, st1, [])
      | Ok true => (Ok tt, st1, [])
      | Ok false => (pageClose cw, st1, [EvPageClose p])
      end
  end.

(** [closePage(page)]: the [catch] logs a warning and does not throw. *)
Definition closePage (cw : CloseWorld) (page : option Page) (st : State)
  : Res unit * State * list Event :=
  match closePageBody cw page st with
  | (Ok u, st1, evs) => (Ok u, st1, evs)
  | (Throw error, st1, evs) =>
      (Ok tt,
       mkState (pages st1)
         (warned st1 ++ ["Failed to close page: " +:+ message error]),
       evs)
  end.

End BrowserController.

(** ** detect-change.js: the monitoring workflow *)

Module Workflow.
Import ChangeDetector.

(** The configuration as [loadConfig] returns it. *)
Record Config := mkConfig {
  targets : list Entry;
  slack_webhook : option string
}.

(** What the collaborators answer during one run. Calls made once per target
    are indexed by the position of the target in the list, calls made once
    per change by the position of the change in the batch. *)
Record World := mkWorld {
  loadConfig : Res Config;
  launch : Res string;
  connect : Res unit;
  createPage : nat -> Res Page;
  pageWorld : nat -> PageMonitor.PageWorld;
  closeWorld : nat -> BrowserController.CloseWorld;
  sendChangeNotification : nat -> Res bool;
  updateAndPersist : Res unit;
  isConnectedToBrowser : bool;
  disconnect : Res unit;
  isRunning : bool;
  terminate : Res unit
}.

(** An element of [session.results]: the outcome of a target, or the record
    of its failure. *)
Inductive ResultRec :=
| Outcome (result : ChangeRecord)
| Failure (entry : Entry) (error : string)
    (errorType : ErrorHandler.ErrorType) (severity : ErrorHandler.ErrorSeverity).

(** [r.hasChanged] of an element of [session.results]. *)
Definition resultHasChanged (r : ResultRec) : bool :=
  match r with
  | Outcome result => hasChanged result
  | Failure _ _ _ _ => false
  end.

(** An element of [session.errors]. *)
Record SessionError := mkSessionError {
  etype : ErrorHandler.ErrorType;
  emessage : string;
  eentry : option Entry;
  edetails : Err;
  eseverity : ErrorHandler.ErrorSeverity
}.

(** The fields of a [MonitoringWorkflow] that change during a run, the states
    of the components it owns, and the events so far. *)
Record State := mkState {
  results : list ResultRec;
  errors : list SessionError;
  configPath : string;
  slackWebhook : option string;
  slackNotifier : option string;
  handler : ErrorHandler.State;
  monitor : ErrorHandler.State;
  browser : BrowserController.State;
  trace : list Event
}.

Definition emit (evs : list Event) (st : State) : State :=
  mkState (results st) (errors st) (configPath st) (slackWebhook st)
    (slackNotifier st) (handler st) (monitor st) (browser st)
    (trace st ++ evs).

Definition pushResult (r : ResultRec) (st : State) : State :=
  mkState (results st ++ [r]) (errors st) (configPath st) (slackWebhook st)
    (slackNotifier st) (handler st) (monitor st) (browser st) (trace st).

Definition pushError (e : SessionError) (st : State) : State :=
  mkState (results st) (errors st ++ [e]) (configPath st) (slackWebhook st)
    (slackNotifier st) (handler st) (monitor st) (browser st) (trace st).

Definition setHandler (h : ErrorHandler.State) (st : State) : State :=
  mkState (results st) (errors st) (configPath st) (slackWebhook st)
    (slackNotifier st) h (monitor st) (browser st) (trace st).

Definition setMonitor (m : ErrorHandler.State) (st : State) : State :=
  mkState (results st) (errors st) (configPath st) (slackWebhook st)
    (slackNotifier st) (handler st) m (browser st) (trace st).

Definition setBrowser (b : BrowserController.State) (st : State) : State :=
  mkState (results st) (errors st) (configPath st) (slackWebhook st)
    (slackNotifier st) (handler st) (monitor st) b (trace st).

Definition setWebhook (hook : string) (st : State) : State :=
  mkState (results st) (errors st) (configPath st) (Some hook)
    (Some hook) (handler st) (monitor st) (browser st) (trace st).

(** Computations of the workflow: they read and change the state and either
    return or throw; what was changed before a throw stays changed. *)
Definition M (A : Type) : Type := State -> Res A * State.

Definition ret {A} (a : A) : M A := fun st => (Ok a, st).

Definition throw {A} (e : Err) : M A := fun st => (Throw e, st).

Definition bind {A B} (m : M A) (k : A -> M B) : M B :=
  fun st =>
    match m st with
    | (Ok a, st1) => k a st1
    | (Throw e, st1) => (Throw e, st1)
    end.

Definition tryCatch {A} (m : M A) (h : Err -> M A) : M A :=
  fun st =>
    match m st with
    | (Ok a, st1) => (Ok a, st1)
    | (Throw e, st1) => h e st1
    end.

(** [try { m } finally { fin }]: a throw of [fin] replaces the outcome of
    [m]. *)
Definition tryFinally {A} (m : M A) (fin : M unit) : M A :=
  fun st =>
    match m st with
    | (r, st1) =>
        match fin st1 with
        | (Ok _, st2) => (r, st2)
        | (Throw e, st2) => (Throw e, st2)
        end
    end.

Definition modify (f : State -> State) : M unit := fun st => (Ok tt, f st).

(** A call on a collaborator: it is recorded, then it answers. *)
Definition call {A} (evs : list Event) (answer : Res A) : M A :=
  fun st => (answer, emit evs st).

Notation "'do' x <- m ; k" := (bind m (fun x => k))
  (at level 10, x name, m at level 100, k at level 200).
Notation "'exec' m ; k" := (bind m (fun _ => k))
  (at level 10, m at level 100, k at level 200).

(** JavaScript truthiness of a string that may be [undefined]. *)
Definition truthyOpt (s : option string) : bool :=
  match s with Some x => Str.truthy x | None => false end.

(** [handleError] on the workflow's own handler. *)
Definition handleError (error : Err) (context : ErrorHandler.Context)
  : M ErrorHandler.Categorized :=
  fun st =>
    let '(c, h) := ErrorHandler.handleError error context (handler st) in
    (Ok c, setHandler h st).

Definition initialize (configPath : string) (slackWebhook : option string)
  : State :=
  mkState [] [] configPath slackWebhook
    (if truthyOpt slackWebhook then slackWebhook else None)
    ErrorHandler.initial ErrorHandler.initial
    (BrowserController.mkState ∅ []) [].

(** [browserController.closePage(page)] from the workflow. *)
Definition closePage (w : World) (index : nat) (page : Page) : M unit :=
  fun st =>
    let '(r, b, evs) :=
      BrowserController.closePage (closeWorld w index) (Some page) (browser st) in
    (r, setBrowser b (emit (EvClosePage page :: evs) st)).

(** [pageMonitor.navigateAndExtract(page, url, selector)] from the workflow. *)
Definition navigateAndExtract (w : World) (index : nat) (url selector : string)
  : M string :=
  fun st =>
    let '(r, m) :=
      PageMonitor.navigateAndExtract (pageWorld w index) url selector (monitor st) in
    (r, setMonitor m (emit [EvNavigate url selector] st)).

(** The [try] block of [processMonitoringTarget]; next to its outcome it
    gives the value of the local variable [page] when the block is left. *)
Definition processMonitoringTargetBody (w : World) (index : nat) (entry : Entry)
  : State -> Res ChangeRecord * option Page * State :=
  fun st =>
    match call [EvCreatePage index] (createPage w index) st with
    | (Throw e, st1) => (Throw e, None, st1)
    | (Ok page, st1) =>
        match navigateAndExtract w index (url entry) (css_selector entry) st1 with
        | (Throw e, st2) => (Throw e, Some page, st2)
        | (Ok extractedValue, st2) =>
            (Ok (processEntry entry extractedValue), Some page, st2)
        end
    end.

Definition processMonitoringTarget (w : World) (index : nat) (entry : Entry)
  : M ChangeRecord :=
  fun st =>
    match processMonitoringTargetBody w index entry st with
    | (r, page, st1) =>
        let finally : M unit :=
          match page with
          | Some p => closePage w index p
          | None => ret tt
          end in
        tryFinally (fun _ => (r, st1)) finally st
    end.

Definition targetContext : ErrorHandler.Context :=
  ErrorHandler.mkContext "target" "processMonitoringTarget".

(** The [catch] block of the per-target loop up to the stop test: classify,
    record, and say whether the workflow must stop. *)
Definition recordTargetFailure (entry : Entry) (error : Err) : M bool :=
  do categorizedError <- handleError error targetContext ;
  exec modify (pushResult (Failure entry (message error)
                             (ErrorHandler.type categorizedError)
                             (ErrorHandler.severity categorizedError))) ;
  exec modify (pushError (mkSessionError (ErrorHandler.type categorizedError)
                            (message error) (Some entry) error
                            (ErrorHandler.severity categorizedError))) ;
  ret (ErrorHandler.shouldStopWorkflow categorizedError).

(** Step 1 of [processMonitoringTargets]: the loop over the targets from
    position [index] on, with the changes collected so far. *)
Fixpoint targetsLoop (w : World) (index : nat) (targets : list Entry)
  (changes : list ChangeRecord) : M (list ChangeRecord) :=
  match targets with
  | [] => ret changes
  | entry :: rest =>
      fun st =>
        match processMonitoringTarget w index entry st with
        | (Ok result, st1) =>
            targetsLoop w (S index) rest
              (if hasChanged result then changes ++ [result] else changes)
              (pushResult (Outcome result) st1)
        | (Throw error, st1) =>
            match recordTargetFailure entry error st1 with
            | (Ok true, st2) => (Throw error, st2)
            | (Ok false, st2) => targetsLoop w (S index) rest changes st2
            | (Throw e, st2) => (Throw e, st2)
            end
        end
  end.

Definition notificationContext : ErrorHandler.Context :=
  ErrorHandler.mkContext "notification" "sendChangeNotification".

(** [sendNotificationsForChanges]: the loop over the changes from position
    [index] on; it returns the two counters of the summary line. *)
Fixpoint notifyLoop (w : World) (index : nat) (changes : list ChangeRecord)
  (successCount failureCount : nat) : M (nat * nat) :=
  match changes with
  | [] => ret (successCount, failureCount)
  | change :: rest =>
      do r <- tryCatch
             (do sent <- call [EvNotify change] (sendChangeNotification w index) ;
              exec modify (emit [EvNotified change]) ;
              ret sent)
             (fun notificationError =>
                exec modify (emit [EvNotified change]) ;
                do categorizedError <-
                  handleError notificationError notificationContext ;
                exec modify
                  (pushError
                     (mkSessionError (ErrorHandler.type categorizedError)
                        (message notificationError) (Some (entry change))
                        notificationError
                        (ErrorHandler.severity categorizedError))) ;
                ret false) ;
      if (r : bool) then notifyLoop w (S index) rest (S successCount) failureCount
      else notifyLoop w (S index) rest successCount (S failureCount)
  end.

Definition sendNotificationsForChanges (w : World) (changes : list ChangeRecord)
  : M (nat * nat) :=
  notifyLoop w 0 changes 0 0.

Definition persistenceContext : ErrorHandler.Context :=
  ErrorHandler.mkContext "persistence" "updateAndPersist".

(** Step 3 of [processMonitoringTargets]. *)
Definition persistChanges (w : World) (targets : list Entry)
  (changes : list ChangeRecord) : M unit :=
  fun st =>
    tryCatch
      (call [EvPersist (configPath st) targets changes] (updateAndPersist w))
      (fun error =>
         do categorizedError <- handleError error persistenceContext ;
         exec modify
           (pushError (mkSessionError (ErrorHandler.type categorizedError)
                         (message error) None error
                         (ErrorHandler.severity categorizedError))) ;
         throw error)
      st.

(** Steps 2 and 3 of [processMonitoringTargets], on the collected changes. *)
Definition notifyAndPersist (w : World) (targets : list Entry)
  (changes : list ChangeRecord) : M unit :=
  fun st =>
    (exec (if (0 <? List.length changes)%nat && bool_decide (is_Some (slackNotifier st))
           then (exec sendNotificationsForChanges w changes ; ret tt)
           else ret tt) ;
     if (0 <? List.length changes)%nat
     then persistChanges w targets changes
     else ret tt) st.

Definition processMonitoringTargets (w : World) (targets : list Entry) : M unit :=
  do changes <- targetsLoop w 0 targets [] ;
  notifyAndPersist w targets changes.

(** [cleanup()]: both teardown calls are guarded and their failures caught. *)
Definition cleanup (w : World) : M unit :=
  exec tryCatch
    (if isConnectedToBrowser w then call [EvDisconnect] (disconnect w) else ret tt)
    (fun _ => ret tt) ;
  tryCatch
    (if isRunning w then call [EvTerminate] (terminate w) else ret tt)
    (fun _ => ret tt).

Definition executeContext : ErrorHandler.Context :=
  ErrorHandler.mkContext "workflow" "execute".

(** The [try] block of [execute]. *)
Definition executeBody (w : World) : M unit :=
  fun st =>
    (do config <- call [EvLoadConfig (configPath st)] (loadConfig w) ;
     exec (fun st1 =>
        if negb (truthyOpt (slackWebhook st1)) then
          match slack_webhook config with
          | Some hook =>
              if Str.truthy hook then (Ok tt, setWebhook hook st1)
              else (Ok tt, st1)
          | None => (Ok tt, st1)
          end
        else (Ok tt, st1)) ;
     exec call [EvLaunch] (launch w) ;
     exec call [EvConnect] (connect w) ;
     processMonitoringTargets w (targets config)) st.

Definition execute (w : World) : M unit :=
  tryFinally
    (tryCatch (executeBody w)
       (fun error =>
          do categorizedError <- handleError error executeContext ;
          exec modify
            (pushError (mkSessionError (ErrorHandler.type categorizedError)
                          (message error) None error
                          (ErrorHandler.severity categorizedError))) ;
          if bool_decide (ErrorHandler.type categorizedError = ErrorHandler.CONFIG_ERROR)
             || bool_decide (ErrorHandler.type categorizedError = ErrorHandler.CHROME_ERROR)
          then throw error
          else if ErrorHandler.shouldStopWorkflow categorizedError then throw error
          else ret tt))
    (cleanup w).

(** One run of the tool: [initialize] then [execute]. *)
Definition run (w : World) (configPath : string) (slackWebhook : option string)
  : Res unit * State :=
  execute w (initialize configPath slackWebhook).

End Workflow.

(** ** src/state-manager.js *)

Module StateManager.

(** Entries are JavaScript objects: [updateConfigValues] copies the target
    list and then assigns to fields of the copies. The store maps the address
    of each live entry object to its fields; an array of entries is a list of
    addresses. *)
Definition loc := nat.

(** A change record as [updateConfigValues] reads it: [entry] is a reference
    to an entry object, or is missing. *)
Record Change := mkChange {
  entry : option loc;
  hasChanged : bool;
  newValue : string
}.

(** The key of the change map: [`${entry.url}|${entry.css_selector}`]. *)
Definition keyOf (e : Entry) : string := url e +:+ "|" +:+ css_selector e.

(** [JSON.parse(JSON.stringify(targets))]: each entry object is read and a
    new object with the same fields is allocated. Reading an address that
    holds no object cannot happen in JavaScript; here it gives [None]. *)
Fixpoint deepCopy (σ : gmap loc Entry) (targets : list loc)
  : option (gmap loc Entry * list loc) :=
  match targets with
  | [] => Some (σ, [])
  | l :: rest =>
      e ← σ !! l;
      let l' := fresh (dom σ) in
      '(σ', copies) ← deepCopy (<[l' := e]> σ) rest;
      Some (σ', l' :: copies)
  end.

(** [changes.forEach(...)] filling [changeMap]. *)
Fixpoint buildChangeMap (σ : gmap loc Entry) (changes : list Change)
  (changeMap : gmap string string) : option (gmap string string) :=
  match changes with
  | [] => Some changeMap
  | change :: rest =>
      match entry change with
      | None => buildChangeMap σ rest changeMap
      | Some l =>
          if negb (hasChanged change) then buildChangeMap σ rest changeMap
          else
            e ← σ !! l;
            buildChangeMap σ rest (<[keyOf e := newValue change]> changeMap)
      end
  end.

Definition setCurrentValue (e : Entry) (v : string) : Entry :=
  mkEntry (url e) (css_selector e) v.

(** [updatedTargets.forEach(...)] assigning the new values in place. *)
Fixpoint applyChangeMap (changeMap : gmap string string) (σ : gmap loc Entry)
  (updatedTargets : list loc) : option (gmap loc Entry) :=
  match updatedTargets with
  | [] => Some σ
  | l :: rest =>
      e ← σ !! l;
      match changeMap !! keyOf e with
      | Some v => applyChangeMap changeMap (<[l := setCurrentValue e v]> σ) rest
      | None => applyChangeMap changeMap σ rest
      end
  end.

(** [updateConfigValues(targets, changes)]: the store after the call and the
    returned array. *)
Definition updateConfigValues (σ : gmap loc Entry) (targets : list loc)
  (changes : list Change) : option (gmap loc Entry * list loc) :=
  '(σ1, updatedTargets) ← deepCopy σ targets;
  changeMap ← buildChangeMap σ1 changes ∅;
  σ2 ← applyChangeMap changeMap σ1 updatedTargets;
  Some (σ2, updatedTargets).

(** The entries an array holds, read through the store. *)
Definition contents (σ : gmap loc Entry) (arr : list loc) : list (option Entry) :=
  (λ l, σ !! l) <$> arr.

(** Every element of the array is a live object. *)
Definition liveTargets (σ : gmap loc Entry) (targets : list loc) : Prop :=
  Forall (λ l, is_Some (σ !! l)) targets.

(** Every change that has an entry refers to a live object. *)
Definition liveChanges (σ : gmap loc Entry) (changes : list Change) : Prop :=
  Forall (λ c, ∀ l, entry c = Some l → is_Some (σ !! l)) changes.

(** *** The update as the specification words it *)

(** The key and new value of a change that counts: it has an entry and
    [hasChanged] is set. *)
Definition effective (σ : gmap loc Entry) (c : Change) : option (string * string) :=
  match entry c with
  | Some l =>
      if hasChanged c then e ← σ !! l; Some (keyOf e, newValue c) else None
  | None => None
  end.

(** The new value the changes give to key [k]: that of the last change that
    counts and has this key. *)
Fixpoint lastChangeFor (σ : gmap loc Entry) (changes : list Change) (k : string)
  : option string :=
  match changes with
  | [] => None
  | c :: rest =>
      match lastChangeFor σ rest k with
      | Some v => Some v
      | None =>
          match effective σ c with
          | Some (k', v) => if decide (k' = k) then Some v else None
          | None => None
          end
      end
  end.

(** An entry after the update: its stored value replaced when a change
    matches its key, itself otherwise. *)
Definition updatedEntry (σ : gmap loc Entry) (changes : list Change) (e : Entry)
  : Entry :=
  match lastChangeFor σ changes (keyOf e) with
  | Some v => setCurrentValue e v
  | None => e
  end.

End StateManager.

(** * Sample inputs *)

Module Samples.

(** The message with which a persistence failure for lack of disk space
    reaches the workflow: [saveConfig] words the ENOSPC failure, and
    [persistConfig] and [updateAndPersist] each wrap it. *)
Definition noSpaceError : Err :=
  newError ("Failed to update and persist configuration: "
            +:+ "Failed to persist configuration: "
            +:+ "No space left on device when writing: input.json").

(** A page on which the selector wait times out after the navigation
    succeeded. *)
Definition selectorTimeoutPage : PageMonitor.PageWorld :=
  PageMonitor.mkPageWorld (Ok tt)
    (Throw (mkErr "TimeoutError" "Timeout 10000ms exceeded")) (Ok None).

(** A page on which the navigation itself times out. *)
Definition navigationTimeoutPage : PageMonitor.PageWorld :=
  PageMonitor.mkPageWorld
    (Throw (mkErr "TimeoutError" "Navigation timeout of 30000 ms exceeded"))
    (Ok true) (Ok None).

(** A page on which the navigation times out with a message that names
    neither the navigation nor any other word the classifier looks for. *)
Definition gotoTimeoutPage : PageMonitor.PageWorld :=
  PageMonitor.mkPageWorld
    (Throw (mkErr "TimeoutError" "page.goto: Timeout 30000ms exceeded."))
    (Ok true) (Ok None).

(** A page that shows [text] under the selector. *)
Definition okPage (text : string) : PageMonitor.PageWorld :=
  PageMonitor.mkPageWorld (Ok tt) (Ok true) (Ok (Some text)).

(** A world in which the configuration loads, the browser starts, pages are
    released without trouble, the webhook accepts and the file is written. *)
Definition world (config : Workflow.Config) (createPage : nat -> Res Page)
  (pageWorld : nat -> PageMonitor.PageWorld) : Workflow.World :=
  Workflow.mkWorld (Ok config) (Ok "ws://127.0.0.1:9222") (Ok tt)
    createPage pageWorld
    (fun _ => BrowserController.mkCloseWorld (Ok false) (Ok tt))
    (fun _ => Ok true) (Ok tt) true (Ok tt) true (Ok tt).

Definition price : Entry := mkEntry "https://example.com/p1" "#price" "$19.99".
Definition title : Entry := mkEntry "https://example.com/p2" ".title" "Name".

(** Two targets; the first is unchanged; for the second no page can be
    created because the connection to the browser is gone, which
    [createPage] words as below and the classifier rates CRITICAL. *)
Definition lastTargetCritical : Workflow.World :=
  world (Workflow.mkConfig [price; title] None)
    (fun i => if Nat.eqb i 1
              then Throw (newError ("Failed to create page: "
                     +:+ "Browser is not connected. Call connect() first."))
              else Ok i)
    (fun _ => okPage "$19.99").


(** Two targets; on the page of the first the selector wait times out. *)
Definition firstTargetTimesOut : Workflow.World :=
  world (Workflow.mkConfig [price; title] None) (fun i => Ok i)
    (fun i => if Nat.eqb i 0 then selectorTimeoutPage else okPage "Name").

(** A store with the two targets at the addresses 0 and 1, and at address 2
    an entry that is no target. *)
Definition store : gmap StateManager.loc Entry :=
  <[0 := price]> (<[1 := title]>
    (<[2 := mkEntry "https://nonexistent.com" "#missing" "old"]> ∅)).

(** Two changes for the price, the second is the later one. *)
Definition repricedTwice : list StateManager.Change :=
  [StateManager.mkChange (Some 0) true "$18.49";
   StateManager.mkChange (Some 0) true "$17.99"].

(** The same, then an outcome without change for the title, a change for
    the entry that is no target, and a change record without entry. *)
Definition mixedChanges : list StateManager.Change :=
  (repricedTwice ++
   [StateManager.mkChange (Some 1) false "Name";
    StateManager.mkChange (Some 2) true "new";
    StateManager.mkChange None true "lost"])%list.

End Samples.

(** * Vocabulary of the statements *)

Module Routing.
Import Str.

(** The substrings that the rules of [categorizeError] up to and including
    the page-navigation rule look for, and those that
    [handleNavigationError] looks for in the message of an error that is
    not a [TimeoutError]. *)
Definition triggers : list string :=
  ["Configuration"; "Invalid JSON"; "Missing required field";
   "Config load failed"; "not found"; "Chrome"; "connect"; "CDP"; "browser";
   "Navigation"; "timeout"; "net::ERR"; "load";
   "net::ERR_"; "Invalid CSS selector"; "No text content found"].

(** [plain s]: none of these substrings occurs in [s]. *)
Definition plain (s : string) : bool :=
  forallb (fun p => negb (includes s p)) triggers.

(** The substrings that the configuration, Chrome and browser-connection
    rules of [categorizeError] look for, which are tried before the
    page-navigation rule. *)
Definition earlier : list string :=
  ["Configuration"; "Invalid JSON"; "Missing required field";
   "Config load failed"; "not found"; "Chrome"; "connect"; "CDP"; "browser"].

(** [unmarked s]: none of them occurs in [s]. *)
Definition unmarked (s : string) : bool :=
  forallb (fun p => negb (includes s p)) earlier.

(** A classification as a page-navigation failure: of HIGH severity, of
    type TARGET_ERROR in the per-target loop and PAGE_ERROR elsewhere. *)
Definition pageNavigation (ctx : ErrorHandler.Context)
  (c : ErrorHandler.Categorized) : Prop :=
  ErrorHandler.category c = "Page Navigation" /\
  ErrorHandler.severity c = ErrorHandler.HIGH /\
  ErrorHandler.type c =
    (if String.eqb (ErrorHandler.operation ctx) "processMonitoringTarget"
     then ErrorHandler.TARGET_ERROR else ErrorHandler.PAGE_ERROR).

(** A classification as an element-extraction failure. *)
Definition elementExtraction (c : ErrorHandler.Categorized) : Prop :=
  ErrorHandler.category c = "Element Extraction" /\
  ErrorHandler.severity c = ErrorHandler.MEDIUM /\
  ErrorHandler.type c = ErrorHandler.EXTRACTION_ERROR.

(** The message of a navigation timeout. *)
Definition navigationTimeoutMessage (url : string) : string :=
  "Navigation timeout: Failed to load " +:+ dq +:+ url +:+ dq
  +:+ " within timeout period".

(** The message of a selector timeout, as it leaves [navigateAndExtract]. *)
Definition selectorTimeoutMessage (url selector : string) : string :=
  "Page monitoring error for " +:+ dq +:+ url +:+ dq
  +:+ " with selector " +:+ dq +:+ selector +:+ dq
  +:+ ": Timeout waiting for selector " +:+ dq +:+ selector +:+ dq
  +:+ " after 10000ms".

End Routing.

Module Runs.
Import ChangeDetector Workflow.

(** [quiet evs]: no event of [evs] is a notification attempt or a call of
    the persistence step. *)
Definition quiet (evs : list Event) : Prop :=
  Forall (fun ev => isNotifyEvent ev = false /\ isPersistEvent ev = false) evs.

(** The outcome of the fetch and compare steps for the target at position
    [index]: what page creation, [navigateAndExtract] and [processEntry]
    give, release of the page left aside. *)
Definition targetOutcome (w : World) (index : nat) (entry : Entry)
  : Res ChangeRecord :=
  match createPage w index with
  | Throw e => Throw e
  | Ok _ =>
      match fst (PageMonitor.navigateAndExtract (pageWorld w index)
                   (url entry) (css_selector entry) ErrorHandler.initial) with
      | Throw e => Throw e
      | Ok extractedValue => Ok (processEntry entry extractedValue)
      end
  end.

(** The events of one target: the page is created; if that succeeded the
    page is navigated and then handed to [closePage], which closes it unless
    it reports itself closed already. *)
Definition targetEvents (w : World) (index : nat) (entry : Entry) : list Event :=
  EvCreatePage index ::
  match createPage w index with
  | Throw _ => []
  | Ok page =>
      EvNavigate (url entry) (css_selector entry) :: EvClosePage page ::
      match BrowserController.pageIsClosed (closeWorld w index) with
      | Ok false => [EvPageClose page]
      | _ => []
      end
  end.

(** The same world with other answers to the release of pages. *)
Definition withCloseWorld (cw : nat -> BrowserController.CloseWorld) (w : World)
  : World :=
  mkWorld (loadConfig w) (launch w) (connect w) (createPage w) (pageWorld w)
    cw (sendChangeNotification w) (updateAndPersist w)
    (isConnectedToBrowser w) (disconnect w) (isRunning w) (terminate w).

(** The target at position [index] fails and its failure is classified
    CRITICAL. *)
Definition isCritical (w : World) (index : nat) (entry : Entry) : bool :=
  match targetOutcome w index entry with
  | Throw e =>
      ErrorHandler.shouldStopWorkflow (ErrorHandler.categorizeError e targetContext)
  | Ok _ => false
  end.

(** How many targets precede the first one whose failure is classified
    CRITICAL, in a list that starts at position [index]. *)
Fixpoint firstCritical (w : World) (index : nat) (targets : list Entry)
  : option nat :=
  match targets with
  | [] => None
  | entry :: rest =>
      if isCritical w index entry then Some 0
      else S <$> firstCritical w (S index) rest
  end.

(** The changes among the outcomes of a list of targets that starts at
    position [index]. *)
Fixpoint loopChanges (w : World) (index : nat) (targets : list Entry)
  : list ChangeRecord :=
  match targets with
  | [] => []
  | entry :: rest =>
      match targetOutcome w index entry with
      | Ok result =>
          if hasChanged result then result :: loopChanges w (S index) rest
          else loopChanges w (S index) rest
      | Throw _ => loopChanges w (S index) rest
      end
  end.

(** The changes recorded in [session.results]. *)
Definition detectedChanges (rs : list ResultRec) : list ChangeRecord :=
  omap (fun r => match r with
                 | Outcome c => if hasChanged c then Some c else None
                 | Failure _ _ _ _ => None
                 end) rs.

(** The events of the notification step over a batch: one attempt after the
    other, each completed before the next starts. *)
Definition notifyEvents (changes : list ChangeRecord) : list Event :=
  flat_map (fun c => [EvNotify c; EvNotified c]) changes.

(** Whether a run has a notifier: a webhook is given on the command line, or
    else one stands in the configuration. *)
Definition notifierSet (slackWebhook : option string) (config : Config) : bool :=
  truthyOpt slackWebhook || truthyOpt (slack_webhook config).

End Runs.

Module RunEvents.
Import ChangeDetector Workflow.

(** The pages handed to [closePage], in order. *)
Definition closeCalls (evs : list Event) : list Page :=
  omap (fun ev => match ev with EvClosePage p => Some p | _ => None end) evs.

(** The events of [cleanup]. *)
Definition cleanupEvents (w : World) : list Event :=
  ((if isConnectedToBrowser w then [EvDisconnect] else []) ++
   (if isRunning w then [EvTerminate] else []))%list.

(** The record [session.errors] gets for an error classified in [context]
    that belongs to no target. *)
Definition sessionErrorOf (context : ErrorHandler.Context) (error : Err)
  : SessionError :=
  let c := ErrorHandler.categorizeError error context in
  mkSessionError (ErrorHandler.type c) (message error) None error
    (ErrorHandler.severity c).

(** The state in which the loop over the targets starts when the
    configuration loaded, the browser started and no webhook was found. *)
Definition readyState (configPath : string) (slackWebhook : option string)
  : State :=
  emit [EvConnect] (emit [EvLaunch]
    (emit [EvLoadConfig configPath] (initialize configPath slackWebhook))).

End RunEvents.

Module Stores.
Import StateManager.

(** The store [σ1] still holds every object of [σ], unchanged. *)
Definition preserves (σ σ1 : gmap loc Entry) : Prop :=
  forall l e, σ !! l = Some e -> σ1 !! l = Some e.

(** What the assignment loop makes of an entry, given the change map. *)
Definition applied (m : gmap string string) (e : Entry) : Entry :=
  match m !! keyOf e with
  | Some v => setCurrentValue e v
  | None => e
  end.

(** The entries of the array [targets], each updated as the specification
    words it. *)
Definition updatedContents (σ : gmap loc Entry) (targets : list loc)
  (changes : list Change) : list (option Entry) :=
  (fun l => updatedEntry σ changes <$> σ !! l) <$> targets.

End Stores.

(** * Further components

    The parts of the sources that the properties of the specification do
    not reach: the statistics of the error handler, the summary and the exit
    code, the validation, reading and writing of the configuration
    ([src/config.js]), the persistence steps of the state manager, the
    connection and the pages of the browser controller, the notifier, the
    levels of the logger and the webhook check of the command line.

    Further conventions.
    - A JavaScript value read from the configuration file is a [Js.Value].
    - [new URL(s)], [JSON.parse] and [path.dirname] are parameters of the
      platform; nothing is assumed about them.
    - An error of a file-system call carries its [code]; the functions that
      look at [error.code] throw a [Fs.Thrown]. The file system answers each
      call as it pleases, depending on the calls made before.
    - The logger of a component takes its level from the environment
      variable LOG_LEVEL; [Object.prototype], from which the table of levels
      inherits, and [JSON.stringify] are parameters of the platform too. *)

(** ** src/error-handler.js: statistics *)

Module ErrorStats.
Import ErrorHandler.

(** The object [getErrorStats] returns. *)
Record Stats := mkStats {
  totalErrors : nat;
  counts : gmap string nat;
  criticalErrors : nat;
  highErrors : nat;
  mediumErrors : nat;
  lowErrors : nat
}.

(** [sessionErrors.filter((e) => e.severity === s).length]. *)
Definition countSeverity (s : ErrorSeverity) (l : list ErrorRecord) : nat :=
  List.length (filter (fun e => severity (categorized e) = s) l).

Definition getErrorStats (st : State) : Stats :=
  mkStats (List.length (sessionErrors st)) (errorCounts st)
    (countSeverity CRITICAL (sessionErrors st))
    (countSeverity HIGH (sessionErrors st))
    (countSeverity MEDIUM (sessionErrors st))
    (countSeverity LOW (sessionErrors st)).

(** The severity that the classifier gives each error type. *)
Definition severityOf (t : ErrorType) : ErrorSeverity :=
  match t with
  | CONFIG_ERROR | CHROME_ERROR | BROWSER_ERROR | PERSISTENCE_ERROR => CRITICAL
  | PAGE_ERROR | TARGET_ERROR | WORKFLOW_ERROR => HIGH
  | EXTRACTION_ERROR | NOTIFICATION_ERROR => MEDIUM
  end.

(** A handler after a series of [handleError] calls. *)
Definition handleAll (calls : list (Err * Context)) (st : State) : State :=
  foldl (fun s call => snd (handleError (fst call) (snd call) s)) st calls.

(** How many of the session errors have type [t]. *)
Definition countType (t : ErrorType) (l : list ErrorRecord) : nat :=
  List.length (filter (fun e => type (categorized e) = t) l).

End ErrorStats.

(** ** detect-change.js: summary and exit code *)

Module Summary.
Import Workflow.

(** The object [getSessionSummary] returns, the duration left out. *)
Record SessionSummary := mkSessionSummary {
  total : nat;
  changes : nat;
  errors : nat;
  success : bool;
  criticalErrors : nat;
  warnings : nat
}.

Definition getSessionSummary (st : State) : SessionSummary :=
  let changes := List.length (filter (fun r => resultHasChanged r = true) (results st)) in
  let errors := List.length (Workflow.errors st) in
  let total := List.length (results st) in
  let errorStats := ErrorStats.getErrorStats (handler st) in
  mkSessionSummary total changes errors (Nat.eqb errors 0)
    (ErrorStats.criticalErrors errorStats)
    (ErrorStats.mediumErrors errorStats + ErrorStats.lowErrors errorStats).

(** The exit code of [main] once the command line is accepted: [execute]
    is awaited; if it returns the code is 1 when the summary counts a
    critical error and 0 otherwise, if it throws the code is 1. *)
Definition exitCode (w : World) (configPath : string)
  (slackWebhook : option string) : nat :=
  match run w configPath slackWebhook with
  | (Ok _, st) => if (0 <? criticalErrors (getSessionSummary st))%nat then 1 else 0
  | (Throw _, _) => 1
  end.

(** What [session.errors] and the handler's [sessionErrors] have in common:
    type, severity and the error itself. *)
Definition sessionView (e : SessionError)
  : ErrorHandler.ErrorType * ErrorHandler.ErrorSeverity * Err :=
  (etype e, eseverity e, edetails e).

Definition handlerView (r : ErrorHandler.ErrorRecord)
  : ErrorHandler.ErrorType * ErrorHandler.ErrorSeverity * Err :=
  (ErrorHandler.type (ErrorHandler.categorized r),
   ErrorHandler.severity (ErrorHandler.categorized r),
   ErrorHandler.originalError r).

(** [session.errors] mirrors the session errors of the workflow's handler. *)
Definition inStep (st : State) : Prop :=
  sessionView <$> Workflow.errors st
  = handlerView <$> ErrorHandler.sessionErrors (handler st).

(** The same world with other answers to the teardown calls. *)
Definition withTeardown (connected running : bool) (d t : Res unit) (w : World)
  : World :=
  mkWorld (loadConfig w) (launch w) (connect w) (createPage w) (pageWorld w)
    (closeWorld w) (sendChangeNotification w) (updateAndPersist w)
    connected d running t.

(** How many of the notification calls for a batch of [n] changes throw. *)
Fixpoint thrownNotifications (w : World) (index n : nat) : nat :=
  match n with
  | 0 => 0
  | S n' =>
      match sendChangeNotification w index with
      | Throw _ => S (thrownNotifications w (S index) n')
      | Ok _ => thrownNotifications w (S index) n'
      end
  end.

(** How many of the notification calls for a batch of [n] changes answer
    [true]. *)
Fixpoint acceptedNotifications (w : World) (index n : nat) : nat :=
  match n with
  | 0 => 0
  | S n' =>
      match sendChangeNotification w index with
      | Ok true => S (acceptedNotifications w (S index) n')
      | _ => acceptedNotifications w (S index) n'
      end
  end.

(** The computation [m] keeps the property [P] of the state. *)
Definition keeps {A} (P : State -> Prop) (m : M A) : Prop :=
  forall st, P st -> P (snd (m st)).

End Summary.

(** ** src/page-monitor.js: the messages of a missing element *)

Module Fetch.
Import Str.

(** The message with which [navigateAndExtract] fails when
    [page.waitForSelector] answers [null]. *)
Definition missingElementMessage (url selector : string) : string :=
  "Page monitoring error for " +:+ dq +:+ url +:+ dq
  +:+ " with selector " +:+ dq +:+ selector +:+ dq
  +:+ ": Failed to wait for selector " +:+ dq +:+ selector +:+ dq
  +:+ ": Element with selector " +:+ dq +:+ selector +:+ dq
  +:+ " not found within 10000ms".

(** The message with which it fails when [page.textContent] answers
    [null]. *)
Definition noTextMessage (url selector : string) : string :=
  "No text content found for selector " +:+ dq +:+ selector +:+ dq
  +:+ " on " +:+ dq +:+ url +:+ dq.

(** How many times the monitor's own handler is called for a failure: a
    validation error is handled where it is raised and again in the
    [catch]. *)
Definition handledTimes (url selector : string) : nat :=
  if truthy url && truthy selector then 1 else 2.

End Fetch.

(** ** One round of monitoring followed by the state update *)

Module Rounds.
Import StateManager.

(** The store that holds the targets of a configuration at the addresses
    0, 1, ... *)
Definition storeOf (targets : list Entry) : gmap loc Entry := map_seq 0 targets.

Definition addresses (targets : list Entry) : list loc :=
  seq 0 (List.length targets).

(** The outcomes of a round in which the pages showed [values], one for
    each target. *)
Definition roundResults (targets : list Entry) (values : list string)
  : list ChangeDetector.ChangeRecord :=
  zip_with ChangeDetector.processEntry targets values.

(** The outcome of the target at address [l], as [updateConfigValues] reads
    it. *)
Definition changeAt (l : loc) (r : ChangeDetector.ChangeRecord) : Change :=
  mkChange (Some l) (ChangeDetector.hasChanged r) (ChangeDetector.newValue r).

(** The batch handed to the state update: the outcomes that changed, each
    with a reference to its target. *)
Definition roundChanges (targets : list Entry) (values : list string)
  : list Change :=
  filter (fun c => hasChanged c = true) (imap changeAt (roundResults targets values)).

End Rounds.

(** ** JavaScript values *)

Module Js.

(** A value as [JSON.parse] yields it, or [undefined]. An object is the
    list of its own properties in the order of [Object.keys]; numbers are
    kept as integers, since only their type and truthiness are looked at. *)
#[warnings="-register-all"] Inductive Value :=
| VUndefined
| VNull
| VBool (b : bool)
| VNumber (z : Z)
| VString (s : string)
| VArray (items : list Value)
| VObject (fields : list (string * Value)).

(** [Array.isArray(v)]. *)
Definition isArray (v : Value) : bool :=
  match v with VArray _ => true | _ => false end.

(** [typeof v === "object"]: objects, arrays and [null]. *)
Definition typeofObject (v : Value) : bool :=
  match v with VNull | VArray _ | VObject _ => true | _ => false end.

(** [typeof v === "string"]. *)
Definition typeofString (v : Value) : bool :=
  match v with VString _ => true | _ => false end.

Definition truthy (v : Value) : bool :=
  match v with
  | VUndefined | VNull => false
  | VBool b => b
  | VNumber z => negb (Z.eqb z 0)
  | VString s => Str.truthy s
  | VArray _ | VObject _ => true
  end.

(** The property [k] of a list of properties. *)
Fixpoint lookupField (fields : list (string * Value)) (k : string) : option Value :=
  match fields with
  | [] => None
  | (k', v) :: rest => if String.eqb k' k then Some v else lookupField rest k
  end.

(** [v.k] for one of the property names the tool asks for ([targets],
    [slack_webhook], [url], [css_selector], [current_value]): none of them
    is a property of an array or of a primitive value. It is not asked of
    [null] or [undefined]. *)
Definition get (v : Value) (k : string) : Value :=
  match v with
  | VObject fields => default VUndefined (lookupField fields k)
  | _ => VUndefined
  end.

(** [k in v] for the same names, asked of objects and arrays only. *)
Definition has (v : Value) (k : string) : bool :=
  match v with
  | VObject fields => bool_decide (is_Some (lookupField fields k))
  | _ => false
  end.

(** [Object.keys(v)]. *)
Definition keys (v : Value) : list string :=
  match v with
  | VObject fields => fst <$> fields
  | VArray items => (fun i : nat => pretty i) <$> seq 0 (List.length items)
  | _ => []
  end.

(** A value known to be a string, as a string. *)
Definition stringOf (v : Value) : string :=
  match v with VString s => s | _ => "" end.

(** [Array.prototype.join]. *)
Definition join (sep : string) (l : list string) : string := String.concat sep l.

(** [String.prototype.endsWith]. *)
Fixpoint endsWith (s suffix : string) : bool :=
  String.eqb s suffix ||
  match s with
  | EmptyString => false
  | String _ s' => endsWith s' suffix
  end.

(** What the tool reads of a parsed [URL]. *)
Record URL := mkURL { protocol : string; hostname : string }.

(** [new URL(s)]: the parsed URL, or the [TypeError] it throws. *)
Definition URLParser := string -> Res URL.

End Js.

(** ** src/config.js *)

Module ConfigurationManager.
Import Str Js.

Definition requiredFields : list string := ["url"; "css_selector"; "current_value"].

(** The loop over the required fields of [validateEntry]. *)
Fixpoint checkFields (entry : Value) (fields : list string) : Res unit :=
  match fields with
  | [] => Ok tt
  | field :: rest =>
      if negb (has entry field) then
        Throw (newError ("Missing required field: " +:+ field))
      else if negb (typeofString (get entry field)) then
        Throw (newError ("Field " +:+ field +:+ " must be a string"))
      else checkFields entry rest
  end.

(** [Object.keys(v).filter((key) => !allowedFields.includes(key))]. *)
Definition extraFields (allowedFields : list string) (v : Value) : list string :=
  List.filter (fun key => negb (existsb (String.eqb key) allowedFields)) (keys v).

Definition validateEntry (newURL : URLParser) (entry : Value) : Res unit :=
  if negb (truthy entry) || negb (typeofObject entry) then
    Throw (newError "Entry must be an object")
  else
    match checkFields entry requiredFields with
    | Throw e => Throw e
    | Ok _ =>
        let url := stringOf (get entry "url") in
        let css_selector := stringOf (get entry "css_selector") in
        match newURL url with
        | Throw _ => Throw (newError ("Invalid URL format: " +:+ url))
        | Ok _ =>
            if Nat.eqb (String.length (trim css_selector)) 0 then
              Throw (newError "CSS selector cannot be empty")
            else
              let extra := extraFields ["url"; "css_selector"; "current_value"] entry in
              if (0 <? List.length extra)%nat then
                Throw (newError ("Unexpected fields found: " +:+ join ", " extra))
              else Ok tt
        end
    end.

(** The first [forEach] of [validateTargetsArray], from position [index]
    on. *)
Fixpoint validateEntries (newURL : URLParser) (index : nat) (entries : list Value)
  : Res unit :=
  match entries with
  | [] => Ok tt
  | entry :: rest =>
      match validateEntry newURL entry with
      | Throw error =>
          Throw (newError ("Invalid target entry at index " +:+ pretty index
                           +:+ ": " +:+ message error))
      | Ok _ => validateEntries newURL (S index) rest
      end
  end.

(** The key of the duplicate check of an entry that passed [validateEntry]:
    [`${entry.url}|${entry.css_selector}`]. *)
Definition keyOf (entry : Value) : string :=
  stringOf (get entry "url") +:+ "|" +:+ stringOf (get entry "css_selector").

(** The second [forEach], with the set [seen]. *)
Fixpoint checkDuplicates (index : nat) (entries : list Value) (seen : gset string)
  : Res unit :=
  match entries with
  | [] => Ok tt
  | entry :: rest =>
      let key := keyOf entry in
      if bool_decide (key ∈ seen) then
        Throw (newError ("Duplicate monitoring target at index " +:+ pretty index
                         +:+ ": " +:+ stringOf (get entry "url")
                         +:+ " with selector "
                         +:+ stringOf (get entry "css_selector")))
      else checkDuplicates (S index) rest ({[ key ]} ∪ seen)
  end.

Definition validateTargetsArray (newURL : URLParser) (targets : Value) : Res unit :=
  match targets with
  | VArray entries =>
      if Nat.eqb (List.length entries) 0 then
        Throw (newError "Targets array cannot be empty")
      else
        match validateEntries newURL 0 entries with
        | Throw e => Throw e
        | Ok _ => checkDuplicates 0 entries ∅
        end
  | _ => Throw (newError "Targets must be an array")
  end.

(** The [try] block around the webhook URL in [validateConfigObject]. *)
Definition checkWebhookUrl (newURL : URLParser) (slack_webhook : string) : Res unit :=
  match newURL slack_webhook with
  | Throw e => Throw e
  | Ok url =>
      if negb (String.eqb (protocol url) "https:") then
        Throw (newError "slack_webhook must be an HTTPS URL")
      else if negb (includes (hostname url) "slack.com") then
        Throw (newError "slack_webhook must be a valid Slack webhook URL")
      else Ok tt
  end.

(** The check of the optional [slack_webhook] field. *)
Definition validateWebhook (newURL : URLParser) (slack_webhook : Value) : Res unit :=
  match slack_webhook with
  | VUndefined => Ok tt
  | VString hook =>
      if Nat.eqb (String.length (trim hook)) 0 then
        Throw (newError "slack_webhook cannot be empty")
      else
        match checkWebhookUrl newURL hook with
        | Throw urlError =>
            Throw (newError ("Invalid slack_webhook URL: " +:+ message urlError))
        | Ok _ => Ok tt
        end
  | _ => Throw (newError "slack_webhook must be a string")
  end.

Definition validateConfigObject (newURL : URLParser) (config : Value) : Res unit :=
  if negb (truthy (get config "targets")) || negb (isArray (get config "targets"))
  then Throw (newError "Configuration object must have a 'targets' array")
  else
    match validateTargetsArray newURL (get config "targets") with
    | Throw e => Throw e
    | Ok _ =>
        match validateWebhook newURL (get config "slack_webhook") with
        | Throw e => Throw e
        | Ok _ =>
            let extra := extraFields ["targets"; "slack_webhook"] config in
            if (0 <? List.length extra)%nat then
              Throw (newError ("Unexpected configuration fields: "
                               +:+ join ", " extra))
            else Ok tt
        end
    end.

Definition validateConfig (newURL : URLParser) (config : Value) : Res unit :=
  if isArray config then validateTargetsArray newURL config
  else if truthy config && typeofObject config then
    validateConfigObject newURL config
  else
    Throw (newError ("Configuration must be an array of monitoring targets "
                     +:+ "or an object with targets")).

Definition normalizeConfig (config : Value) : Value :=
  if isArray config then
    VObject [("targets", config); ("slack_webhook", VUndefined)]
  else config.

(** [config.targets || []]. *)
Definition getTargets (config : Value) : Value :=
  if truthy (get config "targets") then get config "targets" else VArray [].

Definition getSlackWebhook (config : Value) : Value := get config "slack_webhook".

End ConfigurationManager.

(** ** src/cli.js: the webhook check of the command line *)

Module CLIController.
Import Js.

Definition isValidWebhookUrl (newURL : URLParser) (url : string) : bool :=
  match newURL url with
  | Throw _ => false
  | Ok parsedUrl =>
      String.eqb (protocol parsedUrl) "https:" &&
      (String.eqb (hostname parsedUrl) "hooks.slack.com" ||
       endsWith (hostname parsedUrl) ".slack.com")
  end.

End CLIController.

(** ** Configurations as the workflow reads them *)

Module Configs.
Import Js.

(** An entry object as the record of its three fields. *)
Definition toEntry (v : Value) : option Entry :=
  match get v "url", get v "css_selector", get v "current_value" with
  | VString u, VString c, VString x => Some (mkEntry u c x)
  | _, _, _ => None
  end.

Definition toTargets (v : Value) : option (list Entry) :=
  match v with
  | VArray entries => mapM toEntry entries
  | _ => None
  end.

(** A normalized configuration as [execute] reads it through [getTargets]
    and [getSlackWebhook]. *)
Definition toConfig (config : Value) : option Workflow.Config :=
  targets ← toTargets (ConfigurationManager.getTargets config);
  match ConfigurationManager.getSlackWebhook config with
  | VUndefined => Some (Workflow.mkConfig targets None)
  | VString hook => Some (Workflow.mkConfig targets (Some hook))
  | _ => None
  end.

(** An entry that [validateEntry] accepts: an object with the three
    fields, each a string, and no other; the URL parses and the selector is
    not blank. *)
Definition wellFormed (newURL : URLParser) (v : Value) : Prop :=
  exists fields u c x,
    v = VObject fields /\
    get v "url" = VString u /\ get v "css_selector" = VString c /\
    get v "current_value" = VString x /\
    Forall (fun k => k ∈ ["url"; "css_selector"; "current_value"]) (keys v) /\
    (exists parsed, newURL u = Ok parsed) /\ Str.trim c <> "".

(** A webhook that [validateConfigObject] accepts. *)
Definition goodWebhook (newURL : URLParser) (hook : string) : Prop :=
  Str.trim hook <> "" /\
  exists parsed,
    newURL hook = Ok parsed /\ protocol parsed = "https:" /\
    Str.includes (hostname parsed) "slack.com" = true.

(** The position of the first entry that [validateEntry] rejects. *)
Fixpoint firstInvalid (newURL : URLParser) (entries : list Value) : option nat :=
  match entries with
  | [] => None
  | entry :: rest =>
      match ConfigurationManager.validateEntry newURL entry with
      | Throw _ => Some 0
      | Ok _ => S <$> firstInvalid newURL rest
      end
  end.

End Configs.

(** ** Sample configurations *)

Module ConfigSamples.
Import Js.

(** A URL parser for the samples: it accepts what starts with [https://]
    and reads it as a URL of the Slack webhook host. *)
Definition parser : URLParser :=
  fun s =>
    if Str.startsWith "https://" s then Ok (mkURL "https:" "hooks.slack.com")
    else Throw (mkErr "TypeError" "Invalid URL").

Definition entry (url css_selector current_value : string) : Value :=
  VObject [("url", VString url); ("css_selector", VString css_selector);
           ("current_value", VString current_value)].

Definition twoTargets : Value :=
  VArray [entry "https://example.com/p1" "#price" "$19.99";
          entry "https://example.com/p2" ".title" "Name"].

End ConfigSamples.

(** ** The file system *)

Module Fs.

(** An error of a file-system call: its [code] (["ENOENT"], ["EACCES"],
    ["ENOSPC"], ...) and the error. *)
Record SystemError := mkSystemError { code : string; error : Err }.

(** What is caught where [error.code] is looked at: the error of a
    file-system call, or an error without a code. *)
Inductive Thrown :=
| System (e : SystemError)
| Plain (e : Err).

Definition errorOf (t : Thrown) : Err :=
  match t with System e => error e | Plain e => e end.

(** [error.code === c]. *)
Definition codeIs (t : Thrown) (c : string) : bool :=
  match t with System e => String.eqb (code e) c | Plain _ => false end.

Inductive Mode := R_OK | W_OK | F_OK.

(** The calls made on the file system. For [WriteFile] the text written is
    [JSON.stringify(config, null, 2)]. *)
Inductive Call :=
| Access (path : string) (mode : Mode)
| ReadFile (path : string)
| WriteFile (path : string) (config : Js.Value).

(** What the platform answers. The answer of the file system to a call may
    depend on the calls made before it ([history]), since files change. *)
Record World := mkWorld {
  dirname : string -> string;
  jsonParse : string -> Res Js.Value;
  newURL : Js.URLParser;
  access : list Call -> string -> Mode -> option SystemError;
  readFile : list Call -> string -> SystemError + string;
  writeFile : list Call -> string -> Js.Value -> option SystemError
}.

(** The calls made so far, the error handler of the [ConfigurationManager]
    and that of the [StateManager] that owns it. *)
Record State := mkState {
  calls : list Call;
  configHandler : ErrorHandler.State;
  stateHandler : ErrorHandler.State
}.

Definition initial : State := mkState [] ErrorHandler.initial ErrorHandler.initial.

Inductive Outcome (A : Type) : Type :=
| Returned (a : A)
| Raised (t : Thrown).
Arguments Returned {A} a.
Arguments Raised {A} t.

Definition M (A : Type) : Type := State -> Outcome A * State.

Definition ret {A} (a : A) : M A := fun st => (Returned a, st).

Definition raise {A} (t : Thrown) : M A := fun st => (Raised t, st).

Definition bind {A B} (m : M A) (k : A -> M B) : M B :=
  fun st =>
    match m st with
    | (Returned a, st1) => k a st1
    | (Raised t, st1) => (Raised t, st1)
    end.

Definition tryCatch {A} (m : M A) (h : Thrown -> M A) : M A :=
  fun st =>
    match m st with
    | (Returned a, st1) => (Returned a, st1)
    | (Raised t, st1) => h t st1
    end.

(** The outcome of code that throws errors without a code. *)
Definition lift {A} (r : Res A) : M A :=
  match r with Ok a => ret a | Throw e => raise (Plain e) end.

Definition record (c : Call) (st : State) : State :=
  mkState (calls st ++ [c]) (configHandler st) (stateHandler st).

Definition fsAccess (w : World) (path : string) (mode : Mode) : M unit :=
  fun st =>
    (match access w (calls st) path mode with
     | None => Returned tt
     | Some e => Raised (System e)
     end, record (Access path mode) st).

Definition fsReadFile (w : World) (path : string) : M string :=
  fun st =>
    (match readFile w (calls st) path with
     | inr content => Returned content
     | inl e => Raised (System e)
     end, record (ReadFile path) st).

Definition fsWriteFile (w : World) (path : string) (config : Js.Value) : M unit :=
  fun st =>
    (match writeFile w (calls st) path config with
     | None => Returned tt
     | Some e => Raised (System e)
     end, record (WriteFile path config) st).

(** [handleError] on the handler of the [ConfigurationManager]. *)
Definition handleConfig (error : Err) (context : ErrorHandler.Context) : M unit :=
  fun st =>
    (Returned tt,
     mkState (calls st)
       (snd (ErrorHandler.handleError error context (configHandler st)))
       (stateHandler st)).

(** [handleError] on the handler of the [StateManager]. *)
Definition handleState (error : Err) (context : ErrorHandler.Context) : M unit :=
  fun st =>
    (Returned tt,
     mkState (calls st) (configHandler st)
       (snd (ErrorHandler.handleError error context (stateHandler st)))).

Declare Scope fs_scope.
Notation "'do' x <- m ; k" := (bind m (fun x => k))
  (at level 10, x name, m at level 100, k at level 200) : fs_scope.
Notation "'exec' m ; k" := (bind m (fun _ => k))
  (at level 10, m at level 100, k at level 200) : fs_scope.

End Fs.

(** ** src/config.js: reading and writing the file *)

Module ConfigurationFiles.
Import Str Js Fs ConfigurationManager.
Local Open Scope fs_scope.

Definition loadContext : ErrorHandler.Context := ErrorHandler.mkContext "config" "load".
Definition saveContext : ErrorHandler.Context := ErrorHandler.mkContext "config" "save".

(** The [try] block of [loadConfig]. *)
Definition loadConfigBody (w : World) (filePath : string) : M Value :=
  exec fsAccess w filePath R_OK ;
  do fileContent <- fsReadFile w filePath ;
  do config <-
    match jsonParse w fileContent with
    | Ok config => ret config
    | Throw parseError =>
        raise (Plain (newError ("Invalid JSON format in " +:+ filePath +:+ ": "
                                +:+ message parseError)))
    end ;
  exec lift (validateConfig (newURL w) config) ;
  ret (normalizeConfig config).

(** The [catch] block of [loadConfig]. *)
Definition loadConfigCatch {A} (filePath : string) (error : Thrown) : M A :=
  if codeIs error "ENOENT" then
    let configError :=
      newError ("Configuration file not found: " +:+ filePath) in
    exec handleConfig configError loadContext ;
    raise (Plain configError)
  else if codeIs error "EACCES" then
    let configError :=
      newError ("Permission denied reading configuration file: "
                +:+ filePath) in
    exec handleConfig configError loadContext ;
    raise (Plain configError)
  else
    exec handleConfig (errorOf error) loadContext ;
    raise error.

Definition loadConfig (w : World) (filePath : string) : M Value :=
  tryCatch (loadConfigBody w filePath) (loadConfigCatch filePath).

(** The [try] block of [saveConfig]. *)
Definition saveConfigBody (w : World) (filePath : string) (config : Value) : M unit :=
  exec lift (validateConfig (newURL w) config) ;
  let dir := dirname w filePath in
  exec fsAccess w dir W_OK ;
  fsWriteFile w filePath config.

(** The [catch] block of [saveConfig]. *)
Definition saveConfigCatch {A} (filePath : string) (error : Thrown) : M A :=
  if codeIs error "EACCES" then
    let configError :=
      newError ("Permission denied writing to configuration file: "
                +:+ filePath) in
    exec handleConfig configError saveContext ;
    raise (Plain configError)
  else if codeIs error "ENOSPC" then
    let configError :=
      newError ("No space left on device when writing: " +:+ filePath) in
    exec handleConfig configError saveContext ;
    raise (Plain configError)
  else
    exec handleConfig (errorOf error) saveContext ;
    raise error.

Definition saveConfig (w : World) (filePath : string) (config : Value) : M unit :=
  tryCatch (saveConfigBody w filePath config) (saveConfigCatch filePath).

End ConfigurationFiles.

(** ** src/state-manager.js: persistence *)

Module StatePersistence.
Import Str Js Fs ConfigurationFiles.
Local Open Scope fs_scope.

(** The first inner [try] of [validateWritePermissions]. *)
Definition checkDirectory (w : World) (dir : string) : M unit :=
  tryCatch (fsAccess w dir W_OK)
    (fun dirError =>
       if codeIs dirError "ENOENT" then
         raise (Plain (newError ("Directory does not exist: " +:+ dir)))
       else if codeIs dirError "EACCES" then
         raise (Plain (newError ("No write permission for directory: " +:+ dir)))
       else raise dirError).

(** The second inner [try]: its [catch] also receives what the innermost
    [catch] throws. *)
Definition checkFile (w : World) (filePath : string) : M unit :=
  tryCatch
    (exec fsAccess w filePath F_OK ;
     tryCatch (fsAccess w filePath W_OK)
       (fun fileError =>
          if codeIs fileError "EACCES" then
            raise (Plain (newError ("No write permission for file: " +:+ filePath)))
          else raise fileError))
    (fun fileError =>
       if codeIs fileError "ENOENT" then ret tt else raise fileError).

(** The [catch] blocks of the [StateManager]: the error is wrapped, handed
    to the error handler and thrown. *)
Definition rethrow {A} (prefix operation : string) (error : Thrown) : M A :=
  let wrapped := newError (prefix +:+ message (errorOf error)) in
  exec handleState wrapped (ErrorHandler.mkContext "persistence" operation) ;
  raise (Plain wrapped).

Definition validateWritePermissions (w : World) (filePath : string) : M unit :=
  tryCatch
    (let dir := dirname w filePath in
     exec checkDirectory w dir ;
     checkFile w filePath)
    (rethrow "Write permission validation failed: " "validateWritePermissions").

Definition persistConfig (w : World) (filePath : string) (updatedConfig : Value)
  : M unit :=
  tryCatch
    (exec validateWritePermissions w filePath ;
     saveConfig w filePath updatedConfig)
    (rethrow "Failed to persist configuration: " "persistConfig").

(** The property [k] of an object set to [x]: an own property keeps its
    place, a new one goes last. *)
Fixpoint setField (fields : list (string * Value)) (k : string) (x : Value)
  : list (string * Value) :=
  match fields with
  | [] => [(k, x)]
  | (k', v) :: rest =>
      if String.eqb k' k then (k', x) :: rest else (k', v) :: setField rest k x
  end.

(** [{ ...originalConfig, targets: updatedTargets }]; [originalConfig] is
    what [loadConfig] returned, an object. *)
Definition withTargets (originalConfig updatedTargets : Value) : Value :=
  match originalConfig with
  | VObject fields => VObject (setField fields "targets" updatedTargets)
  | _ => VObject [("targets", updatedTargets)]
  end.

(** [updateAndPersist(filePath, targets, changes)], where [updatedTargets]
    is the array that [updateConfigValues(targets, changes)] returned. *)
Definition updateAndPersist (w : World) (filePath : string) (updatedTargets : Value)
  : M Value :=
  tryCatch
    (do originalConfig <- loadConfig w filePath ;
     let updatedConfig := withTargets originalConfig updatedTargets in
     exec persistConfig w filePath updatedConfig ;
     ret updatedTargets)
    (rethrow "Failed to update and persist configuration: " "updateAndPersist").

End StatePersistence.

(** ** Vocabulary for the calls on the file system *)

Module FileCalls.
Import Fs.

(** The call answered with an error of code [c]. *)
Definition failsWith (a : option SystemError) (c : string) : bool :=
  match a with Some e => String.eqb (code e) c | None => false end.

(** What was written, in order: path and configuration. *)
Definition written (cs : list Call) : list (string * Js.Value) :=
  omap (fun c => match c with WriteFile p v => Some (p, v) | _ => None end) cs.

(** The three probes of [validateWritePermissions]. *)
Definition probes (dir filePath : string) : list Call :=
  [Access dir W_OK; Access filePath F_OK; Access filePath W_OK].

(** The answer of [loadConfig] as the workflow receives it. *)
Definition answers (o : Outcome Js.Value) (r : Res Workflow.Config) : Prop :=
  match o, r with
  | Returned v, Ok c => Configs.toConfig v = Some c
  | Raised t, Throw e => e = errorOf t
  | _, _ => False
  end.

(** The record a handler keeps of an error handled in [context]. *)
Definition recordOf (context : ErrorHandler.Context) (e : Err)
  : ErrorHandler.ErrorRecord :=
  ErrorHandler.mkErrorRecord (ErrorHandler.categorizeError e context) context e.

End FileCalls.

(** ** Sample file systems *)

Module FileSamples.
Import Fs.

(** A platform on which every access is answered with [a], the file holds
    [content], which parses to [parsed], and writing succeeds. *)
Definition fsWorld (a : option SystemError) (content : string)
  (parsed : Res Js.Value) : World :=
  mkWorld (fun _ => ".") (fun _ => parsed) ConfigSamples.parser
    (fun _ _ _ => a) (fun _ _ => inr content) (fun _ _ _ => None).

Definition noEntry : SystemError :=
  mkSystemError "ENOENT"
    (mkErr "Error" "ENOENT: no such file or directory, access 'input.json'").

(** A workflow world whose configuration cannot be loaded. *)
Definition failingLoad (e : Err) : Workflow.World :=
  Workflow.mkWorld (Throw e) (Ok "ws://127.0.0.1:9222") (Ok tt)
    (fun i => Ok i) (fun _ => Samples.okPage "x")
    (fun _ => BrowserController.mkCloseWorld (Ok false) (Ok tt))
    (fun _ => Ok true) (Ok tt) false (Ok tt) false (Ok tt).

End FileSamples.

(** ** src/browser-controller.js: connection and pages *)

Module BrowserLifecycle.
Import Str.

(** The calls made on Playwright. *)
Inductive Call :=
| ConnectOverCDP (debugUrl : string)
| NewContext
| NewPage
| PageClose (page : Page)
| ContextClose
| BrowserClose.

(** What Playwright answers. The answer to [context.newPage()] may depend
    on the calls made before it. *)
Record World := mkWorld {
  connectOverCDP : Res unit;
  newContext : Res unit;
  newPage : list Call -> Res Page;
  closeWorld : Page -> BrowserController.CloseWorld;
  contextClose : Res unit;
  browserClose : Res unit
}.

(** The fields of a [BrowserController]: whether [browser] and [context]
    are set, the flag [isConnected], the tracked pages with the warnings
    logged, the controller's error handler, and the calls made so far.
    The handlers that [connect] and [createPage] register for the events
    [disconnected] and [close] run when the browser or a page goes away on
    its own; they and the two time limits set on a new page are left out. *)
Record State := mkState {
  browser : bool;
  context : bool;
  isConnected : bool;
  tracking : BrowserController.State;
  handler : ErrorHandler.State;
  calls : list Call
}.

Definition initial : State :=
  mkState false false false (BrowserController.mkState ∅ []) ErrorHandler.initial [].

Definition handle (error : Err) (operation : string) (st : State) : State :=
  mkState (browser st) (context st) (isConnected st) (tracking st)
    (snd (ErrorHandler.handleError error
            (ErrorHandler.mkContext "browser" operation) (handler st)))
    (calls st).

Definition called (c : Call) (st : State) : State :=
  mkState (browser st) (context st) (isConnected st) (tracking st) (handler st)
    (calls st ++ [c]).

Definition setConnected (b : bool) (st : State) : State :=
  mkState (browser st) (context st) b (tracking st) (handler st) (calls st).

Definition setBrowser (b : bool) (st : State) : State :=
  mkState b (context st) (isConnected st) (tracking st) (handler st) (calls st).

Definition setContext (b : bool) (st : State) : State :=
  mkState (browser st) b (isConnected st) (tracking st) (handler st) (calls st).

Definition setTracking (t : BrowserController.State) (st : State) : State :=
  mkState (browser st) (context st) (isConnected st) t (handler st) (calls st).

(** The [try] block of [connect]. *)
Definition connectBody (w : World) (debugUrl : string) (st : State)
  : Res unit * State :=
  if isConnected st then
    let connectionError := newError "Browser is already connected" in
    (Throw connectionError, handle connectionError "connect" st)
  else
    let st1 := called (ConnectOverCDP debugUrl) st in
    match connectOverCDP w with
    | Throw e => (Throw e, st1)
    | Ok _ =>
        let st2 := called NewContext (setBrowser true st1) in
        match newContext w with
        | Throw e => (Throw e, st2)
        | Ok _ => (Ok tt, setConnected true (setContext true st2))
        end
    end.

Definition connect (w : World) (debugUrl : string) (st : State)
  : Res unit * State :=
  match connectBody w debugUrl st with
  | (Ok u, st1) => (Ok u, st1)
  | (Throw error, st1) =>
      let browserError :=
        newError ("Failed to connect to Chrome: " +:+ message error) in
      (Throw browserError, handle browserError "connect" (setConnected false st1))
  end.

(** The [try] block of [createPage]. *)
Definition createPageBody (w : World) (st : State) : Res Page * State :=
  if negb (isConnected st) || negb (context st) then
    let pageError := newError "Browser is not connected. Call connect() first." in
    (Throw pageError, handle pageError "createPage" st)
  else
    let st1 := called NewPage st in
    match newPage w (calls st) with
    | Throw e => (Throw e, st1)
    | Ok page =>
        (Ok page,
         setTracking
           (BrowserController.mkState
              ({[ page ]} ∪ BrowserController.pages (tracking st1))
              (BrowserController.warned (tracking st1))) st1)
    end.

Definition createPage (w : World) (st : State) : Res Page * State :=
  match createPageBody w st with
  | (Ok page, st1) => (Ok page, st1)
  | (Throw error, st1) =>
      let pageError := newError ("Failed to create page: " +:+ message error) in
      (Throw pageError, handle pageError "createPage" st1)
  end.

(** The calls that a release of [page] made. *)
Definition closeCalls (evs : list Event) : list Call :=
  omap (fun ev => match ev with EvPageClose p => Some (PageClose p) | _ => None end)
    evs.

(** [closePage(page)] on the controller. *)
Definition closePage (w : World) (page : Page) (st : State) : State :=
  let '(_, t, evs) :=
    BrowserController.closePage (closeWorld w page) (Some page) (tracking st) in
  mkState (browser st) (context st) (isConnected st) t (handler st)
    (calls st ++ closeCalls evs).

(** [closeAllPages()]: every tracked page is released, each release
    catching its own failure, then the set is cleared. [elements] lists the
    set in an order of its own, JavaScript in the order of insertion; the
    releases are taken one after the other in that order. *)
Definition closeAllPages (w : World) (st : State) : State :=
  let st1 :=
    foldl (fun s page => closePage w page s) st
      (elements (BrowserController.pages (tracking st))) in
  setTracking
    (BrowserController.mkState ∅ (BrowserController.warned (tracking st1))) st1.

(** The [try] block of [disconnect]. *)
Definition disconnectBody (w : World) (st : State) : Res unit * State :=
  let st1 := closeAllPages w st in
  let closed :=
    if context st1 then
      match contextClose w with
      | Throw e => (Throw e, called ContextClose st1)
      | Ok _ => (Ok tt, setContext false (called ContextClose st1))
      end
    else (Ok tt, st1) in
  match closed with
  | (Throw e, st2) => (Throw e, st2)
  | (Ok _, st2) =>
      if browser st2 && isConnected st2 then
        match browserClose w with
        | Throw e => (Throw e, called BrowserClose st2)
        | Ok _ => (Ok tt, setConnected false (setBrowser false (called BrowserClose st2)))
        end
      else (Ok tt, setConnected false st2)
  end.

Definition disconnect (w : World) (st : State) : Res unit * State :=
  match disconnectBody w st with
  | (Ok u, st1) => (Ok u, st1)
  | (Throw error, st1) =>
      (Throw (newError ("Failed to disconnect from browser: " +:+ message error)),
       mkState false false false
         (BrowserController.mkState ∅ (BrowserController.warned (tracking st1)))
         (handler st1) (calls st1))
  end.

Definition isConnectedToBrowser (st : State) : bool :=
  isConnected st && browser st && context st.

Definition getOpenPageCount (st : State) : nat :=
  size (BrowserController.pages (tracking st)).

End BrowserLifecycle.

(** ** src/logger.js: levels *)

Module Logger.

(** The own properties of [this.logLevels]. *)
Definition logLevels (level : string) : option nat :=
  if String.eqb level "ERROR" then Some 0
  else if String.eqb level "WARN" then Some 1
  else if String.eqb level "INFO" then Some 2
  else if String.eqb level "DEBUG" then Some 3
  else None.

(** [Object.prototype] as ECMAScript defines it, from which [logLevels]
    inherits: its properties are functions ([constructor], [toString], ...)
    and, under [__proto__], the prototype itself. For the name of one of
    them a [Prototype] gives the string that the property turns into when a
    comparison converts it to a primitive: the source text of the function,
    or ["[object Object]"]. Such a string is no numeral. *)
Definition Prototype : Type := string -> option string.

(** [this.logLevels[name]]: the number of an own property, a property
    inherited from the prototype, or [undefined]. *)
Inductive Level :=
| Own (n : nat)
| Inherited (primitive : string)
| Missing.

Definition lookup (proto : Prototype) (name : string) : Level :=
  match logLevels name with
  | Some n => Own n
  | None =>
      match proto name with
      | Some primitive => Inherited primitive
      | None => Missing
      end
  end.

(** [s <= t] on strings: [t] does not come before [s] in the order of their
    code units (for the source text of a function, of its bytes). *)
Fixpoint stringLe (s t : string) : bool :=
  match s, t with
  | EmptyString, _ => true
  | String _ _, EmptyString => false
  | String a s', String b t' =>
      if (nat_of_ascii a <? nat_of_ascii b)%nat then true
      else if Ascii.eqb a b then stringLe s' t'
      else false
  end.

(** [a <= b] on what [lookup] gives: two numbers are compared as numbers
    and two inherited properties as strings; [undefined], and an inherited
    property next to a number, turn into NaN, and the comparison is
    false. *)
Definition lessEq (a b : Level) : bool :=
  match a, b with
  | Own m, Own n => (m <=? n)%nat
  | Inherited s, Inherited t => stringLe s t
  | _, _ => false
  end.

(** The level the constructor sets: [process.env.LOG_LEVEL || "INFO"]. *)
Definition initialLevel (env : option string) : string :=
  match env with
  | Some level => if Str.truthy level then level else "INFO"
  | None => "INFO"
  end.

(** [setLogLevel(level)]: the new value of [this.logLevel]. *)
Definition setLogLevel (level logLevel : string) : string :=
  if bool_decide (is_Some (logLevels level)) then level else logLevel.

(** [shouldLog(level)]: [logLevels[level] <= logLevels[this.logLevel]]. *)
Definition shouldLog (proto : Prototype) (logLevel level : string) : bool :=
  lessEq (lookup proto level) (lookup proto logLevel).

(** [error(message, context)] as its caller sees it. When the level ERROR is
    let through, [formatMessage] hands a context that has a property to
    [JSON.stringify], and what that throws leaves [error]; nothing else in
    it throws. [json] is what [JSON.stringify(context)] answers, [None] for
    a context without property. *)
Definition error (proto : Prototype) (logLevel : string)
  (json : option (Res string)) : Res unit :=
  if shouldLog proto logLevel "ERROR" then
    match json with
    | Some (Throw e) => Throw e
    | _ => Ok tt
    end
  else Ok tt.

End Logger.

Module LoggerSamples.

(** The source text of a function of the platform, as Node prints it. *)
Definition native (name : string) : string :=
  "function " +:+ name +:+ "() { [native code] }".

(** Some of the properties of [Object.prototype] in Node. *)
Definition nodePrototype : Logger.Prototype :=
  fun name =>
    if String.eqb name "constructor" then Some (native "Object")
    else if String.eqb name "toString" then Some (native "toString")
    else if String.eqb name "valueOf" then Some (native "valueOf")
    else if String.eqb name "hasOwnProperty" then Some (native "hasOwnProperty")
    else if String.eqb name "__proto__" then Some "[object Object]"
    else None.

End LoggerSamples.

(** ** src/slack-notifier.js *)

Module SlackNotifier.
Import Str.

(** How [axios.post] fails: with an HTTP response (its status and its data
    as a string), without a response after the request was sent, or
    otherwise (the message of the error). In the first two cases the
    notifier hands a context to its logger, [{status, data}] and
    [{request: error.request}]; [json] is what [JSON.stringify] answers for
    it: a string, or the [TypeError] it throws for an object that refers to
    itself. *)
Inductive AxiosError :=
| HttpError (status : nat) (data : string) (json : Res string)
| NetworkError (json : Res string)
| OtherError (message : string).

(** What the POST gives: a failure, or the status of a response that axios
    accepts. *)
Definition Answer : Type := AxiosError + nat.

(** The notifier's error handler and the change records posted so far. The
    text of the message does not influence what the notifier does next and
    is not modelled. *)
Record State := mkState {
  handler : ErrorHandler.State;
  posts : list ChangeDetector.ChangeRecord
}.

(** [logger.error(...); throw error]: the error is thrown unless the call
    of the logger throws first. *)
Definition logThenThrow {A} (logged : Res unit) (error : Err) : Res A :=
  match logged with
  | Throw e => Throw e
  | Ok _ => Throw error
  end.

(** [sendWebhook(message)], for a notifier whose logger has the level
    [logLevel]. *)
Definition sendWebhook (proto : Logger.Prototype) (logLevel : string)
  (answer : Answer) : Res bool :=
  match answer with
  | inr status => Ok (Nat.eqb status 200)
  | inl (HttpError status data json) =>
      let httpError :=
        newError ("Slack webhook failed with status " +:+ pretty status
                  +:+ ": " +:+ data) in
      logThenThrow (Logger.error proto logLevel (Some json)) httpError
  | inl (NetworkError json) =>
      let networkError := newError "Network error sending Slack webhook" in
      logThenThrow (Logger.error proto logLevel (Some json)) networkError
  | inl (OtherError m) =>
      let webhookError := newError ("Slack webhook error: " +:+ m) in
      logThenThrow (Logger.error proto logLevel None) webhookError
  end.

Definition notificationContext : ErrorHandler.Context :=
  ErrorHandler.mkContext "notification" "sendChangeNotification".

(** [sendChangeNotification(changeRecord)] for a change record of the
    workflow, which [formatMessage] accepts: it returns a boolean, since
    everything after the test of the webhook is inside the [try]. The other
    calls of the logger are given no context or a context of strings, and do
    not throw. *)
Definition sendChangeNotification (proto : Logger.Prototype) (logLevel : string)
  (webhookUrl : option string) (answer : Answer)
  (changeRecord : ChangeDetector.ChangeRecord) (st : State) : bool * State :=
  if negb (Workflow.truthyOpt webhookUrl) then (false, st)
  else
    let st1 := mkState (handler st) (posts st ++ [changeRecord]) in
    match sendWebhook proto logLevel answer with
    | Ok success => (success, st1)
    | Throw error =>
        (false,
         mkState (snd (ErrorHandler.handleError error notificationContext
                         (handler st1)))
           (posts st1))
    end.

End SlackNotifier.

(** ** What the notifier reports *)

Module Notifications.
Import SlackNotifier.

(** The error [sendWebhook] words for a failure of the POST. *)
Definition worded (failure : AxiosError) : Err :=
  match failure with
  | HttpError status data _ =>
      newError ("Slack webhook failed with status " +:+ pretty status
                +:+ ": " +:+ data)
  | NetworkError _ => newError "Network error sending Slack webhook"
  | OtherError m => newError ("Slack webhook error: " +:+ m)
  end.

(** The error with which the logger fails when it is told of the failure:
    LOG_LEVEL names a level, or is not set, and [JSON.stringify] throws for
    the context. *)
Definition logFailure (logLevel : string) (failure : AxiosError) : option Err :=
  match failure with
  | HttpError _ _ (Throw e) | NetworkError (Throw e) =>
      if bool_decide (is_Some (Logger.logLevels logLevel)) then Some e else None
  | _ => None
  end.

(** The error the notifier's error handler is given for a failure of the
    POST: that of the logger if it fails, else the error worded for the
    failure. *)
Definition handled (logLevel : string) (failure : AxiosError) : Err :=
  default (worded failure) (logFailure logLevel failure).


End Notifications.

(** * Properties *)

(** ** Facts about strings *)

Module StrFacts.
Import Str.

Lemma startsWith_sep (p s b : string) (c : ascii) :
  hasChar c p = false ->
  startsWith p (s +:+ String c b) = startsWith p s.
Proof.
  revert s. induction p as [|a p IH]; intros s Hc; [done|].
  simpl in Hc. apply orb_false_iff in Hc as [Hac Hp].
  destruct s as [|x s]; simpl.
  - by rewrite Hac.
  - destruct (Ascii.eqb a x); [by apply IH|done].
Qed.

Lemma startsWith_nil_r (p : string) :
  startsWith p EmptyString = negb (truthy p).
Proof. by destruct p. Qed.

Lemma includes_nonempty (s p : string) :
  truthy p = false -> includes s p = true.
Proof. destruct p; [|done]. by destruct s. Qed.

(** A pattern that does not hold the separator [c] occurs in [s c b] only
    inside [s] or inside [b]. *)
Lemma includes_sep (s b p : string) (c : ascii) :
  hasChar c p = false ->
  includes (s +:+ String c b) p = includes s p || includes b p.
Proof.
  intros Hc. induction s as [|x s IH].
  - destruct p as [|a p].
    + simpl. by destruct b.
    + simpl in Hc. apply orb_false_iff in Hc as [Hac _].
      simpl. by rewrite Hac.
  - change (String x s +:+ String c b) with (String x (s +:+ String c b)).
    cbn [includes]. rewrite IH.
    change (String x (s +:+ String c b)) with (String x s +:+ String c b).
    rewrite startsWith_sep by done. by rewrite orb_assoc.
Qed.

(** The same with the double quote of the message templates. *)
Lemma includes_dq (s b p : string) :
  hasChar (ascii_of_nat 34) p = false ->
  includes (s +:+ dq +:+ b) p = includes s p || includes b p.
Proof. intros Hc. by apply (includes_sep s b p). Qed.

Lemma orElse_truthy (a b : string) : truthy a = true -> orElse a b = a.
Proof. unfold orElse. by intros ->. Qed.

Lemma includes_truthy (s p : string) :
  truthy p = true -> includes s p = true -> truthy s = true.
Proof. destruct s; [|done]. by destruct p. Qed.

End StrFacts.

(** ** Trimming *)

Module TrimFacts.
Import Str.

(** Decide the test at the head of the goal. *)
Ltac test E :=
  match goal with
  | |- (if ?b then _ else _) = _ -> _ => destruct b eqn:E
  | |- (if ?b then _ else _) = _ => destruct b eqn:E
  | |- _ = (if ?b then _ else _) => destruct b eqn:E
  end.

Ltac test_ :=
  match goal with
  | |- (if ?b then _ else _) = _ -> _ => destruct b
  | |- (if ?b then _ else _) = _ => destruct b
  | |- _ = (if ?b then _ else _) => destruct b
  end.

Lemma append_cons (c : ascii) (a b : string) :
  String c a +:+ b = String c (a +:+ b).
Proof. reflexivity. Qed.

Lemma append_nil (b : string) : "" +:+ b = b.
Proof. reflexivity. Qed.

Lemma trimStart_cons (a : ascii) (s1 : string) :
  trimStart (String a s1) =
    if isWhiteSpace (String a EmptyString) then trimStart s1
    else match s1 with
         | EmptyString => String a s1
         | String b s2 =>
             if isWhiteSpace (String a (String b EmptyString)) then trimStart s2
             else match s2 with
                  | EmptyString => String a s1
                  | String c s3 =>
                      if isWhiteSpace (String a (String b (String c EmptyString)))
                      then trimStart s3 else String a s1
                  end
         end.
Proof. reflexivity. Qed.

Lemma trimStart_unfold (s : string) :
  trimStart s = match leadingWhiteSpace s with Some r => trimStart r | None => s end.
Proof.
  destruct s as [|a s1]; [done|]. rewrite trimStart_cons. unfold leadingWhiteSpace.
  destruct (isWhiteSpace _); [done|]. destruct s1 as [|b s2]; [done|].
  destruct (isWhiteSpace _); [done|]. destruct s2 as [|c s3]; [done|].
  by destruct (isWhiteSpace _).
Qed.

Lemma leadingWhiteSpace_shorter (s r : string) :
  leadingWhiteSpace s = Some r -> String.length r < String.length s.
Proof.
  destruct s as [|a [|b [|c s]]]; cbn [leadingWhiteSpace]; try done.
  - test_; [|done]. intros [= <-]. cbn. lia.
  - test_; [intros [= <-]; cbn; lia|].
    test_; [|done]. intros [= <-]. cbn. lia.
  - test_; [intros [= <-]; cbn; lia|].
    test_; [intros [= <-]; cbn; lia|].
    test_; [|done]. intros [= <-]. cbn. lia.
Qed.

Lemma string_length_ind (P : string -> Prop) :
  (forall s, (forall r, String.length r < String.length s -> P r) -> P s) ->
  forall s, P s.
Proof.
  intros H s. remember (String.length s) as n eqn:Hn.
  revert s Hn. induction n as [n IH] using lt_wf_ind. intros s ->.
  apply H. intros r Hr. by apply (IH (String.length r)).
Qed.

(** What [trimStart] leaves does not start with white space. *)
Lemma trimStart_clean (s : string) : leadingWhiteSpace (trimStart s) = None.
Proof.
  induction s as [s IH] using string_length_ind.
  rewrite trimStart_unfold. destruct (leadingWhiteSpace s) as [r|] eqn:E; [|done].
  apply IH. by apply leadingWhiteSpace_shorter.
Qed.

Lemma trimStart_id (s : string) : leadingWhiteSpace s = None -> trimStart s = s.
Proof. intros H. by rewrite trimStart_unfold, H. Qed.

Lemma isWhiteSpace_elem (w : string) : isWhiteSpace w = true <-> w ∈ whiteSpace.
Proof.
  unfold isWhiteSpace. rewrite existsb_exists. split.
  - intros (x & Hin & Heq). apply String.eqb_eq in Heq. subst. by apply list_elem_of_In.
  - intros Hin. exists w. split; [by apply list_elem_of_In|apply String.eqb_refl].
Qed.


(** Case analysis over the table of white space. *)
Ltac each_whiteSpace H :=
  unfold whiteSpace in H;
  repeat (apply elem_of_cons in H as [H|H]); [..|by apply elem_of_nil in H].

Lemma leadingWhiteSpace_app (w y : string) :
  w ∈ whiteSpace -> leadingWhiteSpace (w +:+ y) = Some y.
Proof. intros H. each_whiteSpace H; subst w; reflexivity. Qed.

Lemma leadingWhiteSpace_inv (s r : string) :
  leadingWhiteSpace s = Some r -> exists w, w ∈ whiteSpace /\ s = w +:+ r.
Proof.
  destruct s as [|a [|b [|c s]]]; cbn [leadingWhiteSpace]; try done.
  - test E; [|done]. intros [= <-].
    apply isWhiteSpace_elem in E. by exists (String a "").
  - test E1.
    { intros [= <-]. apply isWhiteSpace_elem in E1. by exists (String a ""). }
    test E2; [|done]. intros [= <-].
    apply isWhiteSpace_elem in E2. by exists (String a (String b "")).
  - test E1.
    { intros [= <-]. apply isWhiteSpace_elem in E1. by exists (String a ""). }
    test E2.
    { intros [= <-]. apply isWhiteSpace_elem in E2.
      by exists (String a (String b "")). }
    test E3; [|done]. intros [= <-].
    apply isWhiteSpace_elem in E3. by exists (String a (String b (String c ""))).
Qed.

Lemma leadingWhiteSpace_mono (x y z : string) :
  leadingWhiteSpace x = Some y -> leadingWhiteSpace (x +:+ z) = Some (y +:+ z).
Proof.
  destruct x as [|a [|b [|c x]]]; rewrite ?append_cons, ?append_nil;
    cbn [leadingWhiteSpace]; try done.
  - test_; [|done]. by intros [= <-].
  - test_; [by intros [= <-]|].
    test_; [|done]. by intros [= <-].
  - test_; [by intros [= <-]|].
    test_; [by intros [= <-]|].
    test_; [|done]. by intros [= <-].
Qed.

Lemma concat_cons (w : string) (l : list string) :
  concat (w :: l) = w +:+ concat l.
Proof.
  unfold concat. destruct l as [|v l]; cbn [String.concat].
  - induction w as [|c w IH]; [done|]. rewrite append_cons. by rewrite <- IH.
  - done.
Qed.

Lemma app_assoc_s (a b c : string) : (a +:+ b) +:+ c = a +:+ b +:+ c.
Proof. induction a as [|x a IH]; [done|]. rewrite !append_cons. by rewrite IH. Qed.

Lemma app_nil_r_s (a : string) : a +:+ "" = a.
Proof. induction a as [|x a IH]; [done|]. rewrite !append_cons. by rewrite IH. Qed.

Lemma trimStart_app (l : list string) (y : string) :
  Forall (fun w => w ∈ whiteSpace) l -> trimStart (concat l +:+ y) = trimStart y.
Proof.
  induction 1 as [|w l Hw _ IH]; [done|].
  rewrite concat_cons, app_assoc_s, trimStart_unfold.
  by rewrite (leadingWhiteSpace_app w _ Hw).
Qed.

Lemma trimStart_split (s : string) :
  exists l, Forall (fun w => w ∈ whiteSpace) l /\ s = concat l +:+ trimStart s.
Proof.
  induction s as [s IH] using string_length_ind.
  rewrite trimStart_unfold. destruct (leadingWhiteSpace s) as [r|] eqn:E.
  - destruct (leadingWhiteSpace_inv _ _ E) as (w & Hw & ->).
    destruct (IH r (leadingWhiteSpace_shorter _ _ E)) as (l & Hl & Hr).
    exists (w :: l). split; [by constructor|].
    by rewrite concat_cons, app_assoc_s, <- Hr.
  - by exists [].
Qed.

Lemma trimEnd_whiteSpace (w : string) : w ∈ whiteSpace -> trimEnd w = "".
Proof. intros H. each_whiteSpace H; subst w; reflexivity. Qed.

Lemma trimEnd_app1 (x w : string) :
  w ∈ whiteSpace -> trimEnd (x +:+ w) = trimEnd x.
Proof.
  intros Hw. induction x as [|c x IH]; [by apply trimEnd_whiteSpace|].
  rewrite append_cons. cbn [trimEnd]. by rewrite IH.
Qed.

Lemma trimEnd_app (x : string) (l : list string) :
  Forall (fun w => w ∈ whiteSpace) l -> trimEnd (x +:+ concat l) = trimEnd x.
Proof.
  intros Hl. revert x. induction Hl as [|w l Hw _ IH]; intros x.
  - by rewrite app_nil_r_s.
  - by rewrite concat_cons, <- app_assoc_s, IH, trimEnd_app1.
Qed.

Lemma trimEnd_split (s : string) :
  exists l, Forall (fun w => w ∈ whiteSpace) l /\ s = trimEnd s +:+ concat l.
Proof.
  induction s as [|c s (l & Hl & Hs)]; [by exists []|].
  cbn [trimEnd]. destruct (isWhiteSpace (String c (trimEnd s))) eqn:E.
  - apply isWhiteSpace_elem in E. exists (String c (trimEnd s) :: l).
    split; [by constructor|]. rewrite concat_cons, append_cons. by rewrite <- Hs.
  - exists l. split; [done|]. rewrite append_cons. by rewrite <- Hs.
Qed.

Lemma trimEnd_idem (s : string) : trimEnd (trimEnd s) = trimEnd s.
Proof.
  induction s as [|c s IH]; [done|]. cbn [trimEnd].
  destruct (isWhiteSpace (String c (trimEnd s))) eqn:E; [done|].
  cbn [trimEnd]. by rewrite IH, E.
Qed.

Lemma trimEnd_clean_start (s : string) :
  leadingWhiteSpace s = None -> leadingWhiteSpace (trimEnd s) = None.
Proof.
  intros Hs. destruct (leadingWhiteSpace (trimEnd s)) as [y|] eqn:E; [|done].
  destruct (trimEnd_split s) as (l & _ & Heq).
  apply (leadingWhiteSpace_mono _ _ (concat l)) in E.
  rewrite <- Heq in E. congruence.
Qed.

Lemma trim_idem (s : string) : trim (trim s) = trim s.
Proof.
  unfold trim.
  rewrite (trimStart_id (trimEnd (trimStart s)))
    by apply trimEnd_clean_start, trimStart_clean.
  apply trimEnd_idem.
Qed.

Lemma whiteSpace_head (w : string) (b : ascii) (r : string) :
  w ∈ whiteSpace -> w = String b r -> continues b = false.
Proof.
  intros H. each_whiteSpace H; subst w; intros Heq; vm_compute in Heq;
    by injection Heq as <- _.
Qed.

Lemma whiteSpace_second (a b : ascii) (r : string) :
  String a (String b r) ∈ whiteSpace -> continues b = true.
Proof.
  intros H. each_whiteSpace H; vm_compute in H; inversion H; by subst.
Qed.

Lemma whiteSpace_third (a b c : ascii) (r : string) :
  String a (String b (String c r)) ∈ whiteSpace -> continues c = true.
Proof.
  intros H. each_whiteSpace H; vm_compute in H; inversion H; by subst.
Qed.

Lemma whiteSpace_nonempty (w : string) : w ∈ whiteSpace -> w <> "".
Proof. intros H. each_whiteSpace H; by subst w. Qed.

Lemma concat_head (l : list string) (b : ascii) (r : string) :
  Forall (fun w => w ∈ whiteSpace) l -> concat l = String b r ->
  continues b = false.
Proof.
  intros Hl. destruct Hl as [|w l Hw Hl]; [done|].
  rewrite concat_cons. destruct w as [|c v].
  { by apply whiteSpace_nonempty in Hw. }
  rewrite append_cons. intros [= -> _]. by eapply whiteSpace_head.
Qed.

(** White space after a string that does not start with white space and is
    not empty does not make it start with white space. *)
Lemma leadingWhiteSpace_pad (c : string) (l : list string) :
  leadingWhiteSpace c = None -> c <> "" ->
  Forall (fun w => w ∈ whiteSpace) l ->
  leadingWhiteSpace (c +:+ concat l) = None.
Proof.
  intros Hc Hne Hl.
  destruct (concat l) as [|x R] eqn:ER; [by rewrite app_nil_r_s|].
  pose proof (concat_head l x R Hl ER) as Hx.
  destruct c as [|a [|b [|d c]]]; [done|..]; revert Hc;
    rewrite ?append_cons, ?append_nil; cbn [leadingWhiteSpace].
  - test_; [done|]. intros _.
    test E2.
    { apply isWhiteSpace_elem, whiteSpace_second in E2. congruence. }
    destruct R as [|y R]; [done|].
    test E3; [|done].
    apply isWhiteSpace_elem, whiteSpace_second in E3. congruence.
  - test_; [done|].
    test_; [done|]. intros _.
    test E3; [|done].
    apply isWhiteSpace_elem, whiteSpace_third in E3. congruence.
  - by repeat test_.
Qed.

Lemma trimStart_white (l : list string) :
  Forall (fun w => w ∈ whiteSpace) l -> trimStart (concat l) = "".
Proof.
  intros Hl. rewrite <- (app_nil_r_s (concat l)). by rewrite trimStart_app.
Qed.

(** White space around a string does not change what [trim] leaves. *)
Lemma trim_pad (l r : list string) (s : string) :
  Forall (fun w => w ∈ whiteSpace) l -> Forall (fun w => w ∈ whiteSpace) r ->
  trim (concat l +:+ s +:+ concat r) = trim s.
Proof.
  intros Hl Hr. unfold trim. rewrite trimStart_app by done.
  destruct (trimStart_split s) as (l' & Hl' & Hs).
  rewrite Hs at 1. rewrite app_assoc_s, trimStart_app by done.
  destruct (trimStart s) as [|a c] eqn:Ec.
  - rewrite append_nil. by rewrite trimStart_white.
  - rewrite trimStart_id.
    + by apply trimEnd_app.
    + apply leadingWhiteSpace_pad; [|done|done].
      rewrite <- Ec. apply trimStart_clean.
Qed.

Lemma trimEnd_length (s : string) : String.length (trimEnd s) <= String.length s.
Proof.
  induction s as [|c s IH]; [done|]. cbn [trimEnd].
  destruct (isWhiteSpace (String c (trimEnd s))); cbn; lia.
Qed.

Lemma length_app_s (a b : string) :
  String.length (a +:+ b) = String.length a + String.length b.
Proof.
  induction a as [|x a IH]; [done|]. rewrite append_cons.
  cbn [String.length]. by rewrite IH.
Qed.

(** What [trimEnd] leaves does not end with white space. *)
Lemma trimEnd_clean (s x w : string) : w ∈ whiteSpace -> trimEnd s <> x +:+ w.
Proof.
  intros Hw Heq.
  pose proof (trimEnd_idem s) as Hi. rewrite Heq, trimEnd_app1 in Hi by done.
  pose proof (trimEnd_length x) as Hlen. rewrite Hi, length_app_s in Hlen.
  apply whiteSpace_nonempty in Hw. destruct w; [done|]. cbn in Hlen. lia.
Qed.

(** [trim s] is [s] without the white space at its two ends. *)
Lemma trim_spec (s : string) :
  (exists l r,
      Forall (fun w => w ∈ whiteSpace) l /\ Forall (fun w => w ∈ whiteSpace) r /\
      s = concat l +:+ trim s +:+ concat r) /\
  (forall w x, w ∈ whiteSpace -> trim s <> w +:+ x) /\
  (forall w x, w ∈ whiteSpace -> trim s <> x +:+ w).
Proof.
  split; [|split].
  - destruct (trimStart_split s) as (l & Hl & Hs).
    destruct (trimEnd_split (trimStart s)) as (r & Hr & Ht).
    exists l, r. split; [done|]. split; [done|]. unfold trim. by rewrite <- Ht.
  - intros w x Hw Heq.
    pose proof (trimEnd_clean_start _ (trimStart_clean s)) as Hc.
    fold (trim s) in Hc. rewrite Heq in Hc.
    by rewrite leadingWhiteSpace_app in Hc.
  - intros w x Hw. by apply trimEnd_clean.
Qed.

End TrimFacts.

(** ** The error classifier *)

Module ErrorHandlerFacts.
Import Str ErrorHandler.

(** C8, as stated, fails: a persistence failure for lack of disk space is
    classified CRITICAL and carries no suggestion at all, so nothing is shown
    for it. *)
Lemma suggestions_may_be_empty :
  let c := categorizeError Samples.noSpaceError (mkContext "persistence" "updateAndPersist") in
  type c = PERSISTENCE_ERROR /\ severity c = CRITICAL /\
  suggestions c = [] /\ shownSuggestions c = [].
Proof. vm_compute. done. Qed.

Lemma showSuggestions_nil (l : list string) : showSuggestions l = [] <-> l = [].
Proof. destruct l; simpl; split; congruence. Qed.

(** C8, amended: [categorizeError] gives every error a list of suggestions;
    the list is empty exactly for a Chrome error whose message names neither
    the port nor the launch, an extraction error whose message does not
    name the selector, and a persistence error whose message names neither
    a permission nor ENOSPC; [handleError] logs the error line and then shows
    the suggestions exactly when the severity is HIGH or CRITICAL and the
    list is not empty. *)
Theorem suggestions_characterised (error : Err) (ctx : Context) (st : State) :
  let c := categorizeError error ctx in
  let m := orElse (message error) "Unknown error" in
  (suggestions c = [] <->
     (type c = CHROME_ERROR /\ includes m "port" = false /\
      includes m "launch" = false) \/
     (type c = EXTRACTION_ERROR /\ includes m "selector" = false) \/
     (type c = PERSISTENCE_ERROR /\ includes m "permission" = false /\
      includes m "ENOSPC" = false)) /\
  (shownSuggestions c <> [] <->
     (severity c = HIGH \/ severity c = CRITICAL) /\ suggestions c <> []) /\
  fst (handleError error ctx st) = c /\
  logged (snd (handleError error ctx st)) =
    (logged st ++ severityLine c :: shownSuggestions c)%list.
Proof.
  intros c m. split; [|split; [|done]].
  - subst c. unfold categorizeError. fold m.
    destruct (isConfigError m ctx) eqn:Hcfg.
    { simpl. split; [done|]. intros [[? _]|[[? _]|[? _]]]; done. }
    destruct (isChromeError m) eqn:Hchr.
    { simpl. unfold getChromeErrorSuggestions.
      destruct (includes m "port"), (includes m "launch"); simpl;
        split; try done; try (intros [(_ & ? & ?)|[[? _]|[? _]]]; done).
      intros _. by left. }
    destruct (isBrowserError m) eqn:Hbr.
    { simpl. split; [done|]. intros [[? _]|[[? _]|[? _]]]; done. }
    destruct (isPageError m) eqn:Hpg.
    { simpl. split; [done|].
      intros [[? _]|[[? _]|[? _]]]; by destruct (String.eqb _ _). }
    destruct (isExtractionError m) eqn:Hex.
    { simpl. unfold getExtractionErrorSuggestions.
      assert (includes m "timeout" = false) as ->.
      { unfold isPageError in Hpg. by destruct (includes m "timeout");
          destruct (includes m "Navigation"). }
      destruct (includes m "selector"); simpl;
        split; try done; try (intros [[? _]|[(_ & ?)|[? _]]]; done).
      intros _. right. by left. }
    destruct (isNotificationError m) eqn:Hnt.
    { simpl. split; [done|]. intros [[? _]|[[? _]|[? _]]]; done. }
    destruct (isPersistenceError m) eqn:Hps.
    { simpl. unfold getPersistenceErrorSuggestions.
      destruct (includes m "permission"), (includes m "ENOSPC"); simpl;
        split; try done; try (intros [[? _]|[[? _]|(_ & ? & ?)]]; done).
      intros _. right. by right. }
    simpl. split; [done|]. intros [[? _]|[[? _]|[? _]]]; done.
  - unfold shownSuggestions.
    destruct (severity c); rewrite ?showSuggestions_nil; split; try tauto;
      try (intros [[?|?] _]; done); intros ?; split; auto.
Qed.

End ErrorHandlerFacts.

(** ** Timeouts of the fetch step and their classification *)

Module RoutingFacts.
Import Str ErrorHandler PageMonitor Routing StrFacts.

(** C6, as stated, fails: for a URL that holds the word "load" the selector
    timeout is classified like the navigation timeout, as a page-navigation
    failure of HIGH severity. *)
Lemma selector_timeout_misrouted :
  let ctx := mkContext "target" "processMonitoringTarget" in
  let url := "https://example.com/downloads" in
  exists navE selE,
    fst (navigateAndExtract Samples.navigationTimeoutPage url "#price" initial)
      = Throw navE /\
    fst (navigateAndExtract Samples.selectorTimeoutPage url "#price" initial)
      = Throw selE /\
    category (categorizeError selE ctx) = category (categorizeError navE ctx) /\
    type (categorizeError selE ctx) = type (categorizeError navE ctx) /\
    severity (categorizeError selE ctx) = HIGH /\
    category (categorizeError selE ctx) = "Page Navigation".
Proof. eexists _, _. vm_compute. done. Qed.

Lemma plain_includes (s p : string) :
  plain s = true -> In p triggers -> includes s p = false.
Proof.
  unfold plain. rewrite forallb_forall. intros H Hin.
  specialize (H p Hin). by apply negb_true_iff in H.
Qed.

Lemma pretty_defaultTimeout : pretty defaultTimeout = "10000".
Proof. by vm_compute. Qed.

(** Membership in the list of triggers, by inspection. *)
Ltac in_triggers := cbv [triggers In]; tauto.

(** Decide whether a trigger occurs in a message made of literal pieces and
    of a URL and a selector that are [plain]. *)
Ltac occurs Hu Hs :=
  rewrite ?includes_dq by reflexivity;
  rewrite ?(plain_includes _ _ Hu) by in_triggers;
  rewrite ?(plain_includes _ _ Hs) by in_triggers;
  reflexivity.

Lemma handleNavigationError_generic (error : Err) (url selector : string) :
  String.eqb (name error) "TimeoutError" = false ->
  truthy (message error) = true ->
  includes (message error) "net::ERR_" = false ->
  includes (message error) "Invalid CSS selector" = false ->
  includes (message error) "No text content found" = false ->
  handleNavigationError error url selector =
    newError ("Page monitoring error for " +:+ dq +:+ url +:+ dq
              +:+ " with selector " +:+ dq +:+ selector +:+ dq +:+ ": "
              +:+ message error).
Proof.
  intros Hn Ht H1 H2 H3. unfold handleNavigationError.
  rewrite Hn, (orElse_truthy _ _ Ht), H1, H2, H3. done.
Qed.

Lemma selector_timeout_thrown (pw : PageWorld) (url selector : string)
  (e : Err) (st : State) :
  truthy url = true -> truthy selector = true -> plain selector = true ->
  goto pw = Ok tt -> pageWaitForSelector pw = Throw e ->
  name e = "TimeoutError" ->
  fst (navigateAndExtract pw url selector st)
    = Throw (newError (selectorTimeoutMessage url selector)).
Proof.
  intros Hu Hs Hp Hg Hw Hn.
  unfold navigateAndExtract, navigateAndExtractBody, waitForSelector,
    waitForSelectorBody.
  rewrite Hu, Hs, Hg. simpl. rewrite Hw, Hn. simpl.
  rewrite pretty_defaultTimeout.
  rewrite handleNavigationError_generic; [done|done|done|..];
    cbn [message newError]; occurs Hp Hp.
Qed.

Lemma categorize_page (error : Err) (ctx : Context) :
  let m := orElse (message error) "Unknown error" in
  isConfigError m ctx = false -> isChromeError m = false ->
  isBrowserError m = false -> isPageError m = true ->
  categorizeError error ctx =
    mkCategorized
      (if String.eqb (operation ctx) "processMonitoringTarget"
       then TARGET_ERROR else PAGE_ERROR)
      HIGH "Page Navigation" (getPageErrorMessage m) m
      (getPageErrorSuggestions m).
Proof. intros m H1 H2 H3 H4. unfold categorizeError. fold m. by rewrite H1, H2, H3, H4. Qed.

Lemma categorize_extraction (error : Err) (ctx : Context) :
  let m := orElse (message error) "Unknown error" in
  isConfigError m ctx = false -> isChromeError m = false ->
  isBrowserError m = false -> isPageError m = false ->
  isExtractionError m = true ->
  categorizeError error ctx =
    mkCategorized EXTRACTION_ERROR MEDIUM "Element Extraction"
      (getExtractionErrorMessage m) m (getExtractionErrorSuggestions m).
Proof.
  intros m H1 H2 H3 H4 H5. unfold categorizeError. fold m.
  by rewrite H1, H2, H3, H4, H5.
Qed.

Lemma navigation_timeout_classified (url : string) (ctx : Context) :
  plain url = true ->
  let c := categorizeError (newError (navigationTimeoutMessage url)) ctx in
  type c = (if String.eqb (operation ctx) "processMonitoringTarget"
            then TARGET_ERROR else PAGE_ERROR) /\
  severity c = HIGH /\ category c = "Page Navigation".
Proof.
  intros Hu c. subst c. rewrite categorize_page; [done|..];
    cbn [message newError]; rewrite orElse_truthy by reflexivity;
    unfold navigationTimeoutMessage.
  - unfold isConfigError.
    replace (includes _ "Configuration") with false by (symmetry; occurs Hu Hu).
    replace (includes _ "Invalid JSON") with false by (symmetry; occurs Hu Hu).
    replace (includes _ "Missing required field") with false
      by (symmetry; occurs Hu Hu).
    replace (includes _ "Config load failed") with false
      by (symmetry; occurs Hu Hu).
    replace (includes _ "not found") with false by (symmetry; occurs Hu Hu).
    done.
  - unfold isChromeError.
    replace (includes _ "Chrome") with false by (symmetry; occurs Hu Hu).
    done.
  - unfold isBrowserError.
    replace (includes _ "connect") with false by (symmetry; occurs Hu Hu).
    replace (includes _ "CDP") with false by (symmetry; occurs Hu Hu).
    replace (includes _ "browser") with false by (symmetry; occurs Hu Hu).
    done.
  - unfold isPageError.
    replace (includes _ "Navigation") with true by (symmetry; occurs Hu Hu).
    done.
Qed.

Lemma selector_timeout_classified (url selector : string) (ctx : Context) :
  plain url = true -> plain selector = true ->
  let c := categorizeError (newError (selectorTimeoutMessage url selector)) ctx in
  type c = EXTRACTION_ERROR /\ severity c = MEDIUM /\
  category c = "Element Extraction".
Proof.
  intros Hu Hs c. subst c. rewrite categorize_extraction; [done|..];
    cbn [message newError]; rewrite orElse_truthy by reflexivity;
    unfold selectorTimeoutMessage.
  - unfold isConfigError.
    replace (includes _ "Configuration") with false by (symmetry; occurs Hu Hs).
    replace (includes _ "Invalid JSON") with false by (symmetry; occurs Hu Hs).
    replace (includes _ "Missing required field") with false
      by (symmetry; occurs Hu Hs).
    replace (includes _ "Config load failed") with false
      by (symmetry; occurs Hu Hs).
    replace (includes _ "not found") with false by (symmetry; occurs Hu Hs).
    done.
  - unfold isChromeError.
    replace (includes _ "Chrome") with false by (symmetry; occurs Hu Hs).
    done.
  - unfold isBrowserError.
    replace (includes _ "connect") with false by (symmetry; occurs Hu Hs).
    replace (includes _ "CDP") with false by (symmetry; occurs Hu Hs).
    replace (includes _ "browser") with false by (symmetry; occurs Hu Hs).
    done.
  - unfold isPageError.
    replace (includes _ "Navigation") with false by (symmetry; occurs Hu Hs).
    replace (includes _ "timeout") with false by (symmetry; occurs Hu Hs).
    replace (includes _ "net::ERR") with false by (symmetry; occurs Hu Hs).
    replace (includes _ "load") with false by (symmetry; occurs Hu Hs).
    done.
  - unfold isExtractionError.
    rewrite !includes_dq by reflexivity.
    change (includes " with selector " "selector") with true.
    by rewrite !orb_true_r.
Qed.

(** The message [handleNavigationError] words for a [TimeoutError] that
    names the selector wait holds the word "timeout" and is classified as a
    page-navigation failure. [navigateAndExtract] does not produce it for a
    selector wait, because [waitForSelector] rewraps the timeout in a plain
    error first. *)
Lemma element_timeout_message_classified_as_navigation :
  let e := handleNavigationError (mkErr "TimeoutError" "waiting for selector timeout")
             "https://example.com" "#selector" in
  let c := categorizeError e (mkContext "target" "processMonitoringTarget") in
  includes (message e) "Element timeout" = true /\
  category c = "Page Navigation" /\ severity c = HIGH.
Proof. by vm_compute. Qed.

(** The error with which [navigateAndExtract] fails when the navigation
    fails. *)
Lemma goto_failure_thrown (pw : PageWorld) (url selector : string)
  (e : Err) (st : State) :
  truthy url = true -> truthy selector = true -> goto pw = Throw e ->
  fst (navigateAndExtract pw url selector st)
    = Throw (handleNavigationError e url selector).
Proof.
  intros Hu Hs Hg. unfold navigateAndExtract, navigateAndExtractBody.
  by rewrite Hu, Hs, Hg.
Qed.

(** The three messages of [handleNavigationError] for a [TimeoutError]. *)
Lemma handleNavigationError_timeout (e : Err) (url selector : string) :
  name e = "TimeoutError" ->
  let m := orElse (message e) "Unknown error" in
  handleNavigationError e url selector =
    if includes m "Navigation timeout" then newError (navigationTimeoutMessage url)
    else if includes m "waiting for selector" then
      newError ("Element timeout: Selector " +:+ dq +:+ selector +:+ dq
                +:+ " not found on " +:+ dq +:+ url +:+ dq
                +:+ " within timeout period")
    else newError ("Timeout error on " +:+ dq +:+ url +:+ dq +:+ ": " +:+ m).
Proof. intros Hn m. unfold handleNavigationError. by rewrite Hn. Qed.

Lemma unmarked_includes (s p : string) :
  unmarked s = true -> In p earlier -> includes s p = false.
Proof.
  unfold unmarked. rewrite forallb_forall. intros H Hin.
  specialize (H p Hin). by apply negb_true_iff in H.
Qed.

Ltac in_earlier := cbv [earlier In]; tauto.

(** In the message of a timeout that names neither the navigation nor the
    selector, the words of the rules up to the page-navigation rule occur
    only inside the message of the browser. *)
Lemma timeout_error_includes (url m p : string) :
  plain url = true -> In p triggers ->
  includes ("Timeout error on " +:+ dq +:+ url +:+ dq +:+ ": " +:+ m) p
  = includes m p.
Proof.
  intros Hu Hin. cbv [triggers In] in Hin.
  repeat destruct Hin as [<-|Hin]; try done;
    rewrite !includes_dq by reflexivity;
    rewrite (plain_includes _ _ Hu) by in_triggers; reflexivity.
Qed.

Lemma timeout_error_classified (url m : string) (ctx : Context) :
  plain url = true -> unmarked m = true ->
  let c := categorizeError
             (newError ("Timeout error on " +:+ dq +:+ url +:+ dq +:+ ": " +:+ m))
             ctx in
  if isPageError m then pageNavigation ctx c
  else category c <> "Page Navigation" /\ type c <> PAGE_ERROR /\
       type c <> TARGET_ERROR.
Proof.
  intros Hu Hm c. subst c. unfold categorizeError. cbn [message newError].
  rewrite orElse_truthy by reflexivity.
  set (M := "Timeout error on " +:+ dq +:+ url +:+ dq +:+ ": " +:+ m).
  assert (isConfigError M ctx = false) as ->.
  { unfold isConfigError, M. rewrite !timeout_error_includes by (done || in_triggers).
    by rewrite !(unmarked_includes m) by (done || in_earlier). }
  assert (isChromeError M = false) as ->.
  { unfold isChromeError, M. rewrite timeout_error_includes by (done || in_triggers).
    by rewrite (unmarked_includes m) by (done || in_earlier). }
  assert (isBrowserError M = false) as ->.
  { unfold isBrowserError, M. rewrite !timeout_error_includes by (done || in_triggers).
    by rewrite !(unmarked_includes m) by (done || in_earlier). }
  assert (isPageError M = isPageError m) as ->.
  { unfold isPageError, M. by rewrite !timeout_error_includes by (done || in_triggers). }
  destruct (isPageError m); [done|].
  destruct (isExtractionError M); [done|].
  destruct (isNotificationError M); [done|].
  by destruct (isPersistenceError M).
Qed.

(** The message [handleNavigationError] words for a [TimeoutError] that
    names the selector wait is classified as a page-navigation failure
    outside the configuration context. *)
Lemma element_timeout_classified (url selector : string) (ctx : Context) :
  plain url = true -> plain selector = true -> ctype ctx <> "config" ->
  pageNavigation ctx
    (categorizeError
       (newError ("Element timeout: Selector " +:+ dq +:+ selector +:+ dq
                  +:+ " not found on " +:+ dq +:+ url +:+ dq
                  +:+ " within timeout period")) ctx).
Proof.
  intros Hu Hs Hc. apply String.eqb_neq in Hc.
  rewrite categorize_page; [done|..];
    cbn [message newError]; rewrite orElse_truthy by reflexivity.
  - unfold isConfigError. rewrite Hc, andb_false_r.
    replace (includes _ "Configuration") with false by (symmetry; occurs Hu Hs).
    replace (includes _ "Invalid JSON") with false by (symmetry; occurs Hu Hs).
    replace (includes _ "Missing required field") with false
      by (symmetry; occurs Hu Hs).
    replace (includes _ "Config load failed") with false
      by (symmetry; occurs Hu Hs).
    done.
  - unfold isChromeError.
    replace (includes _ "Chrome") with false by (symmetry; occurs Hu Hs).
    done.
  - unfold isBrowserError.
    replace (includes _ "connect") with false by (symmetry; occurs Hu Hs).
    replace (includes _ "CDP") with false by (symmetry; occurs Hu Hs).
    replace (includes _ "browser") with false by (symmetry; occurs Hu Hs).
    done.
  - unfold isPageError.
    replace (includes _ "timeout") with true by (symmetry; occurs Hu Hs).
    by rewrite orb_true_r.
Qed.

(** A navigation timeout whose message names none of the words the
    classifier looks for is a general failure for it. *)
Lemma goto_timeout_general :
  exists navE,
    fst (navigateAndExtract Samples.gotoTimeoutPage "https://example.com"
           "#price" initial) = Throw navE /\
    message navE = "Timeout error on " +:+ dq +:+ "https://example.com" +:+ dq
                   +:+ ": page.goto: Timeout 30000ms exceeded." /\
    type (categorizeError navE Workflow.targetContext) = WORKFLOW_ERROR /\
    severity (categorizeError navE Workflow.targetContext) = HIGH /\
    category (categorizeError navE Workflow.targetContext) = "General".
Proof. eexists. by vm_compute. Qed.

End RoutingFacts.

(** C6, amended: for a non-empty URL and selector that hold none of the
    substrings the classifier and [handleNavigationError] look for, a
    navigation timeout and a selector timeout leave the fetch step with
    different messages, whatever the browser words its timeouts, and the
    selector timeout is classified as an element-extraction failure of
    MEDIUM severity. The navigation timeout is classified as a
    page-navigation failure of HIGH severity (type TARGET_ERROR in the
    per-target loop, PAGE_ERROR elsewhere) when the message of the browser
    holds "Navigation timeout"; when it holds "waiting for selector"
    instead, outside the configuration context; and otherwise, for a message
    without the words of the configuration, Chrome and browser-connection
    rules, exactly when that message holds one of the words of the
    page-navigation rule: if it holds none, the navigation timeout is not
    classified as a page-navigation failure. *)
Theorem timeouts_routed_apart
  (pwNav pwSel : PageMonitor.PageWorld) (url selector : string)
  (navErr selErr : Err) (st : ErrorHandler.State) (ctx : ErrorHandler.Context) :
  Str.truthy url = true -> Str.truthy selector = true ->
  Routing.plain url = true -> Routing.plain selector = true ->
  PageMonitor.goto pwNav = Throw navErr -> name navErr = "TimeoutError" ->
  PageMonitor.goto pwSel = Ok tt ->
  PageMonitor.pageWaitForSelector pwSel = Throw selErr ->
  name selErr = "TimeoutError" ->
  let m := Str.orElse (message navErr) "Unknown error" in
  exists navE selE,
    fst (PageMonitor.navigateAndExtract pwNav url selector st) = Throw navE /\
    fst (PageMonitor.navigateAndExtract pwSel url selector st) = Throw selE /\
    message navE <> message selE /\
    Routing.elementExtraction (ErrorHandler.categorizeError selE ctx) /\
    (Str.includes m "Navigation timeout" = true ->
     Routing.pageNavigation ctx (ErrorHandler.categorizeError navE ctx)) /\
    (Str.includes m "Navigation timeout" = false ->
     Str.includes m "waiting for selector" = true ->
     ErrorHandler.ctype ctx <> "config" ->
     Routing.pageNavigation ctx (ErrorHandler.categorizeError navE ctx)) /\
    (Str.includes m "Navigation timeout" = false ->
     Str.includes m "waiting for selector" = false ->
     Routing.unmarked m = true ->
     if ErrorHandler.isPageError m
     then Routing.pageNavigation ctx (ErrorHandler.categorizeError navE ctx)
     else ErrorHandler.category (ErrorHandler.categorizeError navE ctx)
            <> "Page Navigation" /\
          ErrorHandler.type (ErrorHandler.categorizeError navE ctx)
            <> ErrorHandler.PAGE_ERROR /\
          ErrorHandler.type (ErrorHandler.categorizeError navE ctx)
            <> ErrorHandler.TARGET_ERROR).
Proof.
  intros Hu Hs Hpu Hps Hg1 Hn1 Hg2 Hw2 Hn2 m.
  exists (PageMonitor.handleNavigationError navErr url selector),
    (newError (Routing.selectorTimeoutMessage url selector)).
  split; [by apply RoutingFacts.goto_failure_thrown|].
  split; [by eapply RoutingFacts.selector_timeout_thrown|].
  rewrite (RoutingFacts.handleNavigationError_timeout navErr url selector Hn1).
  fold m.
  split.
  { destruct (Str.includes m "Navigation timeout"); [done|].
    by destruct (Str.includes m "waiting for selector"). }
  split.
  { destruct (RoutingFacts.selector_timeout_classified url selector ctx Hpu Hps)
      as (?&?&?). done. }
  split.
  { intros ->.
    destruct (RoutingFacts.navigation_timeout_classified url ctx Hpu) as (?&?&?).
    done. }
  split.
  { intros -> -> Hc. by apply RoutingFacts.element_timeout_classified. }
  intros -> -> Hm. by apply RoutingFacts.timeout_error_classified.
Qed.

Lemma timeouts_routed_apart_witness :
  exists navE selE,
    fst (PageMonitor.navigateAndExtract Samples.navigationTimeoutPage
           "https://example.com" "#price" ErrorHandler.initial) = Throw navE /\
    fst (PageMonitor.navigateAndExtract Samples.selectorTimeoutPage
           "https://example.com" "#price" ErrorHandler.initial) = Throw selE /\
    message navE <> message selE /\
    Routing.elementExtraction (ErrorHandler.categorizeError selE Workflow.targetContext) /\
    Routing.pageNavigation Workflow.targetContext
      (ErrorHandler.categorizeError navE Workflow.targetContext).
Proof.
  destruct (timeouts_routed_apart Samples.navigationTimeoutPage
              Samples.selectorTimeoutPage "https://example.com" "#price"
              (mkErr "TimeoutError" "Navigation timeout of 30000 ms exceeded")
              (mkErr "TimeoutError" "Timeout 10000ms exceeded")
              ErrorHandler.initial Workflow.targetContext)
    as (navE & selE & Hnav & Hsel & Hdiff & Hext & Hpage & _);
    try reflexivity.
  exists navE, selE. split; [exact Hnav|]. split; [exact Hsel|].
  split; [exact Hdiff|]. split; [exact Hext|]. apply Hpage. reflexivity.
Defined.

(** ** The per-target step *)

Module TargetFacts.
Import ChangeDetector Workflow Runs.

(** [closePage] never throws, whatever the page answers. *)
Lemma closePage_never_throws (cw : BrowserController.CloseWorld)
  (page : option Page) (st : BrowserController.State) :
  fst (fst (BrowserController.closePage cw page st)) = Ok tt.
Proof.
  unfold BrowserController.closePage, BrowserController.closePageBody.
  destruct page as [p|]; [|done].
  destruct (BrowserController.pageIsClosed cw) as [[|]|e]; try done.
  by destruct (BrowserController.pageClose cw) as [[]|e].
Qed.

(** The events of a release, and the page leaves the tracking set. *)
Lemma closePage_events (cw : BrowserController.CloseWorld) (p : Page)
  (st : BrowserController.State) :
  snd (BrowserController.closePage cw (Some p) st) =
    match BrowserController.pageIsClosed cw with
    | Ok false => [EvPageClose p]
    | _ => []
    end /\
  p ∉ BrowserController.pages (snd (fst (BrowserController.closePage cw (Some p) st))).
Proof.
  unfold BrowserController.closePage, BrowserController.closePageBody.
  destruct (BrowserController.pageIsClosed cw) as [[|]|e]; simpl;
    try (split; [done|by apply not_elem_of_difference; right; apply elem_of_singleton]).
  destruct (BrowserController.pageClose cw) as [[]|e]; simpl;
    (split; [done|by apply not_elem_of_difference; right; apply elem_of_singleton]).
Qed.

(** What [navigateAndExtract] returns or throws does not depend on the state
    of the monitor's error handler. *)
Lemma navigateAndExtract_outcome (pw : PageMonitor.PageWorld)
  (url selector : string) (st st' : ErrorHandler.State) :
  fst (PageMonitor.navigateAndExtract pw url selector st) =
  fst (PageMonitor.navigateAndExtract pw url selector st').
Proof.
  unfold PageMonitor.navigateAndExtract, PageMonitor.navigateAndExtractBody.
  destruct (negb (Str.truthy url)); [done|].
  destruct (negb (Str.truthy selector)); [done|].
  destruct (PageMonitor.goto pw); [|done].
  destruct (PageMonitor.waitForSelector pw selector _); [|done].
  by destruct (PageMonitor.extractTextContent pw selector).
Qed.

(** The state after one target, field by field. *)
Lemma processMonitoringTarget_spec (w : World) (index : nat) (entry : Entry)
  (st : State) :
  let r := fst (processMonitoringTarget w index entry st) in
  let st' := snd (processMonitoringTarget w index entry st) in
  r = targetOutcome w index entry /\
  trace st' = (trace st ++ targetEvents w index entry)%list /\
  results st' = results st /\ errors st' = errors st /\
  handler st' = handler st /\ configPath st' = configPath st /\
  slackNotifier st' = slackNotifier st /\ slackWebhook st' = slackWebhook st.
Proof.
  unfold processMonitoringTarget, processMonitoringTargetBody, targetOutcome,
    targetEvents, call, navigateAndExtract, tryFinally, closePage, ret.
  destruct (createPage w index) as [page|e] eqn:Hc; simpl.
  2:{ done. }
  destruct (PageMonitor.navigateAndExtract (pageWorld w index) (url entry)
              (css_selector entry) (monitor st)) as [r1 m1] eqn:Hn.
  pose proof (navigateAndExtract_outcome (pageWorld w index) (url entry)
                (css_selector entry) (monitor st) ErrorHandler.initial) as Hi.
  rewrite Hn in Hi. simpl in Hi.
  pose proof (closePage_never_throws (closeWorld w index) (Some page)) as Hnt.
  pose proof (closePage_events (closeWorld w index) page) as Hev.
  destruct r1 as [v|e]; simpl;
    match goal with
    | |- context [BrowserController.closePage ?cw ?p ?b] =>
        specialize (Hnt b); specialize (Hev b);
        destruct (BrowserController.closePage cw p b) as [[rc bc] evs]
    end; simpl in *; destruct Hev as [-> _]; subst rc; simpl;
    rewrite <- Hi, <- !app_assoc; done.
Qed.

End TargetFacts.

(** ** The loop over the targets *)

Module LoopFacts.
Import ChangeDetector Workflow Runs.

Lemma quiet_app (a b : list Event) : quiet a -> quiet b -> quiet (a ++ b).
Proof. apply Forall_app_2. Qed.

Lemma quiet_targetEvents (w : World) (index : nat) (entry : Entry) :
  quiet (targetEvents w index entry).
Proof.
  unfold quiet, targetEvents. destruct (createPage w index) as [p|e].
  - destruct (BrowserController.pageIsClosed (closeWorld w index)) as [[|]|];
      repeat constructor.
  - repeat constructor.
Qed.

(** The [catch] block of the loop, spelled out. *)
Lemma recordTargetFailure_spec (entry : Entry) (error : Err) (st : State) :
  let c := ErrorHandler.categorizeError error targetContext in
  let st' := snd (recordTargetFailure entry error st) in
  fst (recordTargetFailure entry error st) = Ok (ErrorHandler.shouldStopWorkflow c) /\
  results st' = (results st ++ [Failure entry (message error)
                   (ErrorHandler.type c) (ErrorHandler.severity c)])%list /\
  errors st' = (errors st ++ [mkSessionError (ErrorHandler.type c) (message error)
                  (Some entry) error (ErrorHandler.severity c)])%list /\
  trace st' = trace st /\ configPath st' = configPath st /\
  slackNotifier st' = slackNotifier st /\ slackWebhook st' = slackWebhook st.
Proof. done. Qed.

Lemma detectedChanges_app (a b : list ResultRec) :
  detectedChanges (a ++ b) = (detectedChanges a ++ detectedChanges b)%list.
Proof. unfold detectedChanges. apply omap_app. Qed.

(** The loop, from any position and state: where it stops, what it returns,
    how many records it appends, and that it keeps quiet. *)
Lemma targetsLoop_spec (w : World) (targets : list Entry) :
  forall (index : nat) (changes : list ChangeRecord) (st : State),
    let r := fst (targetsLoop w index targets changes st) in
    let st' := snd (targetsLoop w index targets changes st) in
    match firstCritical w index targets with
    | None =>
        r = Ok (changes ++ loopChanges w index targets)%list /\
        List.length (results st') = List.length (results st) + List.length targets /\
        detectedChanges (results st') =
          (detectedChanges (results st) ++ loopChanges w index targets)%list
    | Some k =>
        (exists entry e,
            targets !! k = Some entry /\
            targetOutcome w (index + k) entry = Throw e /\
            ErrorHandler.severity (ErrorHandler.categorizeError e targetContext)
              = ErrorHandler.CRITICAL /\
            r = Throw e) /\
        List.length (results st') = List.length (results st) + S k
    end /\
    (exists evs, trace st' = (trace st ++ evs)%list /\ quiet evs) /\
    configPath st' = configPath st /\ slackNotifier st' = slackNotifier st /\
    slackWebhook st' = slackWebhook st.
Proof.
  induction targets as [|entry rest IH]; intros index changes st.
  { simpl. rewrite !app_nil_r, Nat.add_0_r.
    split; [done|]. split; [|done]. exists []. rewrite app_nil_r.
    split; [done|constructor]. }
  cbn [targetsLoop firstCritical loopChanges].
  destruct (TargetFacts.processMonitoringTarget_spec w index entry st)
    as (Hr & Htr & Hres & Herr & Hh & Hcp & Hsn & Hsw).
  destruct (processMonitoringTarget w index entry st) as [r1 st1].
  simpl in Hr, Htr, Hres, Herr, Hh, Hcp, Hsn, Hsw.
  unfold isCritical. rewrite <- Hr.
  destruct r1 as [result|error].
  - (* the target gave an outcome *)
    set (changes' := if hasChanged result then _ else _).
    specialize (IH (S index) changes' (pushResult (Outcome result) st1)).
    cbn zeta in IH. destruct IH as (Hk & (evs & Hevs & Hq) & Hcp' & Hsn' & Hsw').
    split; [|split; [|by rewrite Hcp', Hsn', Hsw']].
    + destruct (firstCritical w (S index) rest) as [k|]; simpl.
      * destruct Hk as ((e0 & e & Hl & Ho & Hs & Hre) & Hlen).
        split.
        -- exists e0, e. replace (index + S k) with (S index + k) by lia. done.
        -- rewrite Hlen. simpl. rewrite length_app, Hres. simpl. lia.
      * destruct Hk as (Hre & Hlen & Hdc).
        rewrite Hre, Hlen, Hdc. simpl.
        rewrite length_app, detectedChanges_app, Hres. simpl.
        subst changes'. destruct (hasChanged result); simpl;
          rewrite <- ?app_assoc; repeat split; try done; lia.
    + exists (targetEvents w index entry ++ evs)%list. split.
      * rewrite Hevs. cbn [trace pushResult]. by rewrite Htr, app_assoc.
      * apply quiet_app; [apply quiet_targetEvents|done].
  - (* the target failed *)
    destruct (recordTargetFailure_spec entry error st1)
      as (Hf & Hres2 & Herr2 & Htr2 & Hcp2 & Hsn2 & Hsw2).
    destruct (recordTargetFailure entry error st1) as [r2 st2].
    simpl in Hf, Hres2, Herr2, Htr2, Hcp2, Hsn2, Hsw2. subst r2.
    destruct (ErrorHandler.shouldStopWorkflow _) eqn:Hstop.
    + (* classified CRITICAL: the loop is left *)
      simpl. split; [split|split].
      * exists entry, error. rewrite Nat.add_0_r, <- Hr.
        repeat split; try done.
        unfold ErrorHandler.shouldStopWorkflow in Hstop.
        by apply bool_decide_eq_true in Hstop.
      * rewrite Hres2, length_app, Hres. simpl. lia.
      * exists (targetEvents w index entry). split.
        -- by rewrite Htr2, Htr.
        -- apply quiet_targetEvents.
      * by rewrite Hcp2, Hsn2, Hsw2.
    + (* any other severity: on to the next target *)
      specialize (IH (S index) changes st2).
      cbn zeta in IH. destruct IH as (Hk & (evs & Hevs & Hq) & Hcp' & Hsn' & Hsw').
      split; [|split; [|by rewrite Hcp', Hsn', Hsw', Hcp2, Hsn2, Hsw2]].
      * destruct (firstCritical w (S index) rest) as [k|]; simpl.
        -- destruct Hk as ((e0 & e & Hl & Ho & Hs & Hre) & Hlen).
           split.
           ++ exists e0, e. replace (index + S k) with (S index + k) by lia. done.
           ++ rewrite Hlen, Hres2, length_app, Hres. simpl. lia.
        -- destruct Hk as (Hre & Hlen & Hdc).
           rewrite Hre, Hlen, Hdc, Hres2.
           rewrite length_app, detectedChanges_app, Hres. simpl.
           rewrite app_nil_r. repeat split; try done; lia.
      * exists (targetEvents w index entry ++ evs)%list. split.
        -- rewrite Hevs, Htr2, Htr. by rewrite app_assoc.
        -- apply quiet_app; [apply quiet_targetEvents|done].
Qed.

End LoopFacts.

(** ** Notification and persistence *)

Module StepFacts.
Import ChangeDetector Workflow Runs RunEvents.

(** The notification step attempts every change of the batch in order,
    completes each attempt before the next, and does not throw. *)
Lemma notifyLoop_spec (w : World) (changes : list ChangeRecord) :
  forall (index successCount failureCount : nat) (st : State),
    let r := fst (notifyLoop w index changes successCount failureCount st) in
    let st' := snd (notifyLoop w index changes successCount failureCount st) in
    (exists counts, r = Ok counts) /\
    trace st' = (trace st ++ notifyEvents changes)%list /\
    results st' = results st /\ configPath st' = configPath st.
Proof.
  induction changes as [|change rest IH]; intros index sc fc st.
  { simpl. rewrite app_nil_r. eauto. }
  cbn [notifyLoop]. unfold bind at 1. unfold tryCatch, bind, call, modify, ret.
  destruct (sendChangeNotification w index) as [sent|e].
  - destruct sent;
      [specialize (IH (S index) (S sc) fc (emit [EvNotified change] (emit [EvNotify change] st)))
      |specialize (IH (S index) sc (S fc) (emit [EvNotified change] (emit [EvNotify change] st)))];
      cbn zeta in IH; destruct IH as (Hc & Ht & Hr & Hp);
      (split; [done|]); rewrite Ht, Hr, Hp; cbn [trace results configPath emit notifyEvents flat_map];
      by rewrite <- !app_assoc.
  - unfold handleError. cbn [handler emit].
    destruct (ErrorHandler.handleError e notificationContext _) as [c h] eqn:Hh.
    match goal with
    | |- context [notifyLoop w (S index) rest sc (S fc) ?s] =>
        specialize (IH (S index) sc (S fc) s)
    end.
    cbn zeta in IH; destruct IH as (Hc & Ht & Hr & Hp).
    split; [done|]. rewrite Ht, Hr, Hp.
    cbn [trace results configPath emit pushError setHandler notifyEvents flat_map].
    by rewrite <- !app_assoc.
Qed.

(** The persistence step, spelled out. *)
Lemma persistChanges_spec (w : World) (targets : list Entry)
  (changes : list ChangeRecord) (st : State) :
  let r := fst (persistChanges w targets changes st) in
  let st' := snd (persistChanges w targets changes st) in
  r = updateAndPersist w /\
  trace st' = (trace st ++ [EvPersist (configPath st) targets changes])%list /\
  results st' = results st /\
  errors st' =
    (errors st ++ match updateAndPersist w with
                  | Ok _ => []
                  | Throw e => [sessionErrorOf persistenceContext e]
                  end)%list.
Proof.
  unfold persistChanges, tryCatch, call, bind, modify, throw, handleError.
  destruct (updateAndPersist w) as [[]|e]; simpl.
  - by rewrite app_nil_r.
  - done.
Qed.

Lemma bind_ok {A B} (m : M A) (k : A -> M B) (st : State) (a : A) :
  fst (m st) = Ok a -> bind m k st = k a (snd (m st)).
Proof. unfold bind. destruct (m st) as [r st1]. simpl. by intros ->. Qed.

Lemma bind_throw {A B} (m : M A) (k : A -> M B) (st : State) (e : Err) :
  fst (m st) = Throw e -> bind m k st = (Throw e, snd (m st)).
Proof. unfold bind. destruct (m st) as [r st1]. simpl. by intros ->. Qed.

(** Steps 2 and 3 together. *)
Lemma notifyAndPersist_spec (w : World) (targets : list Entry)
  (changes : list ChangeRecord) (st : State) :
  let r := fst (notifyAndPersist w targets changes st) in
  let st' := snd (notifyAndPersist w targets changes st) in
  results st' = results st /\
  match changes with
  | [] => r = Ok tt /\ st' = st
  | _ :: _ =>
      r = updateAndPersist w /\
      trace st' =
        (trace st ++
         (if bool_decide (is_Some (slackNotifier st))
          then notifyEvents changes else []) ++
         [EvPersist (configPath st) targets changes])%list /\
      (slackNotifier st = None ->
       errors st' =
         (errors st ++ match updateAndPersist w with
                       | Ok _ => []
                       | Throw e => [sessionErrorOf persistenceContext e]
                       end)%list)
  end.
Proof.
  unfold notifyAndPersist. destruct changes as [|c cs]; [done|].
  cbn [List.length Nat.ltb Nat.leb andb].
  destruct (bool_decide (is_Some (slackNotifier st))) eqn:Hn.
  - destruct (notifyLoop_spec w (c :: cs) 0 0 0 st) as ((counts & Hc) & Ht & Hr & Hp).
    rewrite (bind_ok _ _ st tt).
    2:{ unfold sendNotificationsForChanges. by rewrite (bind_ok _ _ st counts). }
    unfold sendNotificationsForChanges. rewrite (bind_ok _ _ st counts) by done.
    unfold ret at 1 2 3 4. cbn [snd].
    set (st1 := snd (notifyLoop w 0 (c :: cs) 0 0 st)) in *.
    destruct (persistChanges_spec w targets (c :: cs) st1) as (Hr2 & Ht2 & Hres2 & He2).
    rewrite Hres2, Hr, Hr2, Ht2, Ht, Hp. rewrite <- app_assoc.
    repeat split; try done.
    intros Hnone. rewrite Hnone in Hn. apply bool_decide_eq_true in Hn.
    by destruct Hn.
  - rewrite (bind_ok _ _ st tt) by done. unfold ret. cbn [snd].
    destruct (persistChanges_spec w targets (c :: cs) st) as (Hr2 & Ht2 & Hres2 & He2).
    by rewrite Hres2, Hr2, Ht2, He2.
Qed.

(** [cleanup] does not throw and keeps quiet. *)
Lemma cleanup_spec (w : World) (st : State) :
  let st' := snd (cleanup w st) in
  fst (cleanup w st) = Ok tt /\
  trace st' = (trace st ++ cleanupEvents w)%list /\
  results st' = results st /\ errors st' = errors st.
Proof.
  unfold cleanup, cleanupEvents, bind, tryCatch, call, ret.
  destruct (isConnectedToBrowser w), (isRunning w);
    destruct (disconnect w) as [[]|?], (terminate w) as [[]|?]; simpl;
    rewrite <- ?app_assoc, ?app_nil_r; done.
Qed.

Lemma quiet_cleanupEvents (w : World) : quiet (cleanupEvents w).
Proof.
  unfold cleanupEvents, quiet.
  destruct (isConnectedToBrowser w), (isRunning w); repeat constructor.
Qed.

End StepFacts.

(** ** Properties of the per-target step and the loop *)

Import ChangeDetector Workflow Runs RunEvents.

(** C5: the outcome of [processMonitoringTarget] is the outcome of page
    creation, fetch and compare, value or error, untouched: it is the same
    whatever the release of the page answers; [closePage] never throws; and
    a page that was acquired is handed to [closePage] exactly once, after the
    fetch. *)
Theorem release_never_alters_outcome (w : World) (index : nat) (entry : Entry)
  (st : State) :
  let r := fst (processMonitoringTarget w index entry st) in
  let st' := snd (processMonitoringTarget w index entry st) in
  r = targetOutcome w index entry /\
  (forall cw, fst (processMonitoringTarget (withCloseWorld cw w) index entry st) = r) /\
  (forall cw page b, fst (fst (BrowserController.closePage cw page b)) = Ok tt) /\
  trace st' = (trace st ++ targetEvents w index entry)%list /\
  closeCalls (targetEvents w index entry) =
    match createPage w index with
    | Ok page => [page]
    | Throw _ => []
    end.
Proof.
  destruct (TargetFacts.processMonitoringTarget_spec w index entry st)
    as (Hr & Htr & _).
  split; [done|]. split.
  { intros cw.
    destruct (TargetFacts.processMonitoringTarget_spec (withCloseWorld cw w)
                index entry st) as (Hr' & _).
    by rewrite Hr', Hr. }
  split; [apply TargetFacts.closePage_never_throws|]. split; [done|].
  unfold targetEvents, closeCalls. destruct (createPage w index) as [p|e]; [|done].
  by destruct (BrowserController.pageIsClosed (closeWorld w index)) as [[|]|].
Qed.

(** C2: [shouldStopWorkflow] holds exactly of the classifications of
    CRITICAL severity; and when a target fails, the loop records the failure
    in [results] and [errors] and then either throws the error at once,
    attempting no further target, when the predicate holds of its
    classification, or goes on with the next target when it does not. *)
Theorem stop_exactly_when_critical :
  (forall c, ErrorHandler.shouldStopWorkflow c = true <->
             ErrorHandler.severity c = ErrorHandler.CRITICAL) /\
  (forall w index entry rest changes st error,
      fst (processMonitoringTarget w index entry st) = Throw error ->
      let c := ErrorHandler.categorizeError error targetContext in
      let st1 := snd (processMonitoringTarget w index entry st) in
      let st2 := snd (recordTargetFailure entry error st1) in
      results st2 = (results st1 ++ [Failure entry (message error)
                       (ErrorHandler.type c) (ErrorHandler.severity c)])%list /\
      errors st2 = (errors st1 ++ [mkSessionError (ErrorHandler.type c)
                      (message error) (Some entry) error
                      (ErrorHandler.severity c)])%list /\
      trace st2 = trace st1 /\
      targetsLoop w index (entry :: rest) changes st =
        if ErrorHandler.shouldStopWorkflow c then (Throw error, st2)
        else targetsLoop w (S index) rest changes st2).
Proof.
  split.
  { intros c. unfold ErrorHandler.shouldStopWorkflow. apply bool_decide_eq_true. }
  intros w index entry rest changes st error Hthrow c st1 st2.
  destruct (LoopFacts.recordTargetFailure_spec entry error st1)
    as (Hf & Hres & Herr & Htr & _).
  repeat split; try done.
  cbn [targetsLoop].
  rewrite (surjective_pairing (processMonitoringTarget w index entry st)), Hthrow.
  fold st1.
  rewrite (surjective_pairing (recordTargetFailure entry error st1)), Hf.
  fold c st2. by destruct (ErrorHandler.shouldStopWorkflow c).
Qed.

Lemma stop_exactly_when_critical_witness :
  let w := Samples.firstTargetTimesOut in
  let st := readyState "input.json" None in
  let error := newError (Routing.selectorTimeoutMessage
                           "https://example.com/p1" "#price") in
  let st2 := snd (recordTargetFailure Samples.price error
                    (snd (processMonitoringTarget w 0 Samples.price st))) in
  fst (processMonitoringTarget w 0 Samples.price st) = Throw error /\
  ErrorHandler.shouldStopWorkflow
    (ErrorHandler.categorizeError error targetContext) = false /\
  targetsLoop w 0 [Samples.price; Samples.title] [] st =
    targetsLoop w 1 [Samples.title] [] st2.
Proof.
  intros w st error st2.
  assert (H : fst (processMonitoringTarget w 0 Samples.price st) = Throw error)
    by (vm_compute; reflexivity).
  split; [exact H|]. split; [vm_compute; reflexivity|].
  destruct stop_exactly_when_critical as [_ Hloop].
  destruct (Hloop w 0 Samples.price [Samples.title] [] st error H)
    as (_ & _ & _ & Heq).
  exact Heq.
Defined.

(** C3, as stated, fails: when the failure classified CRITICAL is that of the
    last target, the loop is left by the throw and yet [results] holds one
    record for each of the K targets. *)
Lemma critical_last_target_fills_results :
  let run := run Samples.lastTargetCritical "input.json" None in
  (exists e, fst run = Throw e) /\
  firstCritical Samples.lastTargetCritical 0 [Samples.price; Samples.title] = Some 1 /\
  List.length (results (snd run)) = 2 /\
  ~ List.length (results (snd run)) < List.length [Samples.price; Samples.title].
Proof.
  vm_compute. split; [eauto|]. split; [done|]. split; [done|]. lia.
Qed.

(** C3, amended: every target the loop attempts appends exactly one record
    to [results]. When no failure is classified CRITICAL the loop returns and
    has appended K records; otherwise it throws at the first target whose
    failure is classified CRITICAL, at position k say, and has appended k + 1
    records, that target's failure record included: at most K, and fewer than
    K exactly when that target is not the last. *)
Theorem one_record_per_attempted_target (w : World) (targets : list Entry)
  (st : State) :
  let r := fst (targetsLoop w 0 targets [] st) in
  let st' := snd (targetsLoop w 0 targets [] st) in
  match firstCritical w 0 targets with
  | None =>
      r = Ok (loopChanges w 0 targets) /\
      List.length (results st') = List.length (results st) + List.length targets
  | Some k =>
      (exists e, r = Throw e) /\
      List.length (results st') = List.length (results st) + (k + 1) /\
      k + 1 <= List.length targets /\
      (List.length (results st') < List.length (results st) + List.length targets
       <-> k + 1 < List.length targets)
  end.
Proof.
  destruct (LoopFacts.targetsLoop_spec w targets 0 [] st) as (Hk & _).
  destruct (firstCritical w 0 targets) as [k|].
  - destruct Hk as ((entry & e & Hl & _ & _ & Hr) & Hlen).
    apply lookup_lt_Some in Hl.
    split; [by exists e|]. rewrite Hlen. repeat split; lia.
  - destruct Hk as (Hr & Hlen & _). done.
Qed.

(** ** Whole runs *)

Module RunFacts.

(** The [catch] and [finally] of [execute] add the events of [cleanup] and
    nothing else to the trace, and leave [results] alone. *)
Lemma execute_frame (w : World) (st : State) :
  let stb := snd (executeBody w st) in
  let st' := snd (execute w st) in
  trace st' = (trace stb ++ cleanupEvents w)%list /\
  results st' = results stb /\
  errors st' =
    (errors stb ++ match fst (executeBody w st) with
                   | Ok _ => []
                   | Throw e => [sessionErrorOf executeContext e]
                   end)%list.
Proof.
  unfold execute, tryFinally, tryCatch.
  destruct (executeBody w st) as [[[]|e] stb]; cbn [fst snd].
  - destruct (StepFacts.cleanup_spec w stb) as (Hc & Ht & Hr & He).
    destruct (cleanup w stb) as [rc sc]. simpl in Hc, Ht, Hr, He. subst rc.
    simpl. by rewrite Ht, Hr, He, app_nil_r.
  - unfold bind, handleError, modify, throw, ret.
    destruct (ErrorHandler.handleError e executeContext (handler stb))
      as [c h] eqn:Hh.
    assert (c = ErrorHandler.categorizeError e executeContext) as Hc
      by (by inversion Hh).
    match goal with
    | |- context [if ?b then _ else _] => destruct b
    end.
    2: destruct (ErrorHandler.shouldStopWorkflow c).
    all: match goal with
         | |- context [cleanup ?w0 ?s] =>
             destruct (StepFacts.cleanup_spec w0 s) as (Hcl & Ht & Hr & He);
             destruct (cleanup w0 s) as [rc sc]
         end; simpl in Hcl, Ht, Hr, He; subst rc; simpl;
         rewrite Ht, Hr, He; unfold sessionErrorOf; by rewrite Hc.
Qed.


(** The body of [execute] either stops during start-up, having made quiet
    calls only and recorded no result, or reaches the loop over the targets
    with the configuration that was loaded, and with a notifier exactly when
    a webhook was given on the command line or stands in the
    configuration. *)
Lemma executeBody_reaches_loop (w : World) (configPath : string)
  (slackWebhook : option string) :
  let body := executeBody w (initialize configPath slackWebhook) in
  (quiet (trace (snd body)) /\ results (snd body) = []) \/
  (exists config s3,
      loadConfig w = Ok config /\
      body = processMonitoringTargets w (targets config) s3 /\
      trace s3 = [EvLoadConfig configPath; EvLaunch; EvConnect] /\
      results s3 = [] /\ Workflow.configPath s3 = configPath /\
      bool_decide (is_Some (slackNotifier s3)) = notifierSet slackWebhook config).
Proof.
  unfold executeBody, bind, call.
  cbn [Workflow.configPath Workflow.slackWebhook emit initialize].
  destruct (loadConfig w) as [config|e].
  2:{ left. simpl. split; [repeat constructor|done]. }
  match goal with
  | |- context [if ?b then _ else (Ok tt, ?s)] =>
      assert (exists s1, (if b then
                match slack_webhook config with
                | Some hook => if Str.truthy hook then (Ok tt, setWebhook hook s)
                               else (Ok tt, s)
                | None => (Ok tt, s)
                end else (Ok tt, s)) = (Ok tt, s1) /\
              trace s1 = [EvLoadConfig configPath] /\
              results s1 = [] /\ Workflow.configPath s1 = configPath /\
              bool_decide (is_Some (slackNotifier s1))
                = notifierSet slackWebhook config)
        as (s1 & Hm & Ht1 & Hr1 & Hp1 & Hn1)
  end.
  { unfold notifierSet. destruct (truthyOpt slackWebhook) eqn:Hw; cbn [negb orb].
    - eexists. split; [done|]. cbn. repeat split. rewrite Hw.
      destruct slackWebhook as [hook|]; [|done].
      by apply bool_decide_eq_true_2.
    - destruct (slack_webhook config) as [hook|]; cbn [truthyOpt].
      + destruct (Str.truthy hook); eexists; (split; [done|]); cbn;
          repeat split; rewrite ?Hw;
          first [by apply bool_decide_eq_true_2
                |apply bool_decide_eq_false_2; by intros [? ?]].
      + eexists. split; [done|]. cbn. repeat split. rewrite Hw.
        apply bool_decide_eq_false_2. by intros [? ?]. }
  rewrite Hm.
  destruct (launch w) as [d|e].
  2:{ left. simpl. rewrite Ht1, Hr1. split; [repeat constructor|done]. }
  destruct (connect w) as [[]|e].
  2:{ left. simpl. rewrite Ht1, Hr1. split; [repeat constructor|done]. }
  right. eexists config, _. split; [done|]. split; [done|]. simpl.
  by rewrite Ht1.
Qed.

(** The trace of the body of [execute]: quiet events and then, when the
    loop over the targets completed with a batch of changes, the attempts
    for the whole batch (with a notifier) followed by the persistence
    call. *)
Lemma executeBody_steps (w : World) (configPath : string)
  (slackWebhook : option string) :
  let stb := snd (executeBody w (initialize configPath slackWebhook)) in
  exists pre mid,
    trace stb = (pre ++ mid)%list /\ quiet pre /\
    match detectedChanges (results stb) with
    | [] => mid = []
    | c :: cs =>
        exists config,
          loadConfig w = Ok config /\
          match firstCritical w 0 (targets config) with
          | Some _ => mid = []
          | None =>
              loopChanges w 0 (targets config) = c :: cs /\
              mid =
                ((if notifierSet slackWebhook config
                  then notifyEvents (c :: cs) else []) ++
                 [EvPersist configPath (targets config) (c :: cs)])%list
          end
    end.
Proof.
  destruct (executeBody_reaches_loop w configPath slackWebhook)
    as [[Hq Hr]|(config & s3 & Hl & Hb & Ht3 & Hr3 & Hp3 & Hn3)].
  { cbn zeta. exists (trace (snd (executeBody w (initialize configPath slackWebhook)))), [].
    rewrite app_nil_r, Hr. done. }
  cbn zeta. rewrite Hb. unfold processMonitoringTargets.
  destruct (LoopFacts.targetsLoop_spec w (targets config) 0 [] s3)
    as (Hk & (evs & Hevs & Hq) & Hcp & Hsn & _).
  assert (quiet (trace s3 ++ evs)) as Hquiet.
  { apply LoopFacts.quiet_app; [|done]. rewrite Ht3. repeat constructor. }
  destruct (firstCritical w 0 (targets config)) as [k|] eqn:Hfc.
  - destruct Hk as ((entry & e & _ & _ & _ & Hr) & _).
    rewrite (StepFacts.bind_throw _ _ _ e) by done. cbn [snd].
    exists (trace s3 ++ evs)%list, []. rewrite app_nil_r.
    split; [done|]. split; [done|]. destruct (detectedChanges _); [done|].
    exists config. by rewrite Hfc.
  - destruct Hk as (Hr & _ & Hdc). rewrite Hr3 in Hdc. simpl in Hdc, Hr.
    rewrite (StepFacts.bind_ok _ _ _ _ Hr).
    set (s4 := snd (targetsLoop w 0 (targets config) [] s3)) in *.
    destruct (StepFacts.notifyAndPersist_spec w (targets config)
                (loopChanges w 0 (targets config)) s4) as (Hres & Hcase).
    rewrite Hres, Hdc.
    destruct (loopChanges w 0 (targets config)) as [|c cs] eqn:Hlc.
    + destruct Hcase as (_ & ->). exists (trace s3 ++ evs)%list, [].
      by rewrite app_nil_r.
    + destruct Hcase as (_ & Htr & _). rewrite Htr, Hevs, Hcp, Hp3, Hsn, Hn3.
      eexists (trace s3 ++ evs)%list, _. split; [done|]. split; [done|].
      exists config. by rewrite Hfc.
Qed.

End RunFacts.

(** C1: in every run the events are, in this order: events that are neither
    a notification attempt nor a persistence call; then the events of steps 2
    and 3; then the events of the cleanup, which are neither. When no change
    was detected, steps 2 and 3 make no call at all. When changes were
    detected, the configuration was loaded, and either the loop over its
    targets was left by a failure classified CRITICAL, and then steps 2 and 3
    make no call either; or the loop completed, and then the one persistence
    call, made with all targets and the whole batch, comes after one attempt
    for every change of the batch in order, each completed before the next
    starts, when a webhook was given on the command line or stands in the
    configuration, and comes alone when there is none. *)
Theorem notify_completes_before_persist (w : World) (configPath : string)
  (slackWebhook : option string) :
  let st := snd (run w configPath slackWebhook) in
  exists pre mid post,
    trace st = (pre ++ mid ++ post)%list /\ quiet pre /\ quiet post /\
    match detectedChanges (results st) with
    | [] => mid = []
    | c :: cs =>
        exists config,
          loadConfig w = Ok config /\
          match firstCritical w 0 (targets config) with
          | Some _ => mid = []
          | None =>
              loopChanges w 0 (targets config) = c :: cs /\
              mid =
                ((if notifierSet slackWebhook config
                  then notifyEvents (c :: cs) else []) ++
                 [EvPersist configPath (targets config) (c :: cs)])%list
          end
    end.
Proof.
  unfold run.
  destruct (RunFacts.execute_frame w (initialize configPath slackWebhook))
    as (Ht & Hr & _).
  destruct (RunFacts.executeBody_steps w configPath slackWebhook)
    as (pre & mid & Htb & Hq & Hmid).
  exists pre, mid, (cleanupEvents w).
  rewrite Ht, Hr, Htb, <- app_assoc.
  split; [done|]. split; [done|]. split; [apply StepFacts.quiet_cleanupEvents|done].
Qed.



(** ** Comparison of values *)

Module CompareFacts.
Import Str ChangeDetector.

Lemma detectChange_values (a b : JsValue) :
  isNullish a = false -> isNullish b = false ->
  detectChange a b = negb (String.eqb (trim (toString a)) (trim (toString b))).
Proof. intros Ha Hb. unfold detectChange. by rewrite Ha, Hb. Qed.

Lemma detectChange_refl (v : JsValue) : detectChange v v = false.
Proof.
  destruct (isNullish v) eqn:Hv.
  - unfold detectChange. by rewrite Hv.
  - rewrite detectChange_values by done. by rewrite String.eqb_refl.
Qed.

End CompareFacts.

(** C7: two values that are both null or undefined compare as unchanged,
    and a pair of which exactly one is compares as changed. Any other two
    values are unchanged exactly when the strings that [String] makes of
    them are equal once trimmed, where the trimmed string is the string
    without the white space at its two ends: it is what stands between a
    run of white space at the start and one at the end, and itself neither
    starts nor ends with white space. So white space around a string makes
    no change, and neither does a value of another type in place of the
    string [String] makes of it, as 123 in place of "123". *)
Theorem detectChange_semantics :
  (forall a b, isNullish a = true -> isNullish b = true -> detectChange a b = false) /\
  (forall a b, isNullish a <> isNullish b -> detectChange a b = true) /\
  (forall a b,
      isNullish a = false -> isNullish b = false ->
      (detectChange a b = false <->
       Str.trim (toString a) = Str.trim (toString b))) /\
  (forall s,
      (exists l r,
          Forall (fun w => w ∈ Str.whiteSpace) l /\
          Forall (fun w => w ∈ Str.whiteSpace) r /\
          s = Str.concat l +:+ Str.trim s +:+ Str.concat r) /\
      (forall w x, w ∈ Str.whiteSpace -> Str.trim s <> w +:+ x) /\
      (forall w x, w ∈ Str.whiteSpace -> Str.trim s <> x +:+ w)) /\
  (forall l r s,
      Forall (fun w => w ∈ Str.whiteSpace) l ->
      Forall (fun w => w ∈ Str.whiteSpace) r ->
      detectChange (JString (Str.concat l +:+ s +:+ Str.concat r)) (JString s)
      = false) /\
  (forall v, isNullish v = false -> detectChange v (JString (toString v)) = false) /\
  detectChange JNull JNull = false /\
  detectChange JUndefined JNull = false /\
  detectChange JNull (JString "x") = true /\
  detectChange (JString "x") JNull = true /\
  detectChange JNull (JString "") = true /\
  detectChange (JString "  a  ") (JString "a") = false /\
  detectChange (JString (Str.utf8 [194; 160] +:+ "a" +:+ Str.utf8 [239; 187; 191]))
    (JString "a") = false /\
  detectChange (JNumber (Finite false 123 3)) (JString "123") = false /\
  detectChange (JNumber (Finite false 123 3)) (JString "456") = true /\
  detectChange (JBool true) (JString "true") = false /\
  detectChange (JNumber (Finite false 5 0)) (JString "0.5") = false /\
  detectChange (JNumber (Finite false 1 22)) (JString "1e+21") = false /\
  detectChange (JNumber (Finite false 1 22)) (JString "1000000000000000000000")
  = true.
Proof.
  split.
  { intros a b Ha Hb. unfold detectChange. by rewrite Ha, Hb. }
  split.
  { intros a b Hab. unfold detectChange.
    by destruct (isNullish a), (isNullish b). }
  split.
  { intros a b Ha Hb. rewrite CompareFacts.detectChange_values by done.
    rewrite negb_false_iff. apply String.eqb_eq. }
  split; [apply TrimFacts.trim_spec|].
  split.
  { intros l r s Hl Hr. rewrite CompareFacts.detectChange_values by done.
    cbn [toString]. rewrite TrimFacts.trim_pad by done.
    by rewrite String.eqb_refl. }
  split.
  { intros v Hv. rewrite CompareFacts.detectChange_values by done.
    cbn [toString]. by rewrite String.eqb_refl. }
  by vm_compute.
Qed.

(** ** The state update *)

Module StateFacts.
Import StateManager Stores.

Lemma preserves_refl (σ : gmap loc Entry) : preserves σ σ.
Proof. by intros l e. Qed.

Lemma preserves_trans (σ σ1 σ2 : gmap loc Entry) :
  preserves σ σ1 -> preserves σ1 σ2 -> preserves σ σ2.
Proof. intros H1 H2 l e Hl. by apply H2, H1. Qed.

Lemma fresh_unused (σ : gmap loc Entry) : σ !! fresh (dom σ) = None.
Proof. apply not_elem_of_dom, is_fresh. Qed.

Lemma preserves_alloc (σ : gmap loc Entry) (e : Entry) :
  preserves σ (<[fresh (dom σ) := e]> σ).
Proof.
  intros l x Hl. rewrite lookup_insert_ne; [done|].
  intros <-. by rewrite fresh_unused in Hl.
Qed.

Lemma liveTargets_preserves (σ σ1 : gmap loc Entry) (arr : list loc) :
  preserves σ σ1 -> liveTargets σ arr -> liveTargets σ1 arr.
Proof.
  intros Hp Hl. unfold liveTargets. eapply Forall_impl; [exact Hl|].
  intros l [e He]. exists e. by apply Hp.
Qed.

Lemma contents_preserves (σ σ1 : gmap loc Entry) (arr : list loc) :
  preserves σ σ1 -> liveTargets σ arr -> contents σ1 arr = contents σ arr.
Proof.
  intros Hp Hl. unfold contents. apply Forall_fmap_ext.
  eapply Forall_impl; [exact Hl|]. intros l [e He]. cbn beta.
  by rewrite He, (Hp l e He).
Qed.

(** The copy: new objects, one per target, with the fields of the
    originals; the originals stay as they are. *)
Lemma deepCopy_spec (targets : list loc) :
  forall σ : gmap loc Entry,
    liveTargets σ targets ->
    exists σ1 copies,
      deepCopy σ targets = Some (σ1, copies) /\
      preserves σ σ1 /\
      Forall (fun l => σ !! l = None) copies /\
      NoDup copies /\
      contents σ1 copies = contents σ targets.
Proof.
  induction targets as [|l rest IH]; intros σ Hlive.
  { exists σ, []. split; [done|]. split; [apply preserves_refl|].
    split; [constructor|]. split; [constructor|done]. }
  apply Forall_cons in Hlive as [[e He] Hrest].
  pose proof (preserves_alloc σ e) as Hp.
  destruct (IH (<[fresh (dom σ) := e]> σ)) as (σ1 & copies & Hd & Hp1 & Hnew & Hnd & Hc).
  { by eapply liveTargets_preserves. }
  exists σ1, (fresh (dom σ) :: copies). cbn [deepCopy]. rewrite He. cbn.
  rewrite Hd. cbn. split; [done|]. split; [by eapply preserves_trans|].
  assert (Forall (fun l0 => σ !! l0 = None) copies) as Hnew'.
  { eapply Forall_impl; [exact Hnew|]. intros l0 Hl0. cbn beta in Hl0.
    destruct (σ !! l0) as [x|] eqn:Hx; [|done].
    by rewrite (Hp l0 x Hx) in Hl0. }
  split; [constructor; [apply fresh_unused|done]|].
  split.
  - constructor; [|done]. intros Hin.
    rewrite Forall_forall in Hnew. specialize (Hnew _ Hin).
    by rewrite lookup_insert_eq in Hnew.
  - unfold contents in *. cbn [fmap list_fmap]. rewrite He. f_equal.
    + apply Hp1, lookup_insert_eq.
    + fold (contents σ1 copies). unfold contents. rewrite Hc.
      by apply (contents_preserves σ).
Qed.

Lemma effective_preserves (σ σ1 : gmap loc Entry) (c : Change) :
  preserves σ σ1 -> (forall l, entry c = Some l -> is_Some (σ !! l)) ->
  effective σ1 c = effective σ c.
Proof.
  intros Hp Hl. unfold effective. destruct (entry c) as [l|]; [|done].
  destruct (hasChanged c); [|done].
  destruct (Hl l eq_refl) as [e He]. by rewrite He, (Hp l e He).
Qed.

Lemma lastChangeFor_preserves (σ σ1 : gmap loc Entry) (changes : list Change)
  (k : string) :
  preserves σ σ1 -> liveChanges σ changes ->
  lastChangeFor σ1 changes k = lastChangeFor σ changes k.
Proof.
  intros Hp. induction changes as [|c rest IH]; intros Hl; [done|].
  apply Forall_cons in Hl as [Hc Hrest]. cbn [lastChangeFor].
  by rewrite IH, (effective_preserves σ σ1 c Hp Hc).
Qed.

Lemma liveChanges_preserves (σ σ1 : gmap loc Entry) (changes : list Change) :
  preserves σ σ1 -> liveChanges σ changes -> liveChanges σ1 changes.
Proof.
  intros Hp Hlive. unfold liveChanges. eapply Forall_impl; [exact Hlive|].
  intros c Hc l Hl. destruct (Hc l Hl) as [e He]. exists e. by apply Hp.
Qed.

(** The change map holds, for each key, the new value of the last change
    that counts and has this key. *)
Lemma buildChangeMap_spec (σ : gmap loc Entry) (changes : list Change) :
  liveChanges σ changes ->
  forall m : gmap string string,
    exists m',
      buildChangeMap σ changes m = Some m' /\
      forall k, m' !! k = match lastChangeFor σ changes k with
                          | Some v => Some v
                          | None => m !! k
                          end.
Proof.
  induction changes as [|c rest IH]; intros Hl m.
  { by exists m. }
  apply Forall_cons in Hl as [Hc Hrest]. specialize (IH Hrest).
  cbn [buildChangeMap lastChangeFor]. unfold effective.
  destruct (entry c) as [l|].
  2:{ destruct (IH m) as (m' & Hb & Hm'). exists m'. split; [done|].
      intros k. rewrite Hm'. by destruct (lastChangeFor σ rest k). }
  destruct (hasChanged c); cbn [negb].
  2:{ destruct (IH m) as (m' & Hb & Hm'). exists m'. split; [done|].
      intros k. rewrite Hm'. by destruct (lastChangeFor σ rest k). }
  destruct (Hc l eq_refl) as [e He]. rewrite He. cbn.
  destruct (IH (<[keyOf e := newValue c]> m)) as (m' & Hb & Hm').
  exists m'. split; [done|]. intros k. rewrite Hm'.
  destruct (lastChangeFor σ rest k); [done|].
  destruct (decide (keyOf e = k)) as [<-|Hne].
  - by rewrite lookup_insert_eq.
  - by rewrite lookup_insert_ne.
Qed.

Lemma keyOf_setCurrentValue (e : Entry) (v : string) :
  keyOf (setCurrentValue e v) = keyOf e.
Proof. done. Qed.

(** The assignments touch the objects of the array and nothing else. *)
Lemma applyChangeMap_spec (m : gmap string string) (arr : list loc) :
  forall σ : gmap loc Entry,
    NoDup arr -> liveTargets σ arr ->
    exists σ2,
      applyChangeMap m σ arr = Some σ2 /\
      (forall l, l ∉ arr -> σ2 !! l = σ !! l) /\
      (forall l, l ∈ arr -> σ2 !! l = applied m <$> σ !! l).
Proof.
  induction arr as [|l rest IH]; intros σ Hnd Hlive.
  { exists σ. split; [done|]. split; [done|]. intros l Hl. by apply elem_of_nil in Hl. }
  apply NoDup_cons in Hnd as [Hnotin Hnd].
  apply Forall_cons in Hlive as [[e He] Hrest].
  cbn [applyChangeMap]. rewrite He. cbn.
  destruct (m !! keyOf e) as [v|] eqn:Hm.
  - destruct (IH (<[l := setCurrentValue e v]> σ) Hnd) as (σ2 & Ha & Hout & Hin).
    { eapply Forall_impl; [exact Hrest|]. intros l0 [x Hx]. cbn beta.
      destruct (decide (l = l0)) as [<-|Hne].
      - rewrite lookup_insert_eq. eauto.
      - rewrite lookup_insert_ne by done. eauto. }
    exists σ2. split; [done|]. split.
    + intros l0 Hl0. apply not_elem_of_cons in Hl0 as [Hne Hl0].
      rewrite (Hout l0 Hl0). by rewrite lookup_insert_ne.
    + intros l0 Hl0. apply elem_of_cons in Hl0 as [->|Hl0].
      * rewrite (Hout l Hnotin), lookup_insert_eq, He. cbn.
        unfold applied. by rewrite Hm.
      * rewrite (Hin l0 Hl0). rewrite lookup_insert_ne; [done|].
        intros <-. done.
  - destruct (IH σ Hnd Hrest) as (σ2 & Ha & Hout & Hin).
    exists σ2. split; [done|]. split.
    + intros l0 Hl0. apply not_elem_of_cons in Hl0 as [Hne Hl0]. by apply Hout.
    + intros l0 Hl0. apply elem_of_cons in Hl0 as [->|Hl0].
      * rewrite (Hout l Hnotin), He. cbn. unfold applied. by rewrite Hm.
      * by apply Hin.
Qed.

(** [updateConfigValues] on live arguments: it returns; the returned array
    holds new objects; every object of the old store is as it was; and each
    returned entry is the original with [updatedEntry] applied. *)
Lemma updateConfigValues_spec (σ : gmap loc Entry) (targets : list loc)
  (changes : list Change) :
  liveTargets σ targets -> liveChanges σ changes ->
  exists σ2 updated,
    updateConfigValues σ targets changes = Some (σ2, updated) /\
    preserves σ σ2 /\
    Forall (fun l => σ !! l = None) updated /\
    contents σ2 updated = updatedContents σ targets changes.
Proof.
  intros Hlt Hlc.
  destruct (deepCopy_spec targets σ Hlt) as (σ1 & copies & Hd & Hp & Hnew & Hnd & Hc).
  destruct (buildChangeMap_spec σ1 changes (liveChanges_preserves _ _ _ Hp Hlc) ∅)
    as (m & Hb & Hm).
  assert (liveTargets σ1 copies) as Hlive1.
  { unfold liveTargets. apply Forall_forall. intros l Hl.
    assert (σ1 !! l ∈ contents σ1 copies) as Hin
      by (unfold contents; by apply (list_elem_of_fmap_2 (fun l => σ1 !! l))).
    rewrite Hc in Hin. unfold contents in Hin.
    apply list_elem_of_fmap in Hin as (l0 & -> & Hl0).
    unfold liveTargets in Hlt. rewrite Forall_forall in Hlt. by apply Hlt. }
  destruct (applyChangeMap_spec m copies σ1 Hnd Hlive1) as (σ2 & Ha & Hout & Hin).
  exists σ2, copies. unfold updateConfigValues. rewrite Hd. cbn.
  rewrite Hb. cbn. rewrite Ha. cbn. split; [done|].
  assert (forall e, applied m e = updatedEntry σ changes e) as Happ.
  { intros e. unfold applied, updatedEntry. rewrite Hm.
    rewrite (lastChangeFor_preserves σ σ1 changes _ Hp Hlc).
    by destruct (lastChangeFor σ changes (keyOf e)). }
  split; [|split; [done|]].
  - intros l e He. rewrite Hout; [by apply Hp|].
    intros Hl. rewrite Forall_forall in Hnew. by rewrite (Hnew l Hl) in He.
  - transitivity ((fun o : option Entry => updatedEntry σ changes <$> o)
                    <$> contents σ1 copies).
    + unfold contents. rewrite <- list_fmap_compose.
      apply Forall_fmap_ext, Forall_forall. intros l Hl. cbn.
      rewrite (Hin l Hl). destruct (σ1 !! l); cbn; [by rewrite Happ|done].
    + rewrite Hc. unfold contents, updatedContents.
      by rewrite <- list_fmap_compose.
Qed.

Lemma updatedEntry_idempotent (σ : gmap loc Entry) (changes : list Change)
  (e : Entry) :
  updatedEntry σ changes (updatedEntry σ changes e) = updatedEntry σ changes e.
Proof.
  unfold updatedEntry at 2.
  destruct (lastChangeFor σ changes (keyOf e)) as [v|] eqn:Hv.
  - unfold updatedEntry. by rewrite keyOf_setCurrentValue, Hv.
  - unfold updatedEntry. by rewrite Hv.
Qed.

(** A key that no change that counts has is given no new value. *)
Lemma lastChangeFor_none (σ : gmap loc Entry) (changes : list Change) (k : string) :
  Forall (fun c => forall v, effective σ c <> Some (k, v)) changes ->
  lastChangeFor σ changes k = None.
Proof.
  induction changes as [|c rest IH]; intros Hall; [done|].
  apply Forall_cons in Hall as [Hc Hrest]. cbn [lastChangeFor].
  rewrite (IH Hrest). destruct (effective σ c) as [[k' v]|]; [|done].
  destruct (decide (k' = k)) as [->|]; [|done]. by destruct (Hc v).
Qed.

(** The last change that counts for a key gives the key its new value. *)
Lemma lastChangeFor_last (σ : gmap loc Entry) (before after : list Change)
  (c : Change) (k v : string) :
  effective σ c = Some (k, v) ->
  Forall (fun c' => forall v', effective σ c' <> Some (k, v')) after ->
  lastChangeFor σ (before ++ c :: after) k = Some v.
Proof.
  intros Hc Hafter. induction before as [|b before IH].
  - cbn [app lastChangeFor]. rewrite (lastChangeFor_none _ _ _ Hafter), Hc.
    by rewrite decide_True.
  - cbn [app lastChangeFor]. cbn [app] in IH. by rewrite IH.
Qed.

(** A change that does not count for a key can be left out. *)
Lemma lastChangeFor_skip (σ : gmap loc Entry) (before after : list Change)
  (c : Change) (k : string) :
  (forall v, effective σ c <> Some (k, v)) ->
  lastChangeFor σ (before ++ c :: after) k = lastChangeFor σ (before ++ after) k.
Proof.
  intros Hc. induction before as [|b before IH].
  - cbn [app lastChangeFor]. destruct (lastChangeFor σ after k); [done|].
    destruct (effective σ c) as [[k' v]|]; [|done].
    destruct (decide (k' = k)) as [->|]; [|done]. by destruct (Hc v).
  - cbn [app lastChangeFor]. by rewrite IH.
Qed.

(** Two different pairs of URL and selector can have the same key. *)
Lemma keyOf_collision :
  keyOf (mkEntry "https://example.com/a|b" "c" "x")
  = keyOf (mkEntry "https://example.com/a" "b|c" "y").
Proof. reflexivity. Qed.

Lemma append_sep_injective (c : ascii) (a b x y : string) :
  Str.hasChar c a = false -> Str.hasChar c b = false ->
  a +:+ String c x = b +:+ String c y -> a = b /\ x = y.
Proof.
  revert b. induction a as [|d a IH]; intros [|d' b] Ha Hb Heq; simpl in *.
  - by inversion Heq.
  - inversion Heq; subst. by rewrite Ascii.eqb_refl in Hb.
  - inversion Heq; subst. by rewrite Ascii.eqb_refl in Ha.
  - inversion Heq; subst. apply orb_false_iff in Ha as [_ Ha].
    apply orb_false_iff in Hb as [_ Hb].
    destruct (IH b Ha Hb) as [-> ->]; done.
Qed.

(** When no URL holds the separator, equal keys mean equal URL and equal
    selector. *)
Lemma keyOf_injective (e1 e2 : Entry) :
  Str.hasChar "|" (url e1) = false -> Str.hasChar "|" (url e2) = false ->
  keyOf e1 = keyOf e2 ->
  url e1 = url e2 /\ css_selector e1 = css_selector e2.
Proof. intros H1 H2 Hk. by apply (append_sep_injective "|"). Qed.

End StateFacts.

Import StateManager Stores.

(** C4, as stated, fails: of two changes with the key of the same entry the
    earlier one does not set the stored value; the entry ends with the new
    value of the later one. *)
Lemma earlier_change_overwritten :
  exists σ2 updated,
    updateConfigValues Samples.store [0; 1] Samples.repricedTwice
      = Some (σ2, updated) /\
    contents σ2 updated =
      [Some (mkEntry "https://example.com/p1" "#price" "$17.99");
       Some Samples.title] /\
    effective Samples.store (mkChange (Some 0) true "$18.49")
      = Some (keyOf Samples.price, "$18.49") /\
    mkChange (Some 0) true "$18.49" ∈ Samples.repricedTwice /\
    "$17.99" <> "$18.49".
Proof.
  eexists _, _. split; [vm_compute; reflexivity|].
  split; [vm_compute; reflexivity|]. split; [vm_compute; reflexivity|].
  split; [apply list_elem_of_here|discriminate].
Qed.

(** C4, amended: on live arguments [updateConfigValues] returns an array of
    new objects, one per target, and leaves every object of the old store as
    it was; each returned entry is the original with its stored value
    replaced by the new value of the last change that has [hasChanged] set,
    has an entry, and whose key string [url|css_selector] is that of the
    entry, and is the original unchanged when there is no such change;
    changes whose key is the key of no target have no effect. *)
Theorem updateConfigValues_last_change_wins (σ : gmap loc Entry)
  (targets : list loc) (changes : list Change) :
  liveTargets σ targets -> liveChanges σ changes ->
  exists σ2 updated,
    updateConfigValues σ targets changes = Some (σ2, updated) /\
    List.length updated = List.length targets /\
    Forall (fun l => σ !! l = None) updated /\
    preserves σ σ2 /\
    contents σ2 updated = updatedContents σ targets changes /\
    (forall e before c after v,
        changes = (before ++ c :: after)%list ->
        effective σ c = Some (keyOf e, v) ->
        Forall (fun c' => forall v', effective σ c' <> Some (keyOf e, v')) after ->
        updatedEntry σ changes e = setCurrentValue e v) /\
    (forall e,
        Forall (fun c => forall v, effective σ c <> Some (keyOf e, v)) changes ->
        updatedEntry σ changes e = e) /\
    (forall before c after,
        changes = (before ++ c :: after)%list ->
        Forall (fun l => forall e v, σ !! l = Some e ->
                                     effective σ c <> Some (keyOf e, v)) targets ->
        updatedContents σ targets changes
        = updatedContents σ targets (before ++ after)).
Proof.
  intros Hlt Hlc.
  destruct (StateFacts.updateConfigValues_spec σ targets changes Hlt Hlc)
    as (σ2 & updated & Hu & Hp & Hnew & Hc).
  exists σ2, updated. split; [done|]. split.
  { apply (f_equal List.length) in Hc. unfold contents, updatedContents in Hc.
    by rewrite !length_fmap in Hc. }
  split; [done|]. split; [done|]. split; [done|]. split; [|split].
  - intros e before c after v -> Hc' Hafter. unfold updatedEntry.
    by rewrite (StateFacts.lastChangeFor_last σ before after c (keyOf e) v).
  - intros e Hnone. unfold updatedEntry.
    by rewrite (StateFacts.lastChangeFor_none σ changes (keyOf e)).
  - intros before c after -> Hign. unfold updatedContents.
    apply Forall_fmap_ext. eapply Forall_impl; [exact Hign|].
    intros l Hl. cbn beta. destruct (σ !! l) as [e|] eqn:He; [|done]. cbn.
    unfold updatedEntry.
    by rewrite (StateFacts.lastChangeFor_skip σ before after c (keyOf e))
      by (intros v; by apply (Hl e v)).
Qed.

Lemma updateConfigValues_last_change_wins_witness :
  exists σ2 updated,
    updateConfigValues Samples.store [0; 1] Samples.mixedChanges
      = Some (σ2, updated) /\
    contents σ2 updated =
      [Some (mkEntry "https://example.com/p1" "#price" "$17.99");
       Some Samples.title] /\
    contents σ2 [0; 1] = [Some Samples.price; Some Samples.title].
Proof.
  destruct (updateConfigValues_last_change_wins Samples.store [0; 1]
              Samples.mixedChanges)
    as (σ2 & updated & Hu & _ & _ & Hp & Hc & _).
  { repeat constructor; by eexists. }
  { repeat constructor; intros l [= <-]; by eexists. }
  exists σ2, updated. split; [exact Hu|]. split; [exact Hc|].
  unfold contents. cbn [fmap list_fmap].
  rewrite (Hp 0 Samples.price eq_refl), (Hp 1 Samples.title eq_refl).
  reflexivity.
Defined.

(** C9: applying [updateConfigValues] to its own result with the same
    changes returns entries equal to those of the first result; and neither
    call changes any object of the store it started from, so the input
    array reads the same before and after, whatever the changes. *)
Theorem updateConfigValues_idempotent (σ : gmap loc Entry)
  (targets : list loc) (changes : list Change) :
  liveTargets σ targets -> liveChanges σ changes ->
  exists σ1 r1 σ2 r2,
    updateConfigValues σ targets changes = Some (σ1, r1) /\
    updateConfigValues σ1 r1 changes = Some (σ2, r2) /\
    contents σ2 r2 = contents σ1 r1 /\
    preserves σ σ1 /\ preserves σ σ2 /\
    contents σ1 targets = contents σ targets /\
    contents σ2 targets = contents σ targets.
Proof.
  intros Hlt Hlc.
  destruct (StateFacts.updateConfigValues_spec σ targets changes Hlt Hlc)
    as (σ1 & r1 & Hu1 & Hp1 & Hnew1 & Hc1).
  assert (liveTargets σ1 r1) as Hlt1.
  { unfold liveTargets. apply Forall_forall. intros l Hl.
    assert (σ1 !! l ∈ contents σ1 r1) as Hin
      by (unfold contents; by apply (list_elem_of_fmap_2 (fun l => σ1 !! l))).
    rewrite Hc1 in Hin. unfold updatedContents in Hin.
    apply list_elem_of_fmap in Hin as (l0 & Heq & Hl0).
    unfold liveTargets in Hlt. rewrite Forall_forall in Hlt.
    destruct (Hlt l0 Hl0) as [e He]. rewrite He in Heq. rewrite Heq. by eexists. }
  pose proof (StateFacts.liveChanges_preserves σ σ1 changes Hp1 Hlc) as Hlc1.
  destruct (StateFacts.updateConfigValues_spec σ1 r1 changes Hlt1 Hlc1)
    as (σ2 & r2 & Hu2 & Hp2 & Hnew2 & Hc2).
  pose proof (StateFacts.preserves_trans σ σ1 σ2 Hp1 Hp2) as Hp.
  exists σ1, r1, σ2, r2.
  split; [done|]. split; [done|]. split.
  { rewrite Hc2. unfold updatedContents.
    transitivity ((fun o : option Entry => updatedEntry σ1 changes <$> o)
                    <$> contents σ1 r1).
    { unfold contents. by rewrite <- list_fmap_compose. }
    rewrite Hc1. unfold updatedContents. rewrite <- list_fmap_compose.
    apply Forall_fmap_ext, Forall_forall. intros l _. cbn.
    destruct (σ !! l) as [e|]; cbn; [|done]. f_equal.
    unfold updatedEntry at 1.
    rewrite (StateFacts.lastChangeFor_preserves σ σ1 changes _ Hp1 Hlc).
    apply (StateFacts.updatedEntry_idempotent σ changes e). }
  split; [done|]. split; [done|].
  split; by apply StateFacts.contents_preserves.
Qed.

Lemma updateConfigValues_idempotent_witness :
  exists σ1 r1 σ2 r2,
    updateConfigValues Samples.store [0; 1] Samples.mixedChanges = Some (σ1, r1) /\
    updateConfigValues σ1 r1 Samples.mixedChanges = Some (σ2, r2) /\
    contents σ2 r2 = contents σ1 r1 /\
    contents σ2 [0; 1; 2] = contents Samples.store [0; 1; 2].
Proof.
  destruct (updateConfigValues_idempotent Samples.store [0; 1]
              Samples.mixedChanges)
    as (σ1 & r1 & σ2 & r2 & Hu1 & Hu2 & Hc & _ & Hp & _).
  { repeat constructor; by eexists. }
  { repeat constructor; intros l [= <-]; by eexists. }
  exists σ1, r1, σ2, r2. split; [exact Hu1|]. split; [exact Hu2|].
  split; [exact Hc|].
  apply StateFacts.contents_preserves; [exact Hp|].
  repeat constructor; by eexists.
Defined.

(** * Further properties *)

(** ** The classifier and its statistics *)

Module ClassifierFacts.
Import Str ErrorHandler ErrorStats.

(** The severity is read off the type. *)
Lemma severity_of_type (error : Err) (ctx : Context) :
  severity (categorizeError error ctx) = severityOf (type (categorizeError error ctx)).
Proof.
  unfold categorizeError.
  repeat match goal with
         | |- context [if ?b then _ else _] => destruct b
         end; reflexivity.
Qed.

Lemma severityOf_not_low (t : ErrorType) : severityOf t <> LOW.
Proof. by destruct t. Qed.

(** Two contexts that agree on being, or not being, the configuration
    context lead the classifier through the same rule. *)
Lemma categorize_context (error : Err) (ctx1 ctx2 : Context) :
  String.eqb (ctype ctx1) "config" = String.eqb (ctype ctx2) "config" ->
  let c1 := categorizeError error ctx1 in
  let c2 := categorizeError error ctx2 in
  severity c1 = severity c2 /\ category c1 = category c2 /\
  userMessage c1 = userMessage c2 /\ suggestions c1 = suggestions c2 /\
  technicalMessage c1 = technicalMessage c2 /\
  (String.eqb (operation ctx1) "processMonitoringTarget"
   = String.eqb (operation ctx2) "processMonitoringTarget" -> c1 = c2).
Proof.
  intros Hc. unfold categorizeError, isConfigError. rewrite Hc.
  set (m := orElse (message error) "Unknown error").
  destruct (_ || _ || _ || _ || _); [done|].
  destruct (isChromeError m); [done|].
  destruct (isBrowserError m); [done|].
  destruct (isPageError m).
  { cbn. repeat split; try done. by intros ->. }
  destruct (isExtractionError m); [done|].
  destruct (isNotificationError m); [done|].
  by destruct (isPersistenceError m).
Qed.

Lemma countSeverity_app (s : ErrorSeverity) (a b : list ErrorRecord) :
  countSeverity s (a ++ b) = countSeverity s a + countSeverity s b.
Proof. unfold countSeverity. by rewrite filter_app, length_app. Qed.

Lemma countType_app (t : ErrorType) (a b : list ErrorRecord) :
  countType t (a ++ b) = countType t a + countType t b.
Proof. unfold countType. by rewrite filter_app, length_app. Qed.

Lemma countSeverity_one (s : ErrorSeverity) (r : ErrorRecord) :
  countSeverity s [r] = if decide (severity (categorized r) = s) then 1 else 0.
Proof.
  unfold countSeverity. rewrite filter_cons, filter_nil.
  by destruct (decide _).
Qed.

Lemma countType_one (t : ErrorType) (r : ErrorRecord) :
  countType t [r] = if decide (type (categorized r) = t) then 1 else 0.
Proof.
  unfold countType. rewrite filter_cons, filter_nil.
  by destruct (decide _).
Qed.

Lemma typeName_inj (t1 t2 : ErrorType) : typeName t1 = typeName t2 -> t1 = t2.
Proof. by destruct t1, t2. Qed.

(** The buckets of the statistics partition the session errors. *)
Lemma buckets_partition (l : list ErrorRecord) :
  countSeverity CRITICAL l + countSeverity HIGH l + countSeverity MEDIUM l
  + countSeverity LOW l = List.length l.
Proof.
  induction l as [|r l IH]; [done|].
  change (r :: l) with ([r] ++ l)%list. rewrite !countSeverity_app, !countSeverity_one.
  cbn [List.length app]. destruct (severity (categorized r));
    repeat (destruct (decide _); try done); lia.
Qed.

(** What one call of [handleError] does to the handler. *)
Lemma handleError_step (error : Err) (ctx : Context) (st : State) :
  let c := categorizeError error ctx in
  let st' := snd (handleError error ctx st) in
  sessionErrors st' = (sessionErrors st ++ [mkErrorRecord c ctx error])%list /\
  (forall t, default 0 (errorCounts st' !! typeName t)
             = default 0 (errorCounts st !! typeName t)
               + (if decide (type c = t) then 1 else 0)).
Proof.
  intros c st'. split; [done|]. intros t. subst st'. unfold handleError.
  cbn [snd errorCounts]. fold c.
  destruct (decide (type c = t)) as [<-|Hne].
  - by rewrite lookup_insert_eq.
  - rewrite lookup_insert_ne; [lia|]. intros Heq. by apply typeName_inj in Heq.
Qed.

(** The invariant of a handler: no error of LOW severity, and the counter
    of each type is the number of session errors of that type. *)
Lemma handleAll_invariant (calls : list (Err * Context)) :
  forall st : State,
    let st' := handleAll calls st in
    List.length (sessionErrors st')
      = List.length (sessionErrors st) + List.length calls /\
    countSeverity LOW (sessionErrors st') = countSeverity LOW (sessionErrors st) /\
    (forall t, default 0 (errorCounts st' !! typeName t) + countType t (sessionErrors st)
               = default 0 (errorCounts st !! typeName t)
                 + countType t (sessionErrors st')).
Proof.
  induction calls as [|[error ctx] calls IH]; intros st.
  { cbn. split; [lia|]. split; [done|]. intros t. lia. }
  cbn [handleAll foldl fst snd].
  destruct (handleError_step error ctx st) as (Hs & Hc).
  fold (handleAll calls (snd (handleError error ctx st))).
  remember (snd (handleError error ctx st)) as st1 eqn:Hst1. clear Hst1.
  destruct (IH st1) as (Hlen & Hlow & Hcnt).
  remember (handleAll calls st1) as st2 eqn:Hst2. clear Hst2.
  split; [|split].
  - rewrite Hlen, Hs, length_app. cbn [List.length]. lia.
  - rewrite Hlow, Hs, countSeverity_app, countSeverity_one.
    cbn [categorized]. rewrite severity_of_type.
    destruct (decide _) as [Hl|]; [|lia]. by apply severityOf_not_low in Hl.
  - intros t. specialize (Hcnt t). specialize (Hc t).
    rewrite Hs, countType_app, countType_one in Hcnt. cbn [categorized] in Hcnt.
    lia.
Qed.

End ClassifierFacts.

Import ErrorHandler ErrorStats.

(** X1: the classifier's taxonomy. The severity of a classification is
    determined by its type (configuration, Chrome, browser and persistence
    errors are CRITICAL, page, target and workflow errors HIGH, extraction
    and notification errors MEDIUM) and is never LOW; the technical message
    is the error's message, or "Unknown error" for an empty one; and the
    page-navigation rule gives TARGET_ERROR exactly in the context of
    [processMonitoringTarget]. *)
Theorem classification_taxonomy (error : Err) (ctx : Context) :
  let c := categorizeError error ctx in
  severity c = severityOf (type c) /\ severity c <> LOW /\
  technicalMessage c = Str.orElse (message error) "Unknown error" /\
  (if String.eqb (operation ctx) "processMonitoringTarget"
   then type c <> PAGE_ERROR else type c <> TARGET_ERROR).
Proof.
  intros c. split; [apply ClassifierFacts.severity_of_type|].
  split.
  { subst c. rewrite ClassifierFacts.severity_of_type.
    apply ClassifierFacts.severityOf_not_low. }
  subst c. unfold categorizeError.
  destruct (String.eqb (operation ctx) "processMonitoringTarget");
    repeat match goal with
           | |- context [if ?b then _ else _] => destruct b
           end; done.
Qed.

(** X2: the context enters the classification only through the test for
    the configuration context and the TARGET/PAGE tag: two contexts that
    agree on the first give the same severity, category, messages and
    suggestions, hence the same stop decision, and the same classification
    altogether when they also agree on the second. *)
Theorem classification_context (error : Err) (ctx1 ctx2 : Context) :
  String.eqb (ctype ctx1) "config" = String.eqb (ctype ctx2) "config" ->
  let c1 := categorizeError error ctx1 in
  let c2 := categorizeError error ctx2 in
  severity c1 = severity c2 /\ category c1 = category c2 /\
  userMessage c1 = userMessage c2 /\ suggestions c1 = suggestions c2 /\
  shouldStopWorkflow c1 = shouldStopWorkflow c2 /\
  (String.eqb (operation ctx1) "processMonitoringTarget"
   = String.eqb (operation ctx2) "processMonitoringTarget" -> c1 = c2).
Proof.
  intros Hc c1 c2.
  destruct (ClassifierFacts.categorize_context error ctx1 ctx2 Hc)
    as (Hs & Hcat & Hu & Hsu & _ & Heq).
  repeat split; try done.
  unfold shouldStopWorkflow. fold c1 c2 in Hs. by rewrite Hs.
Qed.

Lemma classification_context_witness :
  let e := newError "Failed to create page: Browser is not connected. Call connect() first." in
  severity (categorizeError e Workflow.targetContext)
  = severity (categorizeError e Workflow.executeContext) /\
  shouldStopWorkflow (categorizeError e Workflow.targetContext)
  = shouldStopWorkflow (categorizeError e Workflow.executeContext).
Proof.
  intros e.
  destruct (classification_context e Workflow.targetContext
              Workflow.executeContext eq_refl) as (Hs & _ & _ & _ & Hstop & _).
  split; [exact Hs|exact Hstop].
Defined.

(** X3: the statistics of a handler that started empty and handled a
    series of errors: [totalErrors] is the number of errors handled and is
    the sum of the critical, high and medium counts, [lowErrors] is 0, and
    the counter kept for each error type is the number of session errors of
    that type. *)
Theorem error_stats_account (calls : list (Err * Context)) :
  let st := handleAll calls initial in
  let stats := getErrorStats st in
  totalErrors stats = List.length calls /\
  criticalErrors stats + highErrors stats + mediumErrors stats = totalErrors stats /\
  lowErrors stats = 0 /\
  (forall t, default 0 (counts stats !! typeName t) = countType t (sessionErrors st)).
Proof.
  intros st stats.
  destruct (ClassifierFacts.handleAll_invariant calls initial) as (Hlen & Hlow & Hcnt).
  fold st in Hlen, Hlow, Hcnt.
  pose proof (ClassifierFacts.buckets_partition (sessionErrors st)) as Hp.
  cbn in Hlen, Hlow. subst stats. unfold getErrorStats. cbn.
  split; [done|]. split; [lia|]. split; [done|].
  intros t. specialize (Hcnt t). cbn in Hcnt. rewrite lookup_empty in Hcnt.
  cbn in Hcnt. lia.
Qed.

(** ** The session record *)

Module SessionFacts.
Import ChangeDetector Workflow Runs RunEvents Summary.

Section Keeps.
Context (P : State -> Prop).

Lemma keeps_ret {A} (a : A) : keeps P (ret a).
Proof. by intros st. Qed.

Lemma keeps_throw {A} (e : Err) : keeps P (@throw A e).
Proof. by intros st. Qed.

Lemma keeps_bind {A B} (m : M A) (k : A -> M B) :
  keeps P m -> (forall a, keeps P (k a)) -> keeps P (bind m k).
Proof.
  intros Hm Hk st HP. specialize (Hm st HP). unfold bind.
  destruct (m st) as [[a|e] st1]; [by apply Hk|done].
Qed.

Lemma keeps_tryCatch {A} (m : M A) (h : Err -> M A) :
  keeps P m -> (forall e, keeps P (h e)) -> keeps P (tryCatch m h).
Proof.
  intros Hm Hh st HP. specialize (Hm st HP). unfold tryCatch.
  destruct (m st) as [[a|e] st1]; [done|by apply Hh].
Qed.

Lemma keeps_tryFinally {A} (m : M A) (fin : M unit) :
  keeps P m -> keeps P fin -> keeps P (tryFinally m fin).
Proof.
  intros Hm Hf st HP. specialize (Hm st HP). unfold tryFinally.
  destruct (m st) as [r st1]. specialize (Hf st1 Hm).
  by destruct (fin st1) as [[u|e] st2].
Qed.

Lemma keeps_modify (f : State -> State) :
  (forall st, P st -> P (f st)) -> keeps P (modify f).
Proof. intros Hf st HP. by apply Hf. Qed.

Lemma keeps_call {A} (evs : list Event) (answer : Res A) :
  (forall st, P st -> P (emit evs st)) -> keeps P (call evs answer).
Proof. intros Hf st HP. by apply Hf. Qed.
End Keeps.

Lemma inStep_frame (st st' : State) :
  Workflow.errors st' = Workflow.errors st -> handler st' = handler st -> inStep st -> inStep st'.
Proof. unfold inStep. by intros -> ->. Qed.

Lemma inStep_emit (evs : list Event) (st : State) : inStep st -> inStep (emit evs st).
Proof. by apply inStep_frame. Qed.

(** Classifying an error and pushing its record keeps the two lists in
    step. *)
Lemma keeps_record {A} (error : Err) (ctx : ErrorHandler.Context)
  (o : option Entry) (k : ErrorHandler.Categorized -> M A) :
  (forall c, keeps inStep (k c)) ->
  keeps inStep
    (bind (handleError error ctx)
       (fun c => bind (modify (pushError
                                 (mkSessionError (ErrorHandler.type c)
                                    (message error) o error
                                    (ErrorHandler.severity c))))
                   (fun _ => k c))).
Proof.
  intros Hk st HP. unfold bind, handleError, modify.
  cbn [ErrorHandler.handleError fst snd]. apply Hk.
  unfold inStep in *. cbn [Workflow.errors handler pushError setHandler
    ErrorHandler.sessionErrors ErrorHandler.handleError snd].
  rewrite !fmap_app, HP. done.
Qed.

Lemma keeps_recordTargetFailure (entry : Entry) (error : Err) :
  keeps inStep (recordTargetFailure entry error).
Proof.
  intros st HP. unfold recordTargetFailure, bind, handleError, modify, ret.
  cbn [ErrorHandler.handleError fst snd].
  unfold inStep in *. cbn [Workflow.errors handler pushError pushResult setHandler
    ErrorHandler.sessionErrors ErrorHandler.handleError snd].
  rewrite !fmap_app, HP. done.
Qed.

Lemma keeps_processMonitoringTarget (w : World) (index : nat) (entry : Entry) :
  keeps inStep (processMonitoringTarget w index entry).
Proof.
  intros st HP.
  destruct (TargetFacts.processMonitoringTarget_spec w index entry st)
    as (_ & _ & _ & He & Hh & _).
  by apply (inStep_frame st).
Qed.

Lemma keeps_targetsLoop (w : World) (targets : list Entry) :
  forall index changes, keeps inStep (targetsLoop w index targets changes).
Proof.
  induction targets as [|entry rest IH]; intros index changes st HP; [done|].
  cbn [targetsLoop].
  pose proof (keeps_processMonitoringTarget w index entry st HP) as H1.
  destruct (processMonitoringTarget w index entry st) as [[result|error] st1];
    cbn [snd] in H1.
  - apply IH. by apply (inStep_frame st1).
  - pose proof (keeps_recordTargetFailure entry error st1 H1) as H2.
    destruct (recordTargetFailure entry error st1) as [[[|]|e] st2];
      cbn [snd] in H2; [done| |done].
    by apply IH.
Qed.

Lemma keeps_notifyLoop (w : World) (changes : list ChangeRecord) :
  forall index sc fc, keeps inStep (notifyLoop w index changes sc fc).
Proof.
  induction changes as [|change rest IH]; intros index sc fc; [by apply keeps_ret|].
  cbn [notifyLoop]. apply keeps_bind.
  - apply keeps_tryCatch.
    + apply keeps_bind; [apply keeps_call, inStep_emit|].
      intros sent. apply keeps_bind; [apply keeps_modify, inStep_emit|].
      intros _. apply keeps_ret.
    + intros e. apply keeps_bind; [apply keeps_modify, inStep_emit|].
      intros _. apply (keeps_record e notificationContext (Some (entry change))
                         (fun _ => ret false)).
      intros c. apply keeps_ret.
  - intros [|]; apply IH.
Qed.

Lemma keeps_persistChanges (w : World) (targets : list Entry)
  (changes : list ChangeRecord) :
  keeps inStep (persistChanges w targets changes).
Proof.
  intros st HP. unfold persistChanges.
  refine (keeps_tryCatch inStep
            (call [EvPersist (configPath st) targets changes] (updateAndPersist w))
            _ _ _ st HP).
  - apply keeps_call, inStep_emit.
  - intros e. apply (keeps_record e persistenceContext None (fun _ => throw e)).
    intros c. apply keeps_throw.
Qed.

Lemma keeps_notifyAndPersist (w : World) (targets : list Entry)
  (changes : list ChangeRecord) :
  keeps inStep (notifyAndPersist w targets changes).
Proof.
  intros st HP. unfold notifyAndPersist.
  refine (keeps_bind inStep _ _ _ _ st HP).
  - destruct (_ && _); [|apply keeps_ret].
    apply keeps_bind; [apply keeps_notifyLoop|]. intros _. apply keeps_ret.
  - intros _. destruct (0 <? _)%nat; [apply keeps_persistChanges|apply keeps_ret].
Qed.

Lemma keeps_processMonitoringTargets (w : World) (targets : list Entry) :
  keeps inStep (processMonitoringTargets w targets).
Proof.
  apply keeps_bind; [apply keeps_targetsLoop|].
  intros changes. apply keeps_notifyAndPersist.
Qed.

Lemma keeps_cleanup (P : State -> Prop) (w : World) :
  (forall evs st, P st -> P (emit evs st)) -> keeps P (cleanup w).
Proof.
  intros He. unfold cleanup. apply keeps_bind.
  - apply keeps_tryCatch; [|intros e; apply keeps_ret].
    destruct (isConnectedToBrowser w); [apply keeps_call, He|apply keeps_ret].
  - intros _. apply keeps_tryCatch; [|intros e; apply keeps_ret].
    destruct (isRunning w); [apply keeps_call, He|apply keeps_ret].
Qed.

Lemma keeps_executeBody (w : World) : keeps inStep (executeBody w).
Proof.
  intros st HP. unfold executeBody.
  refine (keeps_bind inStep _ _ _ _ st HP).
  - apply keeps_call, inStep_emit.
  - intros config. apply keeps_bind.
    + intros st1 HP1. destruct (negb _); [|done].
      destruct (slack_webhook config) as [hook|]; [|done].
      destruct (Str.truthy hook); [|done]. by apply (inStep_frame st1).
    + intros _. apply keeps_bind; [apply keeps_call, inStep_emit|].
      intros _. apply keeps_bind; [apply keeps_call, inStep_emit|].
      intros _. apply keeps_processMonitoringTargets.
Qed.

Lemma keeps_execute (w : World) : keeps inStep (execute w).
Proof.
  unfold execute. apply keeps_tryFinally; [|apply keeps_cleanup, inStep_emit].
  apply keeps_tryCatch; [apply keeps_executeBody|].
  intros e.
  apply (keeps_record e executeContext None
           (fun c => if bool_decide (ErrorHandler.type c = ErrorHandler.CONFIG_ERROR)
                        || bool_decide (ErrorHandler.type c = ErrorHandler.CHROME_ERROR)
                     then throw e
                     else if ErrorHandler.shouldStopWorkflow c then throw e
                          else ret tt)).
  intros c. destruct (_ || _); [apply keeps_throw|].
  destruct (ErrorHandler.shouldStopWorkflow c); [apply keeps_throw|apply keeps_ret].
Qed.

(** What [execute] returns or throws, given what its body did. *)
Lemma execute_outcome (w : World) (st : State) :
  fst (execute w st) =
    match fst (executeBody w st) with
    | Ok _ => Ok tt
    | Throw e =>
        if ErrorHandler.shouldStopWorkflow
             (ErrorHandler.categorizeError e executeContext)
        then Throw e else Ok tt
    end.
Proof.
  unfold execute, tryFinally, tryCatch.
  destruct (executeBody w st) as [[[]|e] stb]; cbn [fst snd].
  - destruct (StepFacts.cleanup_spec w stb) as (Hc & _).
    destruct (cleanup w stb) as [rc sc]. cbn [fst] in Hc. by subst rc.
  - unfold bind, handleError, modify, throw, ret.
    cbn [ErrorHandler.handleError fst snd].
    set (c := ErrorHandler.categorizeError e executeContext).
    pose proof (ClassifierFacts.severity_of_type e executeContext) as Hsev.
    fold c in Hsev.
    assert (bool_decide (ErrorHandler.type c = ErrorHandler.CONFIG_ERROR)
            || bool_decide (ErrorHandler.type c = ErrorHandler.CHROME_ERROR) = true
            -> ErrorHandler.shouldStopWorkflow c = true) as Hsub.
    { intros Hor. unfold ErrorHandler.shouldStopWorkflow.
      apply bool_decide_eq_true. rewrite Hsev.
      apply orb_true_iff in Hor as [Ht|Ht]; apply bool_decide_eq_true in Ht;
        by rewrite Ht. }
    destruct (_ || _) eqn:Hor.
    + rewrite (Hsub eq_refl).
      match goal with
      | |- context [cleanup w ?s] =>
          destruct (StepFacts.cleanup_spec w s) as (Hc & _);
          destruct (cleanup w s) as [rc sc]
      end. cbn [fst] in Hc. by subst rc.
    + destruct (ErrorHandler.shouldStopWorkflow c);
        match goal with
        | |- context [cleanup w ?s] =>
            destruct (StepFacts.cleanup_spec w s) as (Hc & _);
            destruct (cleanup w s) as [rc sc]
        end; cbn [fst] in Hc; by subst rc.
Qed.

(** The session errors of the handler after [execute]. *)
Lemma execute_handler (w : World) (st : State) :
  ErrorHandler.sessionErrors (handler (snd (execute w st))) =
    (ErrorHandler.sessionErrors (handler (snd (executeBody w st))) ++
     match fst (executeBody w st) with
     | Ok _ => []
     | Throw e =>
         [ErrorHandler.mkErrorRecord
            (ErrorHandler.categorizeError e executeContext) executeContext e]
     end)%list.
Proof.
  assert (forall s, handler (snd (cleanup w s)) = handler s) as Hcl.
  { intros s. by apply (keeps_cleanup (fun s' => handler s' = handler s) w). }
  unfold execute, tryFinally, tryCatch.
  destruct (executeBody w st) as [[[]|e] stb]; cbn [fst snd].
  - specialize (Hcl stb). destruct (cleanup w stb) as [[u|e] sc];
      cbn [snd] in *; by rewrite Hcl, app_nil_r.
  - unfold bind, handleError, modify, throw, ret.
    cbn [ErrorHandler.handleError fst snd].
    destruct (_ || _); [|destruct (ErrorHandler.shouldStopWorkflow _)];
      match goal with
      | |- context [cleanup w ?s] =>
          specialize (Hcl s); destruct (cleanup w s) as [[u|e'] sc]
      end; cbn [snd] in *; by rewrite Hcl.
Qed.

(** The body of [execute] when start-up succeeds. *)
Lemma executeBody_started (w : World) (configPath : string)
  (slackWebhook : option string) (config : Config) (debugUrl : string) :
  loadConfig w = Ok config -> launch w = Ok debugUrl -> connect w = Ok tt ->
  exists s3,
    executeBody w (initialize configPath slackWebhook)
      = processMonitoringTargets w (targets config) s3 /\
    trace s3 = [EvLoadConfig configPath; EvLaunch; EvConnect] /\
    results s3 = [] /\ Workflow.errors s3 = [] /\
    handler s3 = ErrorHandler.initial /\ Workflow.configPath s3 = configPath.
Proof.
  intros Hl Hla Hco. unfold executeBody, bind, call. rewrite Hl, Hla, Hco.
  cbn [Workflow.configPath Workflow.slackWebhook emit initialize].
  destruct (negb (truthyOpt slackWebhook)); [|by eexists].
  destruct (slack_webhook config) as [hook|]; [|by eexists].
  destruct (Str.truthy hook); by eexists.
Qed.

End SessionFacts.

Module TeardownFacts.
Import ChangeDetector Workflow Runs RunEvents Summary.

Lemma targetsLoop_teardown (c r : bool) (d t : Res unit) (w : World)
  (targets : list Entry) :
  forall index changes st,
    targetsLoop (withTeardown c r d t w) index targets changes st
    = targetsLoop w index targets changes st.
Proof.
  induction targets as [|entry rest IH]; intros index changes st; [done|].
  cbn [targetsLoop].
  change (processMonitoringTarget (withTeardown c r d t w) index entry st)
    with (processMonitoringTarget w index entry st).
  destruct (processMonitoringTarget w index entry st) as [[result|error] st1].
  - apply IH.
  - destruct (recordTargetFailure entry error st1) as [[[|]|e] st2]; [done| |done].
    apply IH.
Qed.

Lemma notifyLoop_teardown (c r : bool) (d t : Res unit) (w : World)
  (changes : list ChangeRecord) :
  forall index sc fc st,
    notifyLoop (withTeardown c r d t w) index changes sc fc st
    = notifyLoop w index changes sc fc st.
Proof.
  induction changes as [|change rest IH]; intros index sc fc st; [done|].
  cbn [notifyLoop]. unfold bind, tryCatch, call, modify, ret, handleError.
  change (sendChangeNotification (withTeardown c r d t w) index)
    with (sendChangeNotification w index).
  destruct (sendChangeNotification w index) as [[|]|e];
    cbn [ErrorHandler.handleError fst snd]; apply IH.
Qed.

Lemma executeBody_teardown (c r : bool) (d t : Res unit) (w : World) (st : State) :
  executeBody (withTeardown c r d t w) st = executeBody w st.
Proof.
  unfold executeBody, bind, call.
  change (loadConfig (withTeardown c r d t w)) with (loadConfig w).
  change (launch (withTeardown c r d t w)) with (launch w).
  change (connect (withTeardown c r d t w)) with (connect w).
  destruct (loadConfig w) as [config|e]; [|done].
  match goal with
  | |- (let (_, _) := ?m in _) = _ => destruct m as [[u|e] st1]
  end; [|done].
  destruct (launch w) as [u1|e]; [|done].
  destruct (connect w) as [u2|e]; [|done].
  unfold processMonitoringTargets, bind. rewrite targetsLoop_teardown.
  destruct (targetsLoop w 0 (targets config) [] _) as [[changes|e] st2]; [|done].
  unfold notifyAndPersist, bind, sendNotificationsForChanges, ret.
  destruct (_ && _); [|done]. by rewrite notifyLoop_teardown.
Qed.

End TeardownFacts.

Import ChangeDetector Workflow Runs RunEvents Summary.

(** X4: [execute] rethrows the error that stopped its body exactly when the
    classifier, in the context of [execute], rates it CRITICAL (the test for
    configuration and Chrome errors adds nothing: both are CRITICAL);
    otherwise it returns. Either way it records the error once more in
    [session.errors], runs the cleanup and leaves the results alone. *)
Theorem execute_rethrows_critical (w : World) (st : State) :
  fst (execute w st) =
    match fst (executeBody w st) with
    | Ok _ => Ok tt
    | Throw e =>
        if ErrorHandler.shouldStopWorkflow
             (ErrorHandler.categorizeError e executeContext)
        then Throw e else Ok tt
    end /\
  Workflow.errors (snd (execute w st)) =
    (Workflow.errors (snd (executeBody w st)) ++
     match fst (executeBody w st) with
     | Ok _ => []
     | Throw e => [sessionErrorOf executeContext e]
     end)%list /\
  results (snd (execute w st)) = results (snd (executeBody w st)).
Proof.
  split; [apply SessionFacts.execute_outcome|].
  destruct (RunFacts.execute_frame w st) as (_ & Hr & He). done.
Qed.

(** X5: after every run [session.errors] mirrors the session errors of the
    workflow's error handler, entry by entry (type, severity and error); so
    the summary's error count is the handler's [totalErrors], its critical
    count is at most its error count, and it reports success exactly when
    the handler saw no error. *)
Theorem session_errors_mirror_handler (w : World) (configPath : string)
  (slackWebhook : option string) :
  let st := snd (run w configPath slackWebhook) in
  let summary := getSessionSummary st in
  sessionView <$> Workflow.errors st
    = handlerView <$> ErrorHandler.sessionErrors (handler st) /\
  Summary.errors summary = ErrorStats.totalErrors (ErrorStats.getErrorStats (handler st)) /\
  Summary.criticalErrors summary <= Summary.errors summary /\
  success summary = Nat.eqb (List.length (ErrorHandler.sessionErrors (handler st))) 0.
Proof.
  intros st summary.
  assert (inStep st) as Hin by (by apply SessionFacts.keeps_execute).
  assert (List.length (Workflow.errors st)
          = List.length (ErrorHandler.sessionErrors (handler st))) as Hlen.
  { apply (f_equal List.length) in Hin. by rewrite !length_fmap in Hin. }
  split; [exact Hin|]. subst summary. unfold getSessionSummary. cbn.
  split; [done|]. split; [|by rewrite Hlen].
  rewrite Hlen.
  pose proof (ClassifierFacts.buckets_partition
                (ErrorHandler.sessionErrors (handler st))). lia.
Qed.

(** X6: the exit code of the tool is 1 exactly when the workflow's error
    handler counts at least one CRITICAL error, whether [execute] returned
    or threw: a run that throws always has such an error on record. *)
Theorem exit_code_reflects_critical (w : World) (configPath : string)
  (slackWebhook : option string) :
  let st := snd (run w configPath slackWebhook) in
  exitCode w configPath slackWebhook =
    (if (0 <? ErrorStats.criticalErrors (ErrorStats.getErrorStats (handler st)))%nat
     then 1 else 0) /\
  match fst (run w configPath slackWebhook) with
  | Throw _ => 1 <= ErrorStats.criticalErrors (ErrorStats.getErrorStats (handler st))
  | Ok _ => True
  end.
Proof.
  intros st. unfold exitCode.
  assert (match fst (run w configPath slackWebhook) with
          | Throw _ => 1 <= ErrorStats.criticalErrors
                             (ErrorStats.getErrorStats (handler st))
          | Ok _ => True
          end) as Hthrow.
  { subst st. unfold run.
    rewrite (SessionFacts.execute_outcome w (initialize configPath slackWebhook)).
    unfold ErrorStats.getErrorStats. cbn [ErrorStats.criticalErrors].
    rewrite (SessionFacts.execute_handler w (initialize configPath slackWebhook)).
    destruct (fst (executeBody w (initialize configPath slackWebhook)))
      as [u|e]; [done|].
    destruct (ErrorHandler.shouldStopWorkflow _) eqn:Hstop; [|done].
    rewrite ClassifierFacts.countSeverity_app, ClassifierFacts.countSeverity_one.
    cbn [ErrorHandler.categorized].
    unfold ErrorHandler.shouldStopWorkflow in Hstop.
    apply bool_decide_eq_true in Hstop. rewrite decide_True by done. lia. }
  split; [|exact Hthrow].
  subst st. destruct (run w configPath slackWebhook) as [[u|e] st]; cbn [fst snd] in *.
  - done.
  - destruct (0 <? _)%nat eqn:Hz; [done|]. apply Nat.ltb_ge in Hz. lia.
Qed.

(** X9: [execute] ends with the cleanup, once, whatever its body did: the
    events of the run are those of the body followed by those of the
    cleanup; and what the teardown calls answer, failure included, changes
    neither what [execute] returns or throws nor the results and errors it
    records. *)
Theorem cleanup_always_last (w : World) (st : State)
  (connected running : bool) (d t : Res unit) :
  let w' := withTeardown connected running d t w in
  trace (snd (execute w st))
    = (trace (snd (executeBody w st)) ++ cleanupEvents w)%list /\
  fst (execute w' st) = fst (execute w st) /\
  results (snd (execute w' st)) = results (snd (execute w st)) /\
  Workflow.errors (snd (execute w' st)) = Workflow.errors (snd (execute w st)).
Proof.
  intros w'.
  destruct (RunFacts.execute_frame w st) as (Ht & Hr & He).
  destruct (RunFacts.execute_frame w' st) as (_ & Hr' & He').
  split; [done|].
  rewrite !SessionFacts.execute_outcome, Hr, Hr', He, He'.
  subst w'. by rewrite !TeardownFacts.executeBody_teardown.
Qed.

Module NotifyFacts.
Import ChangeDetector Workflow Runs RunEvents Summary.

(** The counters and the errors of the notification loop. *)
Lemma notifyLoop_account (w : World) (changes : list ChangeRecord) :
  forall index sc fc st,
    let n := List.length changes in
    let a := acceptedNotifications w index n in
    fst (notifyLoop w index changes sc fc st) = Ok (sc + a, fc + (n - a)) /\
    a <= n /\
    List.length (Workflow.errors (snd (notifyLoop w index changes sc fc st)))
      = List.length (Workflow.errors st) + thrownNotifications w index n /\
    (thrownNotifications w index n = 0 ->
     Workflow.errors (snd (notifyLoop w index changes sc fc st)) = Workflow.errors st /\
     handler (snd (notifyLoop w index changes sc fc st)) = handler st).
Proof.
  induction changes as [|change rest IH]; intros index sc fc st.
  { cbn. rewrite !Nat.add_0_r. repeat split; done. }
  cbn [notifyLoop List.length acceptedNotifications thrownNotifications].
  unfold bind, tryCatch, call, modify, ret, handleError.
  destruct (sendChangeNotification w index) as [[|]|e];
    cbn [ErrorHandler.handleError fst snd].
  - destruct (IH (S index) (S sc) fc
                (emit [EvNotified change] (emit [EvNotify change] st)))
      as (Hr & Hle & Hlen & Hnone).
    rewrite Hr, Hlen. cbn [Workflow.errors emit].
    split; [f_equal; f_equal; lia|]. split; [lia|]. split; [done|].
    intros H0. by destruct (Hnone H0).
  - destruct (IH (S index) sc (S fc)
                (emit [EvNotified change] (emit [EvNotify change] st)))
      as (Hr & Hle & Hlen & Hnone).
    rewrite Hr, Hlen. cbn [Workflow.errors emit].
    split; [f_equal; f_equal; lia|]. split; [lia|]. split; [done|].
    intros H0. by destruct (Hnone H0).
  - match goal with
    | |- context [notifyLoop w (S index) rest sc (S fc) ?s] =>
        destruct (IH (S index) sc (S fc) s) as (Hr & Hle & Hlen & Hnone)
    end.
    rewrite Hr, Hlen. cbn [Workflow.errors emit pushError setHandler].
    rewrite length_app. cbn [List.length].
    split; [f_equal; f_equal; lia|]. split; [lia|]. split; [lia|]. done.
Qed.

End NotifyFacts.

(** X7: [sendNotificationsForChanges] never throws and attempts every
    change of the batch once, in order; the two counters of its summary
    line add up to the size of the batch; it records one session error for
    each notification call that throws, and when none throws (as with a
    notifier that reports failure by returning false) it leaves
    [session.errors] and the error handler untouched. *)
Theorem notifications_account (w : World) (changes : list ChangeRecord)
  (st : State) :
  let st' := snd (sendNotificationsForChanges w changes st) in
  let n := List.length changes in
  (exists sent failed,
      fst (sendNotificationsForChanges w changes st) = Ok (sent, failed) /\
      sent = acceptedNotifications w 0 n /\ sent + failed = n) /\
  trace st' = (trace st ++ notifyEvents changes)%list /\
  List.length (Workflow.errors st')
    = List.length (Workflow.errors st) + thrownNotifications w 0 n /\
  (if Nat.eqb (thrownNotifications w 0 n) 0
   then Workflow.errors st' = Workflow.errors st /\ handler st' = handler st
   else True).
Proof.
  intros st' n. unfold sendNotificationsForChanges in *.
  destruct (NotifyFacts.notifyLoop_account w changes 0 0 0 st)
    as (Hr & Hle & Hlen & Hnone).
  destruct (StepFacts.notifyLoop_spec w changes 0 0 0 st) as (_ & Ht & _).
  fold n in Hr, Hle, Hlen, Hnone.
  split.
  { eexists _, _. split; [exact Hr|]. split; [done|]. cbn. lia. }
  split; [done|]. split; [done|].
  destruct (Nat.eqb _ 0) eqn:Hz; [|done]. apply Nat.eqb_eq in Hz. by apply Hnone.
Qed.

Module StartFacts.
Import ChangeDetector Workflow Runs RunEvents Summary.


End StartFacts.



(** X10: when start-up succeeds and the failure of a target is classified
    CRITICAL, the run throws that very error: the classification that
    stopped the loop is CRITICAL in the context of [execute] too. The
    results hold one record for each target up to and including the failing
    one, nothing is notified or persisted, and the exit code is 1. *)
Theorem critical_target_failure_aborts_run (w : World) (configPath : string)
  (slackWebhook : option string) (config : Config) (debugUrl : string) (k : nat) :
  loadConfig w = Ok config -> launch w = Ok debugUrl -> connect w = Ok tt ->
  firstCritical w 0 (targets config) = Some k ->
  let st := snd (run w configPath slackWebhook) in
  (exists entry e,
      targets config !! k = Some entry /\
      targetOutcome w k entry = Throw e /\
      fst (run w configPath slackWebhook) = Throw e) /\
  List.length (results st) = k + 1 /\ quiet (trace st) /\
  exitCode w configPath slackWebhook = 1.
Proof.
  intros Hl Hla Hco Hfc st.
  destruct (SessionFacts.executeBody_started w configPath slackWebhook config
              debugUrl Hl Hla Hco) as (s3 & Hb & Ht3 & Hr3 & _).
  destruct (LoopFacts.targetsLoop_spec w (targets config) 0 [] s3)
    as (Hk & (evs & Hevs & Hq) & _).
  rewrite Hfc in Hk. destruct Hk as ((entry & e & Hlk & Ho & Hsev & Hr) & Hlen).
  assert (executeBody w (initialize configPath slackWebhook)
          = (Throw e, snd (targetsLoop w 0 (targets config) [] s3))) as Hbody.
  { rewrite Hb. unfold processMonitoringTargets.
    by rewrite (StepFacts.bind_throw _ _ _ e). }
  assert (fst (run w configPath slackWebhook) = Throw e) as Hrun.
  { unfold run. rewrite SessionFacts.execute_outcome, Hbody. cbn [fst].
    destruct (ClassifierFacts.categorize_context e targetContext executeContext
                eq_refl) as (Hs & _).
    unfold ErrorHandler.shouldStopWorkflow.
    rewrite bool_decide_eq_true_2; [done|]. by rewrite <- Hs. }
  destruct (RunFacts.execute_frame w (initialize configPath slackWebhook))
    as (Ht & Hres & _).
  split; [by exists entry, e|].
  subst st. unfold run in *. rewrite Hres, Ht, Hbody. cbn [snd].
  rewrite Hlen, Hr3, Hevs, Ht3. cbn [List.length].
  split; [lia|]. split.
  - apply LoopFacts.quiet_app; [|apply StepFacts.quiet_cleanupEvents].
    apply LoopFacts.quiet_app; [repeat constructor|done].
  - unfold exitCode, run.
    destruct (execute w (initialize configPath slackWebhook)) as [[u|e'] s];
      [discriminate Hrun|done].
Qed.

Lemma critical_target_failure_aborts_run_witness :
  let w := Samples.lastTargetCritical in
  (exists e, fst (run w "input.json" None) = Throw e) /\
  List.length (results (snd (run w "input.json" None))) = 2 /\
  exitCode w "input.json" None = 1.
Proof.
  intros w.
  destruct (critical_target_failure_aborts_run w "input.json" None
              (mkConfig [Samples.price; Samples.title] None)
              "ws://127.0.0.1:9222" 1)
    as ((entry & e & _ & _ & Hrun) & Hlen & _ & Hexit); try reflexivity.
  split; [by exists e|]. split; [exact Hlen|exact Hexit].
Defined.

(** ** Trimming and comparison *)

(** X11: for [detectChange], being unchanged is an equivalence on values:
    every value is unchanged against itself, the answer does not depend on
    which of the two values is the stored one, and two values that are both
    unchanged against a third are unchanged against each other. The answer
    is the same for a string and for the string trimmed, so the trimming
    that [extractTextContent] does beforehand never alters it. *)
Theorem unchanged_is_equivalence :
  (forall a, ChangeDetector.detectChange a a = false) /\
  (forall a b, ChangeDetector.detectChange a b = ChangeDetector.detectChange b a) /\
  (forall a b c,
      ChangeDetector.detectChange a b || ChangeDetector.detectChange b c = false ->
      ChangeDetector.detectChange a c = false) /\
  (forall s v,
      ChangeDetector.detectChange (ChangeDetector.JString (Str.trim s)) v
      = ChangeDetector.detectChange (ChangeDetector.JString s) v).
Proof.
  split; [apply CompareFacts.detectChange_refl|].
  split.
  { intros a b. unfold ChangeDetector.detectChange.
    destruct (ChangeDetector.isNullish a), (ChangeDetector.isNullish b); cbn;
      try done.
    by rewrite String.eqb_sym. }
  split.
  { intros a b c Hab. apply orb_false_iff in Hab as [Hab Hbc]. revert Hab Hbc.
    unfold ChangeDetector.detectChange.
    destruct (ChangeDetector.isNullish a), (ChangeDetector.isNullish b),
      (ChangeDetector.isNullish c); cbn; try done.
    rewrite !negb_false_iff, !String.eqb_eq. congruence. }
  intros s v. unfold ChangeDetector.detectChange.
  cbn [ChangeDetector.isNullish ChangeDetector.toString andb orb].
  by rewrite TrimFacts.trim_idem.
Qed.

(** ** A round of monitoring and the state update *)

Module RoundFacts.
Import StateManager Stores Rounds.

Lemma storeOf_lookup (targets : list Entry) (l : loc) :
  storeOf targets !! l = targets !! (l : nat).
Proof. apply lookup_map_seq_0. Qed.

Lemma live_addresses (targets : list Entry) :
  liveTargets (storeOf targets) (addresses targets).
Proof.
  apply Forall_forall. intros l Hl. apply elem_of_seq in Hl.
  rewrite storeOf_lookup. apply lookup_lt_is_Some. lia.
Qed.

(** The members of the batch. *)
Lemma elem_of_roundChanges (targets : list Entry) (values : list string)
  (c : Change) :
  c ∈ roundChanges targets values <->
  exists (i : nat) e v,
    targets !! i = Some e /\ values !! i = Some v /\
    c = changeAt i (ChangeDetector.processEntry e v) /\
    ChangeDetector.hasChanged (ChangeDetector.processEntry e v) = true.
Proof.
  unfold roundChanges, roundResults.
  rewrite list_elem_of_filter, elem_of_lookup_imap. split.
  - intros (Hc & i & r & -> & Hr).
    apply lookup_zip_with_Some in Hr as (e & v & -> & He & Hv).
    by exists i, e, v.
  - intros (i & e & v & He & Hv & -> & Hc). split; [done|].
    exists i, (ChangeDetector.processEntry e v). split; [done|].
    apply lookup_zip_with_Some. by exists e, v.
Qed.

Lemma live_roundChanges (targets : list Entry) (values : list string) :
  liveChanges (storeOf targets) (roundChanges targets values).
Proof.
  apply Forall_forall. intros c Hc l Hl.
  apply elem_of_roundChanges in Hc as (i & e & v & He & _ & -> & _).
  cbn in Hl. injection Hl as <-. by rewrite storeOf_lookup, He.
Qed.

Lemma effective_changeAt (targets : list Entry) (i : nat) (e : Entry)
  (r : ChangeDetector.ChangeRecord) :
  targets !! i = Some e ->
  effective (storeOf targets) (changeAt i r) =
    if ChangeDetector.hasChanged r
    then Some (keyOf e, ChangeDetector.newValue r) else None.
Proof.
  intros He. unfold effective, changeAt. cbn.
  by rewrite storeOf_lookup, He.
Qed.

Lemma lastChangeFor_elem (σ : gmap loc Entry) (changes : list Change)
  (k v : string) :
  lastChangeFor σ changes k = Some v ->
  exists c, c ∈ changes /\ effective σ c = Some (k, v).
Proof.
  induction changes as [|c rest IH]; [done|]. cbn [lastChangeFor].
  destruct (lastChangeFor σ rest k) as [v'|].
  - intros [= <-]. destruct (IH eq_refl) as (c' & Hin & He).
    exists c'. split; [by apply list_elem_of_further|done].
  - destruct (effective σ c) as [[k' v']|] eqn:He; [|done].
    destruct (decide (k' = k)) as [->|]; [|done]. intros [= <-].
    exists c. split; [apply list_elem_of_here|done].
Qed.

Lemma lastChangeFor_some (σ : gmap loc Entry) (changes : list Change)
  (c : Change) (k v : string) :
  c ∈ changes -> effective σ c = Some (k, v) ->
  is_Some (lastChangeFor σ changes k).
Proof.
  induction changes as [|c' rest IH]; intros Hin He.
  { by apply elem_of_nil in Hin. }
  cbn [lastChangeFor]. destruct (lastChangeFor σ rest k) as [v'|] eqn:Hl; [done|].
  apply elem_of_cons in Hin as [<-|Hin].
  - rewrite He. by rewrite decide_True.
  - destruct (IH Hin He) as [? ?]. done.
Qed.

(** With distinct keys, the batch holds for the key of a target the value
    its page showed, if that was a change, and nothing otherwise. *)
Lemma lastChangeFor_round (targets : list Entry) (values : list string)
  (i : nat) (e : Entry) :
  NoDup (keyOf <$> targets) -> targets !! i = Some e ->
  lastChangeFor (storeOf targets) (roundChanges targets values) (keyOf e) =
    match values !! i with
    | Some v =>
        if ChangeDetector.hasChanged (ChangeDetector.processEntry e v)
        then Some v else None
    | None => None
    end.
Proof.
  intros Hnd He.
  assert (forall c v',
             c ∈ roundChanges targets values ->
             effective (storeOf targets) c = Some (keyOf e, v') ->
             values !! i = Some v' /\
             ChangeDetector.hasChanged (ChangeDetector.processEntry e v') = true)
    as Hown.
  { intros c v' Hin Hef.
    apply elem_of_roundChanges in Hin as (j & ej & vj & Hej & Hvj & -> & Hch).
    rewrite (effective_changeAt _ _ _ _ Hej), Hch in Hef. cbn in Hef.
    injection Hef as Hk <-.
    assert (j = i) as ->.
    { apply (NoDup_lookup _ j i (keyOf e) Hnd); rewrite list_lookup_fmap.
      - rewrite Hej. cbn. by rewrite Hk.
      - by rewrite He. }
    rewrite He in Hej. by injection Hej as <-. }
  destruct (lastChangeFor (storeOf targets) (roundChanges targets values) (keyOf e))
    as [v'|] eqn:Hl.
  - apply lastChangeFor_elem in Hl as (c & Hin & Hef).
    destruct (Hown c v' Hin Hef) as [-> ->]. done.
  - destruct (values !! i) as [v|] eqn:Hv; [|done].
    destruct (ChangeDetector.hasChanged (ChangeDetector.processEntry e v)) eqn:Hch;
      [|done].
    assert (is_Some (lastChangeFor (storeOf targets) (roundChanges targets values)
                       (keyOf e))) as [? Hs].
    { eapply (lastChangeFor_some _ _ (changeAt i (ChangeDetector.processEntry e v))).
      - apply elem_of_roundChanges. by exists i, e, v.
      - by rewrite (effective_changeAt _ _ _ _ He), Hch. }
    congruence.
Qed.

(** The array of all targets, read through the store. *)
Lemma contents_addresses (targets : list Entry) (f : Entry -> Entry) :
  (fun l => f <$> storeOf targets !! l) <$> addresses targets
  = Some <$> (f <$> targets).
Proof.
  apply list_eq. intros i. unfold addresses. rewrite !list_lookup_fmap.
  destruct (decide (i < List.length targets)) as [Hlt|Hge].
  - rewrite lookup_seq_lt by done. cbn. rewrite storeOf_lookup.
    destruct (lookup_lt_is_Some_2 targets i Hlt) as [e He]. by rewrite He.
  - rewrite lookup_seq_ge by lia. by rewrite lookup_ge_None_2 by lia.
Qed.

End RoundFacts.

(** X12: monitoring settles. Take targets with pairwise distinct keys (as
    [validateTargetsArray] demands), let each page show some value, compare
    with [processEntry] and hand the changes to [updateConfigValues]: the
    update succeeds, keeps the keys, and a second round over the updated
    targets in which the pages show the same values detects no change. *)
Theorem update_settles_detection (targets : list Entry) (values : list string) :
  NoDup (StateManager.keyOf <$> targets) ->
  exists σ2 updated targets',
    StateManager.updateConfigValues (Rounds.storeOf targets)
      (Rounds.addresses targets) (Rounds.roundChanges targets values)
      = Some (σ2, updated) /\
    StateManager.contents σ2 updated = Some <$> targets' /\
    StateManager.keyOf <$> targets' = StateManager.keyOf <$> targets /\
    Forall (fun r => ChangeDetector.hasChanged r = false)
      (Rounds.roundResults targets' values) /\
    Rounds.roundChanges targets' values = [].
Proof.
  intros Hnd.
  destruct (StateFacts.updateConfigValues_spec (Rounds.storeOf targets)
              (Rounds.addresses targets) (Rounds.roundChanges targets values)
              (RoundFacts.live_addresses targets)
              (RoundFacts.live_roundChanges targets values))
    as (σ2 & updated & Hup & _ & _ & Hc).
  set (σ := Rounds.storeOf targets) in *.
  set (changes := Rounds.roundChanges targets values) in *.
  exists σ2, updated, (StateManager.updatedEntry σ changes <$> targets).
  split; [done|].
  split.
  { rewrite Hc. apply RoundFacts.contents_addresses. }
  split.
  { rewrite <- list_fmap_compose. apply list_fmap_ext. intros i e _. cbn.
    unfold StateManager.updatedEntry.
    destruct (StateManager.lastChangeFor σ changes (StateManager.keyOf e)); [|done].
    apply StateFacts.keyOf_setCurrentValue. }
  assert (Forall (fun r => ChangeDetector.hasChanged r = false)
            (Rounds.roundResults (StateManager.updatedEntry σ changes <$> targets)
               values)) as Hall.
  { apply Forall_lookup. intros i r Hr. unfold Rounds.roundResults in Hr.
    apply lookup_zip_with_Some in Hr as (e' & v & -> & He' & Hv).
    rewrite list_lookup_fmap in He'.
    destruct (targets !! i) as [e|] eqn:He; [|done]. cbn in He'.
    injection He' as <-. unfold StateManager.updatedEntry. subst σ changes.
    rewrite (RoundFacts.lastChangeFor_round targets values i e Hnd He), Hv.
    destruct (ChangeDetector.hasChanged (ChangeDetector.processEntry e v)) eqn:Hch;
      [|done].
    apply (CompareFacts.detectChange_refl (ChangeDetector.JString v)). }
  split; [done|].
  apply elem_of_nil_inv. intros c Hin.
  apply RoundFacts.elem_of_roundChanges in Hin as (i & e & v & He & Hv & _ & Hch).
  rewrite Forall_lookup in Hall.
  specialize (Hall i (ChangeDetector.processEntry e v)).
  rewrite Hall in Hch; [done|].
  unfold Rounds.roundResults. apply lookup_zip_with_Some. by exists e, v.
Qed.

Lemma update_settles_detection_witness :
  exists σ2 updated targets',
    StateManager.updateConfigValues (Rounds.storeOf [Samples.price; Samples.title])
      [0; 1] (Rounds.roundChanges [Samples.price; Samples.title] ["$18.49"; " Name "])
      = Some (σ2, updated) /\
    StateManager.contents σ2 updated = Some <$> targets' /\
    Rounds.roundChanges targets' ["$18.49"; " Name "] = [].
Proof.
  destruct (update_settles_detection [Samples.price; Samples.title]
              ["$18.49"; " Name "]) as (σ2 & updated & targets' & H1 & H2 & _ & _ & H3).
  { apply (bool_decide_unpack _). by vm_compute. }
  by exists σ2, updated, targets'.
Defined.

(** ** The fetch step *)

Module FetchFacts.
Import Str ErrorHandler PageMonitor Routing Fetch StrFacts.

(** [handleNavigationError] always makes a plain [Error] with a non-empty
    message. *)
Lemma handleNavigationError_shape (error : Err) (url selector : string) :
  name (handleNavigationError error url selector) = "Error" /\
  truthy (message (handleNavigationError error url selector)) = true.
Proof.
  unfold handleNavigationError.
  repeat match goal with
         | |- context [if ?b then _ else _] => destruct b
         end; done.
Qed.

Lemma extractTextContent_trimmed (pw : PageWorld) (selector v : string) :
  extractTextContent pw selector = Ok v ->
  truthy selector = true /\
  exists t, pageTextContent pw = Ok (Some t) /\ v = trim t.
Proof.
  unfold extractTextContent, extractTextContentBody.
  destruct (truthy selector); [|done]. cbn.
  destruct (pageTextContent pw) as [[t|]|e]; [|done..].
  intros [= <-]. split; [done|]. by exists t.
Qed.

Lemma waitForSelector_ok (pw : PageWorld) (selector : string) (timeout : N) :
  truthy selector = true ->
  (waitForSelector pw selector timeout = Ok tt <-> pageWaitForSelector pw = Ok true) /\
  (forall u, waitForSelector pw selector timeout = Ok u -> u = tt).
Proof.
  intros Hs. unfold waitForSelector, waitForSelectorBody. rewrite Hs. cbn.
  destruct (pageWaitForSelector pw) as [[|]|e].
  - split; [done|]. by intros [].
  - split; [|done]. by destruct (String.eqb _ _).
  - split; [|by destruct (String.eqb _ _)].
    by destruct (String.eqb _ _).
Qed.

(** The failure for an element that is not there. *)
Lemma missing_element_thrown (pw : PageWorld) (url selector : string)
  (st : State) :
  truthy url = true -> truthy selector = true -> plain selector = true ->
  goto pw = Ok tt -> pageWaitForSelector pw = Ok false ->
  fst (navigateAndExtract pw url selector st)
    = Throw (newError (missingElementMessage url selector)).
Proof.
  intros Hu Hs Hp Hg Hw.
  unfold navigateAndExtract, navigateAndExtractBody, waitForSelector,
    waitForSelectorBody.
  rewrite Hu, Hs, Hg. simpl. rewrite Hw. simpl.
  rewrite RoutingFacts.pretty_defaultTimeout.
  rewrite RoutingFacts.handleNavigationError_generic; [done|done|done|..];
    cbn [message newError];
    change (?a +:+ dq +:+ selector +:+ dq +:+ ": "
            +:+ "Element with selector " +:+ dq +:+ selector +:+ dq
            +:+ " not found within " +:+ "10000" +:+ "ms")
      with (a +:+ dq +:+ selector +:+ dq +:+ ": Element with selector "
            +:+ dq +:+ selector +:+ dq +:+ " not found within 10000ms");
    RoutingFacts.occurs Hp Hp.
Qed.

(** The failure for an element without text. *)
Lemma no_text_thrown (pw : PageWorld) (url selector : string) (st : State) :
  truthy url = true -> truthy selector = true -> plain selector = true ->
  goto pw = Ok tt -> pageWaitForSelector pw = Ok true ->
  pageTextContent pw = Ok None ->
  fst (navigateAndExtract pw url selector st)
    = Throw (newError (noTextMessage url selector)).
Proof.
  intros Hu Hs Hp Hg Hw Ht.
  unfold navigateAndExtract, navigateAndExtractBody, waitForSelector,
    waitForSelectorBody, extractTextContent, extractTextContentBody.
  rewrite Hu, Hs, Hg. simpl. rewrite Hw, Ht. simpl.
  unfold handleNavigationError. cbn [name message newError].
  change (String.eqb "Error" "TimeoutError") with false. cbn iota.
  rewrite orElse_truthy by reflexivity.
  change (?a +:+ dq +:+ selector +:+ dq +:+ ": "
          +:+ "No text content found for selector " +:+ dq +:+ selector +:+ dq)
    with (a +:+ dq +:+ selector +:+ dq
          +:+ ": No text content found for selector " +:+ dq +:+ selector
          +:+ dq +:+ "").
  replace (includes _ "net::ERR_") with false
    by (symmetry; RoutingFacts.occurs Hp Hp).
  replace (includes _ "Invalid CSS selector") with false
    by (symmetry; RoutingFacts.occurs Hp Hp).
  replace (includes _ "No text content found") with true; [done|].
  symmetry. rewrite !includes_dq by reflexivity.
  change (includes ": No text content found for selector " "No text content found")
    with true.
  by rewrite !orb_true_r.
Qed.

(** Both messages are classified as element-extraction failures outside the
    configuration context. *)
Lemma missing_element_classified (url selector : string) (ctx : Context) :
  plain url = true -> plain selector = true ->
  String.eqb (ctype ctx) "config" = false ->
  let c := categorizeError (newError (missingElementMessage url selector)) ctx in
  type c = EXTRACTION_ERROR /\ severity c = MEDIUM /\
  userMessage c = "The specified CSS selector was not found on the page.".
Proof.
  intros Hu Hs Hc c. subst c.
  rewrite RoutingFacts.categorize_extraction;
    cbn [message newError type severity userMessage];
    rewrite ?orElse_truthy by reflexivity; unfold missingElementMessage.
  - split; [done|]. split; [done|]. unfold getExtractionErrorMessage.
    replace (includes _ "selector") with true.
    2:{ symmetry. rewrite !includes_dq by reflexivity.
        change (includes " with selector " "selector") with true.
        by rewrite !orb_true_r. }
    replace (includes _ "not found") with true; [done|].
    symmetry. rewrite !includes_dq by reflexivity.
    change (includes " not found within 10000ms" "not found") with true.
    by rewrite !orb_true_r.
  - unfold isConfigError. rewrite Hc, andb_false_r.
    replace (includes _ "Configuration") with false
      by (symmetry; RoutingFacts.occurs Hu Hs).
    replace (includes _ "Invalid JSON") with false
      by (symmetry; RoutingFacts.occurs Hu Hs).
    replace (includes _ "Missing required field") with false
      by (symmetry; RoutingFacts.occurs Hu Hs).
    replace (includes _ "Config load failed") with false
      by (symmetry; RoutingFacts.occurs Hu Hs).
    done.
  - unfold isChromeError.
    replace (includes _ "Chrome") with false by (symmetry; RoutingFacts.occurs Hu Hs).
    done.
  - unfold isBrowserError.
    replace (includes _ "connect") with false by (symmetry; RoutingFacts.occurs Hu Hs).
    replace (includes _ "CDP") with false by (symmetry; RoutingFacts.occurs Hu Hs).
    replace (includes _ "browser") with false by (symmetry; RoutingFacts.occurs Hu Hs).
    done.
  - unfold isPageError.
    replace (includes _ "Navigation") with false
      by (symmetry; RoutingFacts.occurs Hu Hs).
    replace (includes _ "timeout") with false by (symmetry; RoutingFacts.occurs Hu Hs).
    replace (includes _ "net::ERR") with false by (symmetry; RoutingFacts.occurs Hu Hs).
    replace (includes _ "load") with false by (symmetry; RoutingFacts.occurs Hu Hs).
    done.
  - unfold isExtractionError.
    rewrite !includes_dq by reflexivity.
    change (includes " with selector " "selector") with true.
    by rewrite !orb_true_r.
Qed.

Lemma no_text_classified (url selector : string) (ctx : Context) :
  plain url = true -> plain selector = true ->
  let c := categorizeError (newError (noTextMessage url selector)) ctx in
  type c = EXTRACTION_ERROR /\ severity c = MEDIUM /\
  userMessage c = "Failed to extract content from the page element.".
Proof.
  intros Hu Hs c. subst c.
  rewrite RoutingFacts.categorize_extraction;
    cbn [message newError type severity userMessage];
    rewrite ?orElse_truthy by reflexivity; unfold noTextMessage;
    change (url +:+ dq) with (url +:+ dq +:+ "").
  - split; [done|]. split; [done|]. unfold getExtractionErrorMessage.
    replace (includes _ "not found") with false
      by (symmetry; RoutingFacts.occurs Hu Hs).
    replace (includes _ "timeout") with false
      by (symmetry; RoutingFacts.occurs Hu Hs).
    by rewrite andb_false_r.
  - unfold isConfigError.
    replace (includes _ "Configuration") with false
      by (symmetry; RoutingFacts.occurs Hu Hs).
    replace (includes _ "Invalid JSON") with false
      by (symmetry; RoutingFacts.occurs Hu Hs).
    replace (includes _ "Missing required field") with false
      by (symmetry; RoutingFacts.occurs Hu Hs).
    replace (includes _ "Config load failed") with false
      by (symmetry; RoutingFacts.occurs Hu Hs).
    replace (includes _ "not found") with false
      by (symmetry; RoutingFacts.occurs Hu Hs).
    done.
  - unfold isChromeError.
    replace (includes _ "Chrome") with false by (symmetry; RoutingFacts.occurs Hu Hs).
    done.
  - unfold isBrowserError.
    replace (includes _ "connect") with false by (symmetry; RoutingFacts.occurs Hu Hs).
    replace (includes _ "CDP") with false by (symmetry; RoutingFacts.occurs Hu Hs).
    replace (includes _ "browser") with false by (symmetry; RoutingFacts.occurs Hu Hs).
    done.
  - unfold isPageError.
    replace (includes _ "Navigation") with false
      by (symmetry; RoutingFacts.occurs Hu Hs).
    replace (includes _ "timeout") with false by (symmetry; RoutingFacts.occurs Hu Hs).
    replace (includes _ "net::ERR") with false by (symmetry; RoutingFacts.occurs Hu Hs).
    replace (includes _ "load") with false by (symmetry; RoutingFacts.occurs Hu Hs).
    done.
  - unfold isExtractionError.
    rewrite !includes_dq by reflexivity.
    change (includes "No text content found for selector " "selector") with true.
    done.
Qed.

(** When the fetch succeeds. *)
Lemma navigateAndExtract_ok (pw : PageMonitor.PageWorld)
  (url selector : string) (st : ErrorHandler.State) (v : string) :
  fst (PageMonitor.navigateAndExtract pw url selector st) = Ok v <->
  Str.truthy url = true /\ Str.truthy selector = true /\
  PageMonitor.goto pw = Ok tt /\ PageMonitor.pageWaitForSelector pw = Ok true /\
  exists t, PageMonitor.pageTextContent pw = Ok (Some t) /\ v = Str.trim t.
Proof.
  unfold PageMonitor.navigateAndExtract, PageMonitor.navigateAndExtractBody.
  destruct (Str.truthy url) eqn:Hu; cbn [negb]; [|by split; [|intros (?&_)]].
  destruct (Str.truthy selector) eqn:Hs; cbn [negb];
    [|by split; [|intros (_&?&_)]].
  destruct (PageMonitor.goto pw) as [[]|e] eqn:Hg;
    [|by split; [|intros (_&_&?&_)]].
  destruct (PageMonitor.waitForSelector pw selector PageMonitor.defaultTimeout)
    as [u|e] eqn:Hws.
  2:{ split; [done|]. intros (_&_&_&Hp&_).
      apply (waitForSelector_ok pw selector PageMonitor.defaultTimeout Hs)
        in Hp. congruence. }
  assert (PageMonitor.pageWaitForSelector pw = Ok true) as Hp.
  { destruct (waitForSelector_ok pw selector
                PageMonitor.defaultTimeout Hs) as [Hw Hw'].
    apply Hw. rewrite Hws. f_equal. by apply Hw'. }
  destruct (PageMonitor.extractTextContent pw selector) as [x|e] eqn:He.
  - cbn. apply extractTextContent_trimmed in He as (_ & t & Ht & ->).
    split.
    + intros [= <-]. repeat split; try done. by exists t.
    + intros (_&_&_&_& t' & Ht' & ->). congruence.
  - cbn. split; [done|]. intros (_&_&_&_& t & Ht & _).
    unfold PageMonitor.extractTextContent, PageMonitor.extractTextContentBody in He.
    by rewrite Hs, Ht in He.
Qed.

End FetchFacts.

(** X13: [navigateAndExtract] returns a value exactly when the URL and
    the selector are non-empty, the navigation succeeds, the selector wait
    yields an element and the element has text; the value is that text
    trimmed. *)
Theorem fetch_succeeds_exactly_when (pw : PageMonitor.PageWorld)
  (url selector : string) (st : ErrorHandler.State) (v : string) :
  fst (PageMonitor.navigateAndExtract pw url selector st) = Ok v <->
  Str.truthy url = true /\ Str.truthy selector = true /\
  PageMonitor.goto pw = Ok tt /\ PageMonitor.pageWaitForSelector pw = Ok true /\
  exists t, PageMonitor.pageTextContent pw = Ok (Some t) /\ v = Str.trim t.
Proof. apply FetchFacts.navigateAndExtract_ok. Qed.

(** X14: what [navigateAndExtract] leaves behind. On success the value is
    trimmed (trimming it again changes nothing) and the monitor's error
    handler is untouched. On failure the error thrown is a plain [Error]
    with a non-empty message, never a [TimeoutError], and it is the last
    error the monitor's handler recorded, in the context of
    [navigateAndExtract]; the handler was called once, or twice when the URL
    or the selector is empty, since a validation error is handled where it
    is raised and again in the [catch]. *)
Theorem fetch_outcome_shape (pw : PageMonitor.PageWorld)
  (url selector : string) (st : ErrorHandler.State) :
  let ctx := ErrorHandler.mkContext "page" "navigateAndExtract" in
  let st' := snd (PageMonitor.navigateAndExtract pw url selector st) in
  match fst (PageMonitor.navigateAndExtract pw url selector st) with
  | Ok v => Str.trim v = v /\ st' = st
  | Throw e =>
      name e = "Error" /\ Str.truthy (message e) = true /\
      last (ErrorHandler.sessionErrors st')
        = Some (ErrorHandler.mkErrorRecord (ErrorHandler.categorizeError e ctx) ctx e) /\
      List.length (ErrorHandler.sessionErrors st')
        = List.length (ErrorHandler.sessionErrors st)
          + Fetch.handledTimes url selector
  end.
Proof.
  intros ctx st'. subst st'.
  destruct (fst (PageMonitor.navigateAndExtract pw url selector st)) as [v|e] eqn:Hr.
  - pose proof Hr as Hv.
    apply FetchFacts.navigateAndExtract_ok in Hv as (Hu & Hs & Hg & Hw & t & Ht & ->).
    split; [apply TrimFacts.trim_idem|].
    revert Hr. unfold PageMonitor.navigateAndExtract,
      PageMonitor.navigateAndExtractBody. rewrite Hu, Hs, Hg. cbn [negb].
    destruct (PageMonitor.waitForSelector _ _ _); [|done].
    by destruct (PageMonitor.extractTextContent _ _).
  - revert Hr. unfold PageMonitor.navigateAndExtract,
      PageMonitor.navigateAndExtractBody, Fetch.handledTimes.
    assert (forall e0 s,
               let h := PageMonitor.handleNavigationError e0 url selector in
               let s' := snd (ErrorHandler.handleError h ctx s) in
               name h = "Error" /\ Str.truthy (message h) = true /\
               last (ErrorHandler.sessionErrors s')
                 = Some (ErrorHandler.mkErrorRecord
                           (ErrorHandler.categorizeError h ctx) ctx h) /\
               List.length (ErrorHandler.sessionErrors s')
                 = List.length (ErrorHandler.sessionErrors s) + 1) as Hh.
    { intros e0 s h s'.
      destruct (FetchFacts.handleNavigationError_shape e0 url selector) as [Hn Hm].
      split; [done|]. split; [done|]. subst s'. cbn [ErrorHandler.handleError snd
        ErrorHandler.sessionErrors]. rewrite last_snoc, length_app. done. }
    destruct (Str.truthy url); cbn [negb andb].
    2:{ intros [= <-]. destruct (Hh (newError "Valid URL is required")
          (snd (ErrorHandler.handleError (newError "Valid URL is required")
                  PageMonitor.validationContext st))) as (?&?&?&Hl).
        repeat split; try done. etrans; [exact Hl|].
        cbn [ErrorHandler.handleError snd ErrorHandler.sessionErrors].
        rewrite length_app. cbn. lia. }
    destruct (Str.truthy selector); cbn [negb].
    2:{ intros [= <-]. destruct (Hh (newError "Valid CSS selector is required")
          (snd (ErrorHandler.handleError (newError "Valid CSS selector is required")
                  PageMonitor.validationContext st))) as (?&?&?&Hl).
        repeat split; try done. etrans; [exact Hl|].
        cbn [ErrorHandler.handleError snd ErrorHandler.sessionErrors].
        rewrite length_app. cbn. lia. }
    destruct (PageMonitor.goto pw) as [[]|e1].
    2:{ intros [= <-]. apply Hh. }
    destruct (PageMonitor.waitForSelector _ _ _) as [u|e1].
    2:{ intros [= <-]. apply Hh. }
    destruct (PageMonitor.extractTextContent _ _) as [x|e1]; [done|].
    intros [= <-]. apply Hh.
Qed.

(** X15: an element that is missing is not fatal. For a non-empty URL and
    selector that hold none of the substrings the classifier looks for, when
    the page loads but the selector wait answers no element, or the element
    has no text, [navigateAndExtract] throws an error that every context
    other than the configuration context classifies as an element-extraction
    failure of MEDIUM severity, so that the workflow goes on to the next
    target. *)
Theorem missing_element_is_not_fatal (pw : PageMonitor.PageWorld)
  (url selector : string) (st : ErrorHandler.State) (ctx : ErrorHandler.Context) :
  Str.truthy url = true -> Str.truthy selector = true ->
  Routing.plain url = true -> Routing.plain selector = true ->
  String.eqb (ErrorHandler.ctype ctx) "config" = false ->
  PageMonitor.goto pw = Ok tt ->
  PageMonitor.pageWaitForSelector pw = Ok false \/
  (PageMonitor.pageWaitForSelector pw = Ok true /\
   PageMonitor.pageTextContent pw = Ok None) ->
  exists e,
    fst (PageMonitor.navigateAndExtract pw url selector st) = Throw e /\
    message e = match PageMonitor.pageWaitForSelector pw with
                | Ok false => Fetch.missingElementMessage url selector
                | _ => Fetch.noTextMessage url selector
                end /\
    ErrorHandler.type (ErrorHandler.categorizeError e ctx)
      = ErrorHandler.EXTRACTION_ERROR /\
    ErrorHandler.severity (ErrorHandler.categorizeError e ctx) = ErrorHandler.MEDIUM /\
    ErrorHandler.shouldStopWorkflow (ErrorHandler.categorizeError e ctx) = false.
Proof.
  intros Hu Hs Hpu Hps Hc Hg [Hw|[Hw Ht]].
  - exists (newError (Fetch.missingElementMessage url selector)).
    destruct (FetchFacts.missing_element_classified url selector ctx Hpu Hps Hc)
      as (Hty & Hsev & _).
    split; [by apply FetchFacts.missing_element_thrown|].
    split; [by rewrite Hw|].
    split; [done|]. split; [done|].
    unfold ErrorHandler.shouldStopWorkflow. by rewrite Hsev.
  - exists (newError (Fetch.noTextMessage url selector)).
    destruct (FetchFacts.no_text_classified url selector ctx Hpu Hps)
      as (Hty & Hsev & _).
    split; [by apply FetchFacts.no_text_thrown|].
    split; [by rewrite Hw|].
    split; [done|]. split; [done|].
    unfold ErrorHandler.shouldStopWorkflow. by rewrite Hsev.
Qed.

Lemma missing_element_is_not_fatal_witness :
  exists e,
    fst (PageMonitor.navigateAndExtract
           (PageMonitor.mkPageWorld (Ok tt) (Ok true) (Ok None))
           "https://example.com/p1" "#price" ErrorHandler.initial) = Throw e /\
    ErrorHandler.severity (ErrorHandler.categorizeError e Workflow.targetContext)
      = ErrorHandler.MEDIUM.
Proof.
  destruct (missing_element_is_not_fatal
              (PageMonitor.mkPageWorld (Ok tt) (Ok true) (Ok None))
              "https://example.com/p1" "#price" ErrorHandler.initial
              Workflow.targetContext)
    as (e & He & _ & _ & Hsev & _); try reflexivity.
  { right. split; reflexivity. }
  by exists e.
Defined.

(** ** Validation of the configuration *)

Module ConfigFacts.
Import Str Js ConfigurationManager Configs.

Lemma get_string_object (v : Value) (k s : string) :
  get v k = VString s -> exists fields, v = VObject fields /\ has v k = true.
Proof.
  destruct v; try done. cbn. intros H. eexists. split; [done|].
  destruct (lookupField fields k); [by apply bool_decide_eq_true_2|done].
Qed.

Lemma checkFields_ok (entry : Value) (fields : list string) :
  checkFields entry fields = Ok tt <->
  Forall (fun f => exists s, get entry f = VString s) fields.
Proof.
  induction fields as [|f rest IH]; cbn [checkFields].
  { split; [constructor|done]. }
  rewrite Forall_cons. destruct (has entry f) eqn:Hh; cbn [negb].
  - destruct (get entry f) eqn:Hg; cbn [typeofString negb];
      try (split; [done|by intros [[s' Hs] _]]).
    rewrite IH. split; [intros; split; [by eexists|done]|by intros [_ ?]].
  - split; [done|]. intros [[s Hs] _].
    apply get_string_object in Hs as (? & _ & Hs). congruence.
Qed.

Lemma extraFields_nil (allowed : list string) (v : Value) :
  (0 <? List.length (extraFields allowed v))%nat = false <->
  Forall (fun k => k ∈ allowed) (keys v).
Proof.
  unfold extraFields. induction (keys v) as [|k rest IH]; cbn [List.filter].
  { split; [constructor|done]. }
  rewrite Forall_cons. destruct (existsb (String.eqb k) allowed) eqn:He; cbn [negb].
  - rewrite IH. apply existsb_exists in He as (k' & Hin & Hk).
    apply String.eqb_eq in Hk as <-. apply list_elem_of_In in Hin. tauto.
  - split; [done|]. intros [Hin _]. apply list_elem_of_In in Hin.
    assert (existsb (String.eqb k) allowed = true) as Ht.
    { apply existsb_exists. exists k. split; [done|apply String.eqb_refl]. }
    congruence.
Qed.

Lemma length_zero (s : string) : Nat.eqb (String.length s) 0 = false <-> s <> "".
Proof. destruct s; cbn; split; done. Qed.

(** [validateEntry] accepts exactly the well-formed entries. *)
Lemma validateEntry_ok (newURL : URLParser) (entry : Value) :
  validateEntry newURL entry = Ok tt <-> wellFormed newURL entry.
Proof.
  unfold validateEntry, wellFormed. split.
  - destruct (truthy entry); [|done]. destruct (typeofObject entry); [|done].
    cbn [negb orb].
    destruct (checkFields entry requiredFields) as [[]|e] eqn:Hf; [|done].
    apply checkFields_ok in Hf.
    apply Forall_cons in Hf as [[u Hu] Hf]. apply Forall_cons in Hf as [[c Hc] Hf].
    apply Forall_cons in Hf as [[x Hx] _].
    rewrite Hu, Hc. cbn [stringOf].
    destruct (newURL u) as [parsed|e] eqn:Hp; [|done].
    destruct (Nat.eqb _ 0) eqn:Hl; [done|]. apply length_zero in Hl.
    destruct (0 <? _)%nat eqn:Hx'; [done|]. apply extraFields_nil in Hx'.
    intros _. destruct (get_string_object _ _ _ Hu) as (fields & -> & _).
    exists fields, u, c, x. repeat split; try done. by exists parsed.
  - intros (fields & u & c & x & -> & Hu & Hc & Hx & Hk & (parsed & Hp) & Ht).
    cbn [truthy typeofObject negb orb].
    assert (checkFields (VObject fields) requiredFields = Ok tt) as ->.
    { apply checkFields_ok. repeat constructor; by eexists. }
    rewrite Hu, Hc. cbn [stringOf]. rewrite Hp.
    apply length_zero in Ht. rewrite Ht.
    apply extraFields_nil in Hk. by rewrite Hk.
Qed.

(** The first loop stops at the first entry that is not well formed. *)
Lemma validateEntries_spec (newURL : URLParser) (entries : list Value) :
  forall index,
    match firstInvalid newURL entries with
    | None =>
        validateEntries newURL index entries = Ok tt /\
        Forall (wellFormed newURL) entries
    | Some i =>
        exists entry e,
          entries !! i = Some entry /\ validateEntry newURL entry = Throw e /\
          Forall (wellFormed newURL) (take i entries) /\
          validateEntries newURL index entries =
            Throw (newError ("Invalid target entry at index " +:+ pretty (index + i)
                             +:+ ": " +:+ message e))
    end.
Proof.
  induction entries as [|entry rest IH]; intros index; cbn [firstInvalid validateEntries].
  { split; [done|constructor]. }
  destruct (validateEntry newURL entry) as [[]|e] eqn:Hv.
  - apply validateEntry_ok in Hv. specialize (IH (S index)).
    destruct (firstInvalid newURL rest) as [i|]; cbn [fmap option_fmap option_map].
    + destruct IH as (entry' & e & Hl & He & Hall & Hr).
      exists entry', e. split; [done|]. split; [done|].
      split; [by constructor|].
      rewrite Hr. by replace (S index + i) with (index + S i) by lia.
    + destruct IH as [Hr Hall]. split; [done|by constructor].
  - exists entry, e. split; [done|]. split; [done|]. split; [constructor|].
    by rewrite Nat.add_0_r.
Qed.

(** The second loop accepts exactly the lists without a repeated key. *)
Lemma checkDuplicates_ok (entries : list Value) :
  forall index seen,
    checkDuplicates index entries seen = Ok tt <->
    NoDup (keyOf <$> entries) /\ Forall (fun k => k ∉ seen) (keyOf <$> entries).
Proof.
  induction entries as [|entry rest IH]; intros index seen;
    cbn [checkDuplicates fmap list_fmap].
  { split; [split; constructor|done]. }
  rewrite NoDup_cons, Forall_cons. case_bool_decide as Hin.
  - split; [done|]. by intros [_ [? _]].
  - rewrite IH. rewrite !Forall_forall. split.
    + intros [Hnd Hall]. split; [split; [|done]|split; [done|]].
      * intros Hk. apply (Hall _ Hk). apply elem_of_union_l, elem_of_singleton.
        done.
      * intros k Hk Hs. apply (Hall k Hk). by apply elem_of_union_r.
    + intros [[Hk Hnd] [_ Hall]]. split; [done|]. intros k Hkin Hs.
      apply elem_of_union in Hs as [Hs|Hs]; [|by apply (Hall k)].
      apply elem_of_singleton in Hs as ->. done.
Qed.

(** Where the second loop stops, when it does. *)
Lemma checkDuplicates_fail (entries : list Value) :
  forall index seen e,
    checkDuplicates index entries seen = Throw e ->
    exists i entry,
      entries !! i = Some entry /\
      NoDup (keyOf <$> take i entries) /\
      Forall (fun k => k ∉ seen) (keyOf <$> take i entries) /\
      (keyOf entry ∈ seen \/ keyOf entry ∈ keyOf <$> take i entries) /\
      e = newError ("Duplicate monitoring target at index " +:+ pretty (index + i)
                    +:+ ": " +:+ stringOf (get entry "url")
                    +:+ " with selector "
                    +:+ stringOf (get entry "css_selector")).
Proof.
  induction entries as [|entry rest IH]; intros index seen e; cbn [checkDuplicates].
  { done. }
  case_bool_decide as Hin.
  - intros [= <-]. exists 0, entry. split; [done|]. split; [constructor|].
    split; [constructor|]. split; [by left|]. by rewrite Nat.add_0_r.
  - intros Hr. apply IH in Hr as (i & entry' & Hl & Hnd & Hall & Hk & ->).
    exists (S i), entry'. split; [done|]. cbn [take fmap list_fmap].
    rewrite Forall_forall in Hall.
    split; [|split; [|split]].
    + apply NoDup_cons. split; [|done]. intros Hin'.
      apply (Hall _ Hin'). apply elem_of_union_l, elem_of_singleton. done.
    + apply Forall_cons. split; [done|]. apply Forall_forall. intros k Hk' Hs.
      apply (Hall k Hk'). by apply elem_of_union_r.
    + destruct Hk as [Hk|Hk].
      * apply elem_of_union in Hk as [Hk|Hk]; [|by left].
        apply elem_of_singleton in Hk. right. rewrite Hk. apply list_elem_of_here.
      * right. by apply list_elem_of_further.
    + by replace (S index + i) with (index + S i) by lia.
Qed.

End ConfigFacts.

Module ConfigBridge.
Import Str Js ConfigurationManager Configs.

(** [validateTargetsArray] accepts exactly the non-empty arrays of
    well-formed entries with pairwise distinct keys. *)
Lemma validateTargetsArray_ok (newURL : URLParser) (targets : Value) :
  validateTargetsArray newURL targets = Ok tt <->
  exists entries,
    targets = VArray entries /\ entries <> [] /\
    Forall (wellFormed newURL) entries /\ NoDup (keyOf <$> entries).
Proof.
  split.
  - destruct targets as [| | | | |entries|]; try done. cbn [validateTargetsArray].
    destruct entries as [|entry rest]; [done|].
    remember (entry :: rest) as entries eqn:He.
    replace (Nat.eqb (List.length entries) 0) with false by by subst.
    pose proof (ConfigFacts.validateEntries_spec newURL entries 0) as Hv.
    destruct (firstInvalid newURL entries) as [i|].
    { destruct Hv as (? & ? & _ & _ & _ & ->). done. }
    destruct Hv as [-> Hall]. intros Hd.
    apply ConfigFacts.checkDuplicates_ok in Hd as [Hnd _].
    exists entries. split; [done|]. split; [by subst|done].
  - intros (entries & -> & Hne & Hall & Hnd). cbn [validateTargetsArray].
    destruct entries as [|entry rest]; [done|]. cbn [List.length Nat.eqb].
    pose proof (ConfigFacts.validateEntries_spec newURL (entry :: rest) 0) as Hv.
    destruct (firstInvalid newURL (entry :: rest)) as [i|] eqn:Hf.
    { destruct Hv as (bad & e & Hl & Hbad & _).
      rewrite Forall_forall in Hall.
      assert (wellFormed newURL bad) as Hw
          by (apply Hall; by eapply list_elem_of_lookup_2).
      apply ConfigFacts.validateEntry_ok in Hw. congruence. }
    destruct Hv as [-> _]. apply ConfigFacts.checkDuplicates_ok.
    split; [done|]. apply Forall_forall. intros k _. apply not_elem_of_empty.
Qed.

(** The record of a well-formed entry. *)
Lemma toEntry_wellFormed (newURL : URLParser) (v : Value) :
  wellFormed newURL v ->
  exists e, toEntry v = Some e /\ StateManager.keyOf e = keyOf v /\
            trim (css_selector e) <> "" /\ exists parsed, newURL (url e) = Ok parsed.
Proof.
  intros (fields & u & c & x & -> & Hu & Hc & Hx & _ & Hp & Ht).
  exists (mkEntry u c x). unfold toEntry, keyOf, StateManager.keyOf.
  rewrite Hu, Hc, Hx. done.
Qed.

Lemma toTargets_wellFormed (newURL : URLParser) (entries : list Value) :
  Forall (wellFormed newURL) entries ->
  exists targets,
    mapM toEntry entries = Some targets /\
    StateManager.keyOf <$> targets = keyOf <$> entries /\
    Forall (fun e => trim (css_selector e) <> "" /\
                     exists parsed, newURL (url e) = Ok parsed) targets.
Proof.
  induction 1 as [|v rest Hv _ IH].
  { exists []. split; [done|]. split; [done|constructor]. }
  destruct IH as (targets & Hm & Hk & Hall).
  destruct (toEntry_wellFormed newURL v Hv) as (e & He & Hke & Hc & Hp).
  exists (e :: targets). cbn. rewrite He. cbn. rewrite Hm. cbn.
  split; [done|]. split; [by rewrite Hke, Hk|by constructor].
Qed.

(** What [validateWebhook] accepts. *)
Lemma validateWebhook_ok (newURL : URLParser) (v : Value) :
  validateWebhook newURL v = Ok tt <->
  v = VUndefined \/ exists hook, v = VString hook /\ goodWebhook newURL hook.
Proof.
  unfold validateWebhook, checkWebhookUrl, goodWebhook. split.
  - destruct v as [| | | |hook| |]; try done; [by left|].
    destruct (Nat.eqb _ 0) eqn:Hl; [done|]. apply ConfigFacts.length_zero in Hl.
    destruct (newURL hook) as [parsed|e] eqn:Hp; [|done].
    destruct (String.eqb (protocol parsed) "https:") eqn:Hs; [|done].
    destruct (includes (hostname parsed) "slack.com") eqn:Hh; [|done].
    intros _. right. exists hook. split; [done|]. split; [done|].
    exists parsed. apply String.eqb_eq in Hs. done.
  - intros [->|(hook & -> & Ht & parsed & Hp & Hs & Hh)]; [done|].
    apply ConfigFacts.length_zero in Ht. rewrite Ht, Hp, Hs, Hh. done.
Qed.

Lemma validateConfig_normalize (newURL : URLParser) (config : Value) :
  validateConfig newURL (normalizeConfig config) = validateConfig newURL config.
Proof.
  unfold normalizeConfig. destruct (isArray config) eqn:Ha; [|done].
  destruct config as [| | | | |entries|]; try done.
  unfold validateConfig at 1. cbn [isArray truthy typeofObject andb].
  unfold validateConfigObject.
  change (get (VObject [("targets", VArray entries); ("slack_webhook", VUndefined)])
            "targets") with (VArray entries).
  cbn [truthy isArray negb orb]. unfold validateConfig. cbn [isArray].
  by destruct (validateTargetsArray newURL (VArray entries)) as [[]|e].
Qed.

End ConfigBridge.

(** X16: [validateTargetsArray] accepts exactly the non-empty arrays whose
    entries are objects with the three fields [url], [css_selector] and
    [current_value], each a string, and no other field, with a URL that
    parses and a selector that is not blank, and whose keys
    [url|css_selector] are pairwise distinct. *)
Theorem targets_accepted_exactly_when (newURL : Js.URLParser) (targets : Js.Value) :
  ConfigurationManager.validateTargetsArray newURL targets = Ok tt <->
  exists entries,
    targets = Js.VArray entries /\ entries <> [] /\
    Forall (Configs.wellFormed newURL) entries /\
    NoDup (ConfigurationManager.keyOf <$> entries).
Proof. apply ConfigBridge.validateTargetsArray_ok. Qed.

(** X17: which failure [validateTargetsArray] reports for an array. Entries
    are validated before duplicates are looked for: when some entry is not
    well formed, the error names the first such position and carries the
    message of [validateEntry] for it, even if a duplicate stands earlier
    in the array. When all entries are well formed, the call fails only for
    the empty array or for a repeated key, and then the error names the
    first position whose key occurred before. *)
Theorem first_failure_reported (newURL : Js.URLParser) (entries : list Js.Value) :
  let r := ConfigurationManager.validateTargetsArray newURL (Js.VArray entries) in
  let keys := ConfigurationManager.keyOf <$> entries in
  match Configs.firstInvalid newURL entries with
  | Some i =>
      exists entry e,
        entries !! i = Some entry /\
        ConfigurationManager.validateEntry newURL entry = Throw e /\
        Forall (Configs.wellFormed newURL) (take i entries) /\
        r = Throw (newError ("Invalid target entry at index " +:+ pretty i
                             +:+ ": " +:+ message e))
  | None =>
      Forall (Configs.wellFormed newURL) entries /\
      match r with
      | Ok _ => entries <> [] /\ NoDup keys
      | Throw e =>
          (entries = [] /\ e = newError "Targets array cannot be empty") \/
          exists i entry,
            entries !! i = Some entry /\ NoDup (take i keys) /\
            ConfigurationManager.keyOf entry ∈ take i keys /\
            e = newError ("Duplicate monitoring target at index " +:+ pretty i
                          +:+ ": " +:+ Js.stringOf (Js.get entry "url")
                          +:+ " with selector "
                          +:+ Js.stringOf (Js.get entry "css_selector"))
      end
  end.
Proof.
  intros r keys. subst r keys. cbn [ConfigurationManager.validateTargetsArray].
  pose proof (ConfigFacts.validateEntries_spec newURL entries 0) as Hv.
  destruct (Configs.firstInvalid newURL entries) as [i|] eqn:Hf.
  - destruct Hv as (entry & e & Hl & He & Hall & Hr).
    exists entry, e. split; [done|]. split; [done|]. split; [done|].
    destruct entries as [|x rest]; [done|]. cbn [List.length Nat.eqb].
    by rewrite Hr.
  - destruct Hv as [Hr Hall]. split; [done|].
    destruct entries as [|x rest]; [by left|].
    remember (x :: rest) as entries eqn:He.
    replace (Nat.eqb (List.length entries) 0) with false by by subst.
    rewrite Hr.
    destruct (ConfigurationManager.checkDuplicates 0 entries ∅) as [[]|e] eqn:Hd.
    + apply ConfigFacts.checkDuplicates_ok in Hd as [Hnd _]. split; [by subst|done].
    + right. apply ConfigFacts.checkDuplicates_fail in Hd
        as (i & entry & Hl & Hnd & _ & [Hk|Hk] & ->).
      { by apply not_elem_of_empty in Hk. }
      exists i, entry. rewrite <- fmap_take. done.
Qed.

(** X18: normalising does not change the verdict of [validateConfig] and
    is idempotent, so a configuration that was loaded can be validated
    again when it is saved; for the legacy array format the targets of the
    normalised configuration are the array itself and there is no
    webhook. *)
Theorem normalize_preserves_verdict (newURL : Js.URLParser) (config : Js.Value) :
  ConfigurationManager.validateConfig newURL
    (ConfigurationManager.normalizeConfig config)
  = ConfigurationManager.validateConfig newURL config /\
  ConfigurationManager.normalizeConfig (ConfigurationManager.normalizeConfig config)
  = ConfigurationManager.normalizeConfig config /\
  (if Js.isArray config
   then ConfigurationManager.getTargets (ConfigurationManager.normalizeConfig config)
          = config /\
        ConfigurationManager.getSlackWebhook
          (ConfigurationManager.normalizeConfig config) = Js.VUndefined
   else ConfigurationManager.normalizeConfig config = config).
Proof.
  split; [apply ConfigBridge.validateConfig_normalize|].
  unfold ConfigurationManager.normalizeConfig.
  destruct config; cbn [Js.isArray]; done.
Qed.

(** X19: a configuration that [validateConfig] accepts is, once
    normalised, what the workflow takes it for: a non-empty list of entries
    with pairwise distinct keys, parsable URLs and non-blank selectors, and
    no webhook or one that is not blank and parses to an HTTPS URL whose
    host name holds "slack.com". *)
Theorem accepted_config_is_well_formed (newURL : Js.URLParser) (config : Js.Value) :
  ConfigurationManager.validateConfig newURL config = Ok tt ->
  exists c,
    Configs.toConfig (ConfigurationManager.normalizeConfig config) = Some c /\
    Workflow.targets c <> [] /\
    NoDup (StateManager.keyOf <$> Workflow.targets c) /\
    Forall (fun e => Str.trim (css_selector e) <> "" /\
                     exists parsed, newURL (url e) = Ok parsed)
      (Workflow.targets c) /\
    match Workflow.slack_webhook c with
    | None => True
    | Some hook => Configs.goodWebhook newURL hook /\ Str.truthy hook = true
    end.
Proof.
  intros Hv.
  assert (forall entries,
             entries <> [] -> Forall (Configs.wellFormed newURL) entries ->
             NoDup (ConfigurationManager.keyOf <$> entries) ->
             exists targets,
               mapM Configs.toEntry entries = Some targets /\ targets <> [] /\
               NoDup (StateManager.keyOf <$> targets) /\
               Forall (fun e => Str.trim (css_selector e) <> "" /\
                                exists parsed, newURL (url e) = Ok parsed) targets)
    as Hts.
  { intros entries Hne Hall Hnd.
    destruct (ConfigBridge.toTargets_wellFormed newURL entries Hall)
      as (targets & Hm & Hk & Hf).
    exists targets. split; [done|]. split; [|split; [by rewrite Hk|done]].
    intros ->. apply length_mapM in Hm. by destruct entries. }
  unfold ConfigurationManager.validateConfig in Hv.
  destruct (Js.isArray config) eqn:Ha.
  - apply ConfigBridge.validateTargetsArray_ok in Hv
      as (entries & -> & Hne & Hall & Hnd).
    destruct (Hts entries Hne Hall Hnd) as (targets & Hm & Hn & Hd & Hf).
    exists (Workflow.mkConfig targets None).
    unfold Configs.toConfig, ConfigurationManager.normalizeConfig. cbn [Js.isArray].
    change (ConfigurationManager.getTargets _) with (Js.VArray entries).
    cbn [Configs.toTargets]. rewrite Hm. done.
  - destruct (Js.truthy config && Js.typeofObject config); [|done].
    unfold ConfigurationManager.validateConfigObject in Hv.
    destruct (negb _ || negb _) eqn:Hg; [done|].
    apply orb_false_iff in Hg as [Hg _]. apply negb_false_iff in Hg.
    destruct (ConfigurationManager.validateTargetsArray newURL _) as [[]|e] eqn:Hta;
      [|done].
    apply ConfigBridge.validateTargetsArray_ok in Hta
      as (entries & Hget & Hne & Hall & Hnd).
    destruct (ConfigurationManager.validateWebhook newURL _) as [[]|e] eqn:Hw;
      [|done].
    apply ConfigBridge.validateWebhook_ok in Hw.
    destruct (Hts entries Hne Hall Hnd) as (targets & Hm & Hn & Hd & Hf).
    unfold Configs.toConfig, ConfigurationManager.normalizeConfig,
      ConfigurationManager.getTargets, ConfigurationManager.getSlackWebhook.
    rewrite Ha, Hg, Hget. cbn [Configs.toTargets]. rewrite Hm. cbn.
    destruct Hw as [->|(hook & -> & Hgood)].
    + by exists (Workflow.mkConfig targets None).
    + exists (Workflow.mkConfig targets (Some hook)).
      split; [done|]. split; [done|]. split; [done|]. split; [done|].
      cbn. split; [done|].
      destruct Hgood as [Ht _]. destruct hook; [by cbn in Ht|done].
Qed.

Lemma accepted_config_is_well_formed_witness :
  exists c,
    Configs.toConfig (ConfigurationManager.normalizeConfig ConfigSamples.twoTargets)
      = Some c /\
    Workflow.targets c = [Samples.price; Samples.title] /\
    Workflow.slack_webhook c = None.
Proof.
  destruct (accepted_config_is_well_formed ConfigSamples.parser
              ConfigSamples.twoTargets) as (c & Hc & _); [by vm_compute|].
  exists c. split; [exact Hc|].
  vm_compute in Hc. injection Hc as <-. done.
Defined.

Module WebhookFacts.
Import Str Js.

Lemma endsWith_includes (s suffix : string) :
  endsWith s suffix = true -> includes s suffix = true.
Proof.
  induction s as [|c s IH]; cbn [endsWith includes].
  - rewrite orb_false_r. intros H. apply String.eqb_eq in H as <-. done.
  - intros H. apply orb_true_iff in H as [H|H].
    + apply String.eqb_eq in H as <-. apply orb_true_iff. left.
      clear IH. cbn [startsWith]. rewrite Ascii.eqb_refl.
      induction s as [|d s IH]; [done|]. cbn [startsWith].
      by rewrite Ascii.eqb_refl.
    + apply orb_true_iff. right. by apply IH.
Qed.

(** Where a pattern occurs, its tail occurs. *)
Lemma startsWith_tail (c : ascii) (p s : string) :
  startsWith (String c p) s = true -> includes s p = true.
Proof.
  destruct s as [|d s]; [done|]. cbn [startsWith].
  destruct (Ascii.eqb c d); [|done]. intros H.
  cbn [includes]. apply orb_true_iff. right.
  destruct s as [|x s']; cbn [includes].
  - by rewrite H.
  - by rewrite H.
Qed.

Lemma includes_tail (c : ascii) (p s : string) :
  includes s (String c p) = true -> includes s p = true.
Proof.
  induction s as [|d s IH]; intros H; cbn [includes] in H.
  - by rewrite orb_false_r in H.
  - apply orb_true_iff in H as [H|H].
    + by apply (startsWith_tail c).
    + cbn [includes]. apply orb_true_iff. right. by apply IH.
Qed.

End WebhookFacts.

(** X20: the webhook check of the command line is the stricter one: a URL
    that [isValidWebhookUrl] accepts passes the URL check of
    [validateConfigObject], while a URL whose host name merely holds
    "slack.com", such as [slack.com.example.org], passes the latter and is
    refused on the command line. *)
Theorem cli_webhook_check_is_stricter (newURL : Js.URLParser) (url : string) :
  (CLIController.isValidWebhookUrl newURL url = true ->
   ConfigurationManager.checkWebhookUrl newURL url = Ok tt) /\
  (newURL url = Ok (Js.mkURL "https:" "slack.com.example.org") ->
   ConfigurationManager.checkWebhookUrl newURL url = Ok tt /\
   CLIController.isValidWebhookUrl newURL url = false).
Proof.
  unfold CLIController.isValidWebhookUrl, ConfigurationManager.checkWebhookUrl.
  split.
  - destruct (newURL url) as [parsed|e]; [|done].
    intros H. apply andb_true_iff in H as [-> H]. cbn [negb].
    assert (Str.includes (Js.hostname parsed) "slack.com" = true) as ->; [|done].
    apply orb_true_iff in H as [H|H].
    + apply String.eqb_eq in H as ->. done.
    + apply (WebhookFacts.includes_tail "."). by apply WebhookFacts.endsWith_includes.
  - intros ->. done.
Qed.

Lemma cli_webhook_check_is_stricter_witness :
  ConfigurationManager.checkWebhookUrl ConfigSamples.parser
    "https://hooks.slack.com/services/T0/B0/x" = Ok tt /\
  CLIController.isValidWebhookUrl
    (fun _ => Ok (Js.mkURL "https:" "slack.com.example.org"))
    "https://slack.com.example.org/x" = false.
Proof.
  split.
  - apply (proj1 (cli_webhook_check_is_stricter ConfigSamples.parser _)).
    reflexivity.
  - apply (proj2 (cli_webhook_check_is_stricter
                    (fun _ => Ok (Js.mkURL "https:" "slack.com.example.org")) _)).
    reflexivity.
Defined.

(** ** Reading, checking and writing the configuration file *)

Module FileFacts.
Import Str Js Fs ConfigurationManager ConfigurationFiles StatePersistence FileCalls.

(** The catch of [loadConfig]: one error is handled and one is thrown,
    whatever was caught. *)
Lemma loadConfigCatch_spec {A} (filePath : string) (t : Thrown) (st : State) :
  let r := @loadConfigCatch A filePath t st in
  exists t',
    fst r = Raised t' /\
    calls (snd r) = calls st /\
    stateHandler (snd r) = stateHandler st /\
    ErrorHandler.sessionErrors (configHandler (snd r))
      = (ErrorHandler.sessionErrors (configHandler st)
         ++ [recordOf loadContext (errorOf t')])%list /\
    (if codeIs t "ENOENT"
     then t' = Plain (newError ("Configuration file not found: " +:+ filePath))
     else if codeIs t "EACCES"
     then t' = Plain (newError ("Permission denied reading configuration file: "
                                +:+ filePath))
     else t' = t).
Proof.
  intros r. subst r. unfold loadConfigCatch.
  destruct (codeIs t "ENOENT"); [by eexists|].
  destruct (codeIs t "EACCES"); by eexists.
Qed.

(** The same for [saveConfig]. *)
Lemma saveConfigCatch_spec {A} (filePath : string) (t : Thrown) (st : State) :
  let r := @saveConfigCatch A filePath t st in
  exists t',
    fst r = Raised t' /\
    calls (snd r) = calls st /\
    stateHandler (snd r) = stateHandler st /\
    ErrorHandler.sessionErrors (configHandler (snd r))
      = (ErrorHandler.sessionErrors (configHandler st)
         ++ [recordOf saveContext (errorOf t')])%list /\
    (if codeIs t "EACCES"
     then t' = Plain (newError ("Permission denied writing to configuration file: "
                                +:+ filePath))
     else if codeIs t "ENOSPC"
     then t' = Plain (newError ("No space left on device when writing: "
                                +:+ filePath))
     else t' = t).
Proof.
  intros r. subst r. unfold saveConfigCatch.
  destruct (codeIs t "EACCES"); [by eexists|].
  destruct (codeIs t "ENOSPC"); by eexists.
Qed.

(** [loadConfig] unfolded along the answers it gets. *)
Lemma loadConfig_cases (w : World) (filePath : string) (st : State) :
  loadConfig w filePath st =
    let st1 := record (Access filePath R_OK) st in
    let st2 := record (ReadFile filePath) st1 in
    match access w (calls st) filePath R_OK with
    | Some e => loadConfigCatch filePath (System e) st1
    | None =>
        match readFile w (calls st ++ [Access filePath R_OK]) filePath with
        | inl e => loadConfigCatch filePath (System e) st2
        | inr content =>
            match jsonParse w content with
            | Throw parseError =>
                loadConfigCatch filePath
                  (Plain (newError ("Invalid JSON format in " +:+ filePath
                                    +:+ ": " +:+ message parseError))) st2
            | Ok parsed =>
                match validateConfig (newURL w) parsed with
                | Throw e => loadConfigCatch filePath (Plain e) st2
                | Ok _ => (Returned (normalizeConfig parsed), st2)
                end
            end
        end
    end.
Proof.
  unfold loadConfig, tryCatch, loadConfigBody, bind, fsAccess, fsReadFile.
  destruct (access w (calls st) filePath R_OK) as [e|]; [done|].
  cbn [calls record].
  destruct (readFile w (calls st ++ [Access filePath R_OK]) filePath)
    as [e|content]; [done|].
  destruct (jsonParse w content) as [parsed|parseError]; [|done].
  cbn. by destruct (validateConfig (newURL w) parsed) as [[]|e].
Qed.

(** [loadConfig], case by case. *)
Lemma loadConfig_spec (w : World) (filePath : string) (st : State) :
  let r := loadConfig w filePath st in
  let h := calls st in
  let a := access w h filePath R_OK in
  let rd := readFile w (h ++ [Access filePath R_OK]) filePath in
  stateHandler (snd r) = stateHandler st /\
  match a with
  | Some e =>
      calls (snd r) = (h ++ [Access filePath R_OK])%list /\
      exists t,
        fst r = Raised t /\
        ErrorHandler.sessionErrors (configHandler (snd r))
          = (ErrorHandler.sessionErrors (configHandler st)
             ++ [recordOf loadContext (errorOf t)])%list /\
        (if String.eqb (code e) "ENOENT"
         then t = Plain (newError ("Configuration file not found: " +:+ filePath))
         else if String.eqb (code e) "EACCES"
         then t = Plain (newError ("Permission denied reading configuration file: "
                                   +:+ filePath))
         else t = System e)
  | None =>
      calls (snd r) = (h ++ [Access filePath R_OK; ReadFile filePath])%list /\
      match rd with
      | inl e =>
          exists t,
            fst r = Raised t /\
            ErrorHandler.sessionErrors (configHandler (snd r))
              = (ErrorHandler.sessionErrors (configHandler st)
                 ++ [recordOf loadContext (errorOf t)])%list
      | inr content =>
          match jsonParse w content with
          | Throw parseError =>
              fst r = Raised (Plain (newError ("Invalid JSON format in " +:+ filePath
                                               +:+ ": " +:+ message parseError))) /\
              ErrorHandler.sessionErrors (configHandler (snd r))
                = (ErrorHandler.sessionErrors (configHandler st)
                   ++ [recordOf loadContext
                         (newError ("Invalid JSON format in " +:+ filePath
                                    +:+ ": " +:+ message parseError))])%list
          | Ok parsed =>
              match validateConfig (newURL w) parsed with
              | Throw e =>
                  fst r = Raised (Plain e) /\
                  ErrorHandler.sessionErrors (configHandler (snd r))
                    = (ErrorHandler.sessionErrors (configHandler st)
                       ++ [recordOf loadContext e])%list
              | Ok _ =>
                  fst r = Returned (normalizeConfig parsed) /\
                  configHandler (snd r) = configHandler st
              end
          end
      end
  end.
Proof.
  intros r h a rd. subst h a rd.
  assert (r = loadConfig w filePath st) as Hr by done. clearbody r.
  rewrite loadConfig_cases in Hr. cbn zeta in Hr.
  destruct (access w (calls st) filePath R_OK) as [e|].
  { destruct (@loadConfigCatch_spec Value filePath (System e)
                (record (Access filePath R_OK) st))
      as (t & Ht & Hc & Hs & He & Hk).
    cbn zeta in Ht, Hc, Hs, He. rewrite <- Hr in Ht, Hc, Hs, He.
    cbn [codeIs] in Hk. split; [exact Hs|]. split; [exact Hc|]. by exists t. }
  destruct (readFile w (calls st ++ [Access filePath R_OK]) filePath)
    as [e|content].
  { destruct (@loadConfigCatch_spec Value filePath (System e)
                (record (ReadFile filePath) (record (Access filePath R_OK) st)))
      as (t & Ht & Hc & Hs & He & _).
    cbn zeta in Ht, Hc, Hs, He. rewrite <- Hr in Ht, Hc, Hs, He.
    split; [exact Hs|].
    split; [rewrite Hc; cbn; by rewrite <- app_assoc|]. by exists t. }
  destruct (jsonParse w content) as [parsed|parseError].
  2:{ subst r. cbn. split; [done|]. split; [by rewrite <- app_assoc|]. done. }
  destruct (validateConfig (newURL w) parsed) as [[]|e].
  2:{ subst r. cbn. split; [done|]. split; [by rewrite <- app_assoc|]. done. }
  subst r. cbn. split; [done|]. split; [by rewrite <- app_assoc|]. done.
Qed.

(** The catch blocks of the [StateManager]. *)
Lemma rethrow_spec {A} (prefix operation : string) (t : Thrown) (st : State) :
  let r := @rethrow A prefix operation t st in
  let wrapped := newError (prefix +:+ message (errorOf t)) in
  fst r = Raised (Plain wrapped) /\
  calls (snd r) = calls st /\
  configHandler (snd r) = configHandler st /\
  ErrorHandler.sessionErrors (stateHandler (snd r))
    = (ErrorHandler.sessionErrors (stateHandler st)
       ++ [recordOf (ErrorHandler.mkContext "persistence" operation) wrapped])%list.
Proof. done. Qed.

(** [saveConfig] unfolded along the answers it gets. *)
Lemma saveConfig_cases (w : World) (filePath : string) (config : Value) (st : State) :
  saveConfig w filePath config st =
    let dir := dirname w filePath in
    let st1 := record (Access dir W_OK) st in
    let st2 := record (WriteFile filePath config) st1 in
    match validateConfig (newURL w) config with
    | Throw e => saveConfigCatch filePath (Plain e) st
    | Ok _ =>
        match access w (calls st) dir W_OK with
        | Some e => saveConfigCatch filePath (System e) st1
        | None =>
            match writeFile w (calls st ++ [Access dir W_OK]) filePath config with
            | Some e => saveConfigCatch filePath (System e) st2
            | None => (Returned tt, st2)
            end
        end
    end.
Proof.
  unfold saveConfig, tryCatch, saveConfigBody, bind, fsAccess, fsWriteFile.
  destruct (validateConfig (newURL w) config) as [[]|e]; [|done]. cbn.
  destruct (access w (calls st) (dirname w filePath) W_OK) as [e|]; [done|].
  by destruct (writeFile w _ filePath config) as [e|].
Qed.

(** What [saveConfig] does: it writes only a configuration that
    [validateConfig] accepts, after the directory was found writable. *)
Lemma saveConfig_spec (w : World) (filePath : string) (config : Value) (st : State) :
  let r := saveConfig w filePath config st in
  let dir := dirname w filePath in
  let valid := validateConfig (newURL w) config in
  let a := access w (calls st) dir W_OK in
  let wr := writeFile w (calls st ++ [Access dir W_OK]) filePath config in
  stateHandler (snd r) = stateHandler st /\
  calls (snd r) =
    (calls st ++
     match valid with
     | Throw _ => []
     | Ok _ => Access dir W_OK ::
               match a with Some _ => [] | None => [WriteFile filePath config] end
     end)%list /\
  match fst r with
  | Returned _ =>
      valid = Ok tt /\ a = None /\ wr = None /\
      configHandler (snd r) = configHandler st
  | Raised t =>
      (valid = Ok tt -> a = None -> is_Some wr) /\
      ErrorHandler.sessionErrors (configHandler (snd r))
        = (ErrorHandler.sessionErrors (configHandler st)
           ++ [recordOf saveContext (errorOf t)])%list
  end.
Proof.
  intros r dir valid a wr. subst dir valid a wr.
  assert (r = saveConfig w filePath config st) as Hr by done. clearbody r.
  rewrite saveConfig_cases in Hr. cbn zeta in Hr.
  destruct (validateConfig (newURL w) config) as [[]|e].
  2:{ destruct (@saveConfigCatch_spec unit filePath (Plain e) st)
        as (t & Ht & Hc & Hs & He & _).
      cbn zeta in Ht, Hc, Hs, He. rewrite <- Hr in Ht, Hc, Hs, He.
      split; [exact Hs|]. split; [by rewrite Hc, app_nil_r|]. rewrite Ht.
      split; [done|exact He]. }
  destruct (access w (calls st) (dirname w filePath) W_OK) as [e|].
  { destruct (@saveConfigCatch_spec unit filePath (System e)
                (record (Access (dirname w filePath) W_OK) st))
      as (t & Ht & Hc & Hs & He & _).
    cbn zeta in Ht, Hc, Hs, He. rewrite <- Hr in Ht, Hc, Hs, He.
    split; [exact Hs|]. split; [exact Hc|]. rewrite Ht. split; [done|exact He]. }
  destruct (writeFile w _ filePath config) as [e|].
  { destruct (@saveConfigCatch_spec unit filePath (System e)
                (record (WriteFile filePath config)
                   (record (Access (dirname w filePath) W_OK) st)))
      as (t & Ht & Hc & Hs & He & _).
    cbn zeta in Ht, Hc, Hs, He. rewrite <- Hr in Ht, Hc, Hs, He.
    split; [exact Hs|]. split; [rewrite Hc; cbn; by rewrite <- app_assoc|].
    rewrite Ht. split; [done|exact He]. }
  subst r. cbn. split; [done|]. split; [by rewrite <- app_assoc|]. done.
Qed.

(** [validateWritePermissions] unfolded along the answers it gets. *)
Lemma validateWritePermissions_cases (w : World) (filePath : string) (st : State) :
  validateWritePermissions w filePath st =
    let dir := dirname w filePath in
    let st1 := record (Access dir W_OK) st in
    let st2 := record (Access filePath F_OK) st1 in
    let st3 := record (Access filePath W_OK) st2 in
    let fail := @rethrow unit "Write permission validation failed: "
                  "validateWritePermissions" in
    match access w (calls st) dir W_OK with
    | Some e =>
        if String.eqb (code e) "ENOENT" then
          fail (Plain (newError ("Directory does not exist: " +:+ dir))) st1
        else if String.eqb (code e) "EACCES" then
          fail (Plain (newError ("No write permission for directory: " +:+ dir))) st1
        else fail (System e) st1
    | None =>
        match access w (calls st ++ [Access dir W_OK]) filePath F_OK with
        | Some e =>
            if String.eqb (code e) "ENOENT" then (Returned tt, st2)
            else fail (System e) st2
        | None =>
            match access w (calls st ++ [Access dir W_OK; Access filePath F_OK])
                    filePath W_OK with
            | None => (Returned tt, st3)
            | Some e =>
                if String.eqb (code e) "EACCES" then
                  fail (Plain (newError ("No write permission for file: "
                                         +:+ filePath))) st3
                else if String.eqb (code e) "ENOENT" then (Returned tt, st3)
                else fail (System e) st3
            end
        end
    end.
Proof.
  unfold validateWritePermissions, tryCatch, bind, checkDirectory, checkFile,
    tryCatch, bind, fsAccess.
  destruct (access w (calls st) (dirname w filePath) W_OK) as [e|].
  { cbn [codeIs]. destruct (String.eqb (code e) "ENOENT"); [done|].
    by destruct (String.eqb (code e) "EACCES"). }
  cbn [calls record].
  destruct (access w (calls st ++ [Access (dirname w filePath) W_OK]) filePath F_OK)
    as [e|].
  { cbn [codeIs]. by destruct (String.eqb (code e) "ENOENT"). }
  cbn [calls record]. rewrite <- app_assoc. cbn [app].
  destruct (access w _ filePath W_OK) as [e|]; [|done].
  cbn [codeIs]. destruct (String.eqb (code e) "EACCES"); [done|].
  cbn [codeIs raise]. by destruct (String.eqb (code e) "ENOENT").
Qed.

Lemma eqb_ENOENT_EACCES (c : string) :
  String.eqb c "ENOENT" = true -> String.eqb c "EACCES" = false.
Proof. intros H. apply String.eqb_eq in H as ->. done. Qed.

(** The verdict of [validateWritePermissions], its calls and what it
    records. *)
Lemma validateWritePermissions_spec (w : World) (filePath : string) (st : State) :
  let r := validateWritePermissions w filePath st in
  let dir := dirname w filePath in
  let h := calls st in
  let a1 := access w h dir W_OK in
  let a2 := access w (h ++ [Access dir W_OK]) filePath F_OK in
  let a3 := access w (h ++ [Access dir W_OK; Access filePath F_OK]) filePath W_OK in
  let ok :=
    bool_decide (a1 = None) &&
    (failsWith a2 "ENOENT" ||
     bool_decide (a2 = None) && (bool_decide (a3 = None) || failsWith a3 "ENOENT")) in
  configHandler (snd r) = configHandler st /\
  (exists n, 1 <= n <= 3 /\ calls (snd r) = (h ++ take n (probes dir filePath))%list) /\
  if ok
  then fst r = Returned tt /\ stateHandler (snd r) = stateHandler st
  else exists m,
      let e := newError ("Write permission validation failed: " +:+ m) in
      fst r = Raised (Plain e) /\
      ErrorHandler.sessionErrors (stateHandler (snd r))
        = (ErrorHandler.sessionErrors (stateHandler st)
           ++ [recordOf (ErrorHandler.mkContext "persistence"
                           "validateWritePermissions") e])%list.
Proof.
  intros r dir h a1 a2 a3 ok. subst dir h a1 a2 a3 ok.
  assert (r = validateWritePermissions w filePath st) as Hr by done. clearbody r.
  rewrite validateWritePermissions_cases in Hr. cbn zeta in Hr.
  assert (forall t s n,
             r = @rethrow unit "Write permission validation failed: "
                   "validateWritePermissions" t s ->
             configHandler s = configHandler st -> stateHandler s = stateHandler st ->
             1 <= n <= 3 ->
             calls s = (calls st ++ take n (probes (dirname w filePath) filePath))%list ->
             configHandler (snd r) = configHandler st /\
             (exists n, 1 <= n <= 3 /\
                calls (snd r)
                = (calls st ++ take n (probes (dirname w filePath) filePath))%list) /\
             exists m,
               let e := newError ("Write permission validation failed: " +:+ m) in
               fst r = Raised (Plain e) /\
               ErrorHandler.sessionErrors (stateHandler (snd r))
                 = (ErrorHandler.sessionErrors (stateHandler st)
                    ++ [recordOf (ErrorHandler.mkContext "persistence"
                                    "validateWritePermissions") e])%list) as Hfail.
  { intros t s n -> Hc Hs Hn Hcalls.
    destruct (@rethrow_spec unit "Write permission validation failed: "
                "validateWritePermissions" t s) as (Hf & Hcs & Hch & Hse).
    cbn zeta in Hf, Hcs, Hch, Hse.
    split; [by rewrite Hch|]. split; [exists n; by rewrite Hcs|].
    exists (message (errorOf t)). cbn zeta. split; [exact Hf|].
    by rewrite Hse, Hs. }
  destruct (access w (calls st) (dirname w filePath) W_OK) as [e1|].
  { rewrite bool_decide_eq_false_2 by done. cbn [andb].
    destruct (String.eqb (code e1) "ENOENT");
      [|destruct (String.eqb (code e1) "EACCES")];
      (eapply (Hfail _ _ 1); [exact Hr|done|done|lia|done]). }
  rewrite bool_decide_eq_true_2 by done. cbn [andb].
  destruct (access w (calls st ++ [Access (dirname w filePath) W_OK]) filePath F_OK)
    as [e2|].
  { cbn [failsWith]. destruct (String.eqb (code e2) "ENOENT").
    - subst r. cbn. split; [done|]. split; [|done].
      exists 2. split; [lia|]. by rewrite <- app_assoc.
    - rewrite bool_decide_eq_false_2 by done. cbn [andb orb].
      eapply (Hfail _ _ 2); [exact Hr|done|done|lia|].
      cbn. by rewrite <- app_assoc. }
  rewrite (bool_decide_eq_true_2 (None = None)) by done. cbn [failsWith andb orb].
  destruct (access w _ filePath W_OK) as [e3|].
  2:{ subst r. cbn. split; [done|]. split; [|done].
      exists 3. split; [lia|]. by rewrite <- !app_assoc. }
  rewrite bool_decide_eq_false_2 by done. cbn [failsWith orb].
  destruct (String.eqb (code e3) "ENOENT") eqn:Hen.
  - rewrite (eqb_ENOENT_EACCES _ Hen) in Hr. subst r. cbn.
    split; [done|]. split; [|done]. exists 3. split; [lia|].
    by rewrite <- !app_assoc.
  - destruct (String.eqb (code e3) "EACCES");
      (eapply (Hfail _ _ 3); [exact Hr|done|done|lia|];
       cbn; by rewrite <- !app_assoc).
Qed.

Lemma written_app (a b : list Call) : written (a ++ b) = (written a ++ written b)%list.
Proof. unfold written. apply omap_app. Qed.

Lemma written_probes (dir filePath : string) (n : nat) :
  written (take n (probes dir filePath)) = [].
Proof. destruct n as [|[|[|n]]]; try done. cbn. by rewrite take_nil. Qed.

Lemma persistConfig_cases (w : World) (filePath : string) (config : Value)
  (st : State) :
  persistConfig w filePath config st =
    match validateWritePermissions w filePath st with
    | (Raised t, st1) =>
        rethrow "Failed to persist configuration: " "persistConfig" t st1
    | (Returned _, st1) =>
        match saveConfig w filePath config st1 with
        | (Raised t, st2) =>
            rethrow "Failed to persist configuration: " "persistConfig" t st2
        | (Returned u, st2) => (Returned u, st2)
        end
    end.
Proof.
  unfold persistConfig, tryCatch, bind.
  destruct (validateWritePermissions w filePath st) as [[u|t] st1]; [|done].
  by destruct (saveConfig w filePath config st1) as [[u'|t] st2].
Qed.

(** [persistConfig] writes at most once, last, and only a configuration
    that [validateConfig] accepts; it returns only after it wrote. *)
Lemma persistConfig_spec (w : World) (filePath : string) (config : Value)
  (st : State) :
  let r := persistConfig w filePath config st in
  exists cs,
    calls (snd r) = (calls st ++ cs)%list /\
    (written cs = [] \/
     (validateConfig (newURL w) config = Ok tt /\
      exists before,
        cs = (before ++ [WriteFile filePath config])%list /\ written before = [])) /\
    match fst r with
    | Returned _ => written cs <> []
    | Raised t =>
        exists m, t = Plain (newError ("Failed to persist configuration: " +:+ m))
    end.
Proof.
  intros r.
  assert (r = persistConfig w filePath config st) as Hr by done. clearbody r.
  rewrite persistConfig_cases in Hr.
  pose proof (validateWritePermissions_spec w filePath st) as Hv. cbn zeta in Hv.
  destruct Hv as (_ & (n & _ & Hc1) & _).
  destruct (validateWritePermissions w filePath st) as [[[]|t] st1]; cbn [snd] in Hc1.
  2:{ subst r. exists (take n (probes (dirname w filePath) filePath)).
      split; [done|]. split; [left; apply written_probes|]. cbn. by eexists. }
  pose proof (saveConfig_spec w filePath config st1) as Hs. cbn zeta in Hs.
  destruct Hs as (_ & Hc2 & Hs).
  destruct (saveConfig w filePath config st1) as [[[]|t] st2]; cbn [fst snd] in *.
  - destruct Hs as (Hvalid & Ha & _ & _). rewrite Hvalid, Ha in Hc2. subst r.
    exists (take n (probes (dirname w filePath) filePath)
            ++ [Access (dirname w filePath) W_OK; WriteFile filePath config])%list.
    cbn [fst snd]. split; [by rewrite Hc2, Hc1, <- app_assoc|].
    split.
    + right. split; [done|].
      exists (take n (probes (dirname w filePath) filePath)
              ++ [Access (dirname w filePath) W_OK])%list.
      split; [by rewrite <- app_assoc|].
      by rewrite written_app, written_probes.
    + rewrite written_app, written_probes. done.
  - subst r. cbn [fst snd rethrow bind handleState raise calls].
    eexists. split; [rewrite Hc2, Hc1; by rewrite <- app_assoc|].
    split; [|by eexists].
    destruct (validateConfig (newURL w) config) as [[]|e].
    2:{ left. by rewrite app_nil_r, written_probes. }
    destruct (access w (calls st ++ take n (probes (dirname w filePath) filePath))
                (dirname w filePath) W_OK).
    { left. by rewrite written_app, written_probes. }
    right. split; [done|].
    exists (take n (probes (dirname w filePath) filePath)
            ++ [Access (dirname w filePath) W_OK])%list.
    split; [by rewrite <- app_assoc|].
    by rewrite written_app, written_probes.
Qed.

Lemma lookupField_setField (fields : list (string * Value)) (k k' : string)
  (x : Value) :
  lookupField (setField fields k x) k' =
    if String.eqb k k' then Some x else lookupField fields k'.
Proof.
  induction fields as [|[k0 v] rest IH]; cbn [setField lookupField].
  { by destruct (String.eqb k k'). }
  destruct (String.eqb k0 k) eqn:H0; cbn [lookupField].
  - apply String.eqb_eq in H0 as ->. by destruct (String.eqb k k').
  - rewrite IH. destruct (String.eqb k0 k') eqn:H1; [|done].
    apply String.eqb_eq in H1 as ->. by rewrite String.eqb_sym, H0.
Qed.

Lemma keys_setField (fields : list (string * Value)) (k : string) (x : Value) :
  is_Some (lookupField fields k) ->
  fst <$> setField fields k x = fst <$> fields.
Proof.
  induction fields as [|[k0 v] rest IH]; cbn [setField lookupField].
  { by intros [? ?]. }
  destruct (String.eqb k0 k); [done|]. intros H. cbn. by rewrite IH.
Qed.

(** Replacing the targets of an object leaves its other properties and its
    keys alone. *)
Lemma withTargets_get (fields : list (string * Value)) (targets : Value) :
  get (withTargets (VObject fields) targets) "targets" = targets /\
  get (withTargets (VObject fields) targets) "slack_webhook"
    = get (VObject fields) "slack_webhook" /\
  (truthy (get (VObject fields) "targets") = true ->
   keys (withTargets (VObject fields) targets) = keys (VObject fields)).
Proof.
  cbn [withTargets get keys]. rewrite !lookupField_setField. cbn.
  split; [done|]. split; [done|]. intros Ht. apply keys_setField.
  by destruct (lookupField fields "targets").
Qed.

Lemma updateAndPersist_cases (w : World) (filePath : string)
  (updatedTargets : Value) (st : State) :
  updateAndPersist w filePath updatedTargets st =
    let fail := @rethrow Value "Failed to update and persist configuration: "
                  "updateAndPersist" in
    match loadConfig w filePath st with
    | (Raised t, st1) => fail t st1
    | (Returned originalConfig, st1) =>
        match persistConfig w filePath
                (withTargets originalConfig updatedTargets) st1 with
        | (Raised t, st2) => fail t st2
        | (Returned _, st2) => (Returned updatedTargets, st2)
        end
    end.
Proof.
  unfold updateAndPersist, tryCatch, bind.
  destruct (loadConfig w filePath st) as [[c|t] st1]; [|done].
  by destruct (persistConfig w filePath _ st1) as [[u'|t] st2].
Qed.

(** What [loadConfig] returns was accepted by [validateConfig], and it
    makes no write call. *)
Lemma loadConfig_returned (w : World) (filePath : string) (st : State) :
  let r := loadConfig w filePath st in
  (exists cs, calls (snd r) = (calls st ++ cs)%list /\ written cs = []) /\
  match fst r with
  | Returned config =>
      validateConfig (newURL w) config = Ok tt /\
      exists fields, config = VObject fields
  | Raised _ => True
  end.
Proof.
  intros r. pose proof (loadConfig_spec w filePath st) as H. cbn zeta in H.
  fold r in H. destruct H as (_ & H).
  destruct (access w (calls st) filePath R_OK) as [e|].
  { destruct H as (Hc & t & -> & _). split; [|done].
    by exists [Access filePath R_OK]. }
  destruct H as (Hc & H).
  split; [by exists [Access filePath R_OK; ReadFile filePath]|].
  destruct (readFile w _ filePath) as [e|content].
  { by destruct H as (t & -> & _). }
  destruct (jsonParse w content) as [parsed|pe]; [|by destruct H as [-> _]].
  destruct (validateConfig (newURL w) parsed) as [[]|e] eqn:Hv;
    [|by destruct H as [-> _]].
  destruct H as [-> _]. rewrite ConfigBridge.validateConfig_normalize.
  split; [done|]. unfold normalizeConfig.
  destruct parsed; cbn [isArray];
    try (unfold validateConfig in Hv; cbn in Hv; by rewrite ?andb_false_r in Hv);
    by eexists.
Qed.

(** [updateAndPersist] writes at most once, last: the configuration just
    loaded with its targets replaced, accepted by [validateConfig]; it
    returns only after it wrote, and what it throws is wrapped. *)
Lemma updateAndPersist_spec (w : World) (filePath : string)
  (updatedTargets : Value) (st : State) :
  let r := updateAndPersist w filePath updatedTargets st in
  exists cs,
    calls (snd r) = (calls st ++ cs)%list /\
    (written cs = [] \/
     exists fields before,
       let updatedConfig := withTargets (VObject fields) updatedTargets in
       fst (loadConfig w filePath st) = Returned (VObject fields) /\
       validateConfig (newURL w) (VObject fields) = Ok tt /\
       validateConfig (newURL w) updatedConfig = Ok tt /\
       cs = (before ++ [WriteFile filePath updatedConfig])%list /\
       written before = []) /\
    match fst r with
    | Returned v => v = updatedTargets /\ written cs <> []
    | Raised t =>
        exists m,
          t = Plain (newError ("Failed to update and persist configuration: "
                               +:+ m))
    end.
Proof.
  intros r.
  assert (r = updateAndPersist w filePath updatedTargets st) as Hr by done.
  clearbody r. rewrite updateAndPersist_cases in Hr. cbn zeta in Hr.
  pose proof (loadConfig_returned w filePath st) as Hl. cbn zeta in Hl.
  destruct Hl as ((cs1 & Hc1 & Hw1) & Hl).
  destruct (loadConfig w filePath st) as [[original|t] st1] eqn:Hload;
    cbn [fst snd] in *.
  2:{ subst r. exists cs1. split; [done|]. split; [by left|]. cbn. by eexists. }
  destruct Hl as (Hvalid & fields & ->).
  pose proof (persistConfig_spec w filePath
                (withTargets (VObject fields) updatedTargets) st1) as Hp.
  cbn zeta in Hp. destruct Hp as (cs2 & Hc2 & Hw2 & Hp).
  assert (calls (snd r) = (calls st ++ cs1 ++ cs2)%list /\
          match fst r with
          | Returned v => v = updatedTargets /\ written cs2 <> []
          | Raised t =>
              exists m,
                t = Plain (newError ("Failed to update and persist configuration: "
                                     +:+ m))
          end) as [Hc Hres].
  { destruct (persistConfig w filePath _ st1) as [[[]|t] st2]; subst r;
      cbn [fst snd] in *.
    - split; [by rewrite Hc2, Hc1, <- app_assoc|done].
    - cbn. split; [by rewrite Hc2, Hc1, <- app_assoc|by eexists]. }
  exists (cs1 ++ cs2)%list. split; [done|].
  split.
  - destruct Hw2 as [Hw2|(Hv2 & before & -> & Hb)].
    + left. by rewrite written_app, Hw1, Hw2.
    + right. exists fields, (cs1 ++ before)%list. cbn zeta.
      split; [done|]. split; [done|]. split; [done|].
      split; [by rewrite <- app_assoc|].
      by rewrite written_app, Hw1, Hb.
  - destruct (fst r); [|done]. destruct Hres as [-> Hne]. split; [done|].
    by rewrite written_app, Hw1.
Qed.

(** A literal at the head of a message is found in the message. *)
Lemma startsWith_app (p a b : string) :
  startsWith p a = true -> startsWith p (a +:+ b) = true.
Proof.
  revert a. induction p as [|c p IH]; intros a; [done|].
  destruct a as [|d a]; [done|]. cbn [startsWith].
  change (String d a +:+ b) with (String d (a +:+ b)). cbn [startsWith].
  destruct (Ascii.eqb c d); [apply IH|done].
Qed.

Lemma includes_app_l (a b p : string) :
  includes a p = true -> includes (a +:+ b) p = true.
Proof.
  induction a as [|d a IH]; cbn [includes].
  - rewrite orb_false_r. intros H. destruct p; [|done]. by destruct b.
  - intros H. change (String d a +:+ b) with (String d (a +:+ b)).
    cbn [includes]. apply orb_true_iff in H as [H|H]; apply orb_true_iff.
    + left. by apply (startsWith_app p (String d a) b).
    + right. by apply IH.
Qed.

(** The message [loadConfig] throws for a missing file is classified as a
    CRITICAL configuration error, whatever the path and the context. *)
Lemma not_found_critical (filePath : string) (ctx : ErrorHandler.Context) :
  let c := ErrorHandler.categorizeError
             (newError ("Configuration file not found: " +:+ filePath)) ctx in
  ErrorHandler.type c = ErrorHandler.CONFIG_ERROR /\
  ErrorHandler.severity c = ErrorHandler.CRITICAL.
Proof.
  intros c. subst c. unfold ErrorHandler.categorizeError.
  cbn [message newError]. rewrite StrFacts.orElse_truthy by reflexivity.
  unfold ErrorHandler.isConfigError.
  rewrite (includes_app_l "Configuration file not found: " filePath "Configuration")
    by reflexivity.
  done.
Qed.

End FileFacts.


(** X22: [saveConfig] validates before it touches the file system: a
    configuration that [validateConfig] rejects causes no call at all;
    otherwise the directory is probed for writing and only if that succeeds
    the file is written, once. It returns exactly when all three steps
    succeed; every failure is handed to the configuration manager's error
    handler once, and the state manager's handler is not involved. *)
Theorem saveConfig_validates_first (w : Fs.World) (filePath : string)
  (config : Js.Value) (st : Fs.State) :
  let r := ConfigurationFiles.saveConfig w filePath config st in
  let dir := Fs.dirname w filePath in
  let valid := ConfigurationManager.validateConfig (Fs.newURL w) config in
  let a := Fs.access w (Fs.calls st) dir Fs.W_OK in
  let wr := Fs.writeFile w (Fs.calls st ++ [Fs.Access dir Fs.W_OK]) filePath config in
  Fs.stateHandler (snd r) = Fs.stateHandler st /\
  Fs.calls (snd r) =
    (Fs.calls st ++
     match valid with
     | Throw _ => []
     | Ok _ => Fs.Access dir Fs.W_OK ::
               match a with
               | Some _ => []
               | None => [Fs.WriteFile filePath config]
               end
     end)%list /\
  match fst r with
  | Fs.Returned _ =>
      valid = Ok tt /\ a = None /\ wr = None /\
      Fs.configHandler (snd r) = Fs.configHandler st
  | Fs.Raised t =>
      match valid, a with
      | Ok _, None => is_Some wr
      | _, _ => True
      end /\
      ErrorHandler.sessionErrors (Fs.configHandler (snd r))
        = (ErrorHandler.sessionErrors (Fs.configHandler st)
           ++ [FileCalls.recordOf ConfigurationFiles.saveContext (Fs.errorOf t)])%list
  end.
Proof.
  intros r dir valid a wr.
  destruct (FileFacts.saveConfig_spec w filePath config st) as (Hs & Hc & Hr).
  fold r dir valid a wr in Hs, Hc, Hr.
  split; [exact Hs|]. split; [exact Hc|].
  destruct (fst r); [exact Hr|]. destruct Hr as [Hw He]. split; [|exact He].
  destruct valid as [[]|e]; [|done]. destruct a; [done|]. by apply Hw.
Qed.


(** X24: [updateAndPersist] writes at most once, and a write is the last
    call it makes: the file gets the configuration that was just loaded
    from it, with its targets replaced by the updated ones and its webhook
    and keys kept, and [validateConfig] accepts what is written. It returns
    (the updated targets) only after writing; whatever fails, the error it
    throws starts with "Failed to update and persist configuration: ". *)
Theorem updateAndPersist_writes_once (w : Fs.World) (filePath : string)
  (updatedTargets : Js.Value) (st : Fs.State) :
  let r := StatePersistence.updateAndPersist w filePath updatedTargets st in
  exists cs,
    Fs.calls (snd r) = (Fs.calls st ++ cs)%list /\
    match FileCalls.written cs with
    | [] => match fst r with Fs.Returned _ => False | Fs.Raised _ => True end
    | [(p, config)] =>
        p = filePath /\ last cs = Some (Fs.WriteFile p config) /\
        ConfigurationManager.validateConfig (Fs.newURL w) config = Ok tt /\
        Js.get config "targets" = updatedTargets /\
        exists original,
          fst (ConfigurationFiles.loadConfig w filePath st) = Fs.Returned original /\
          Js.get config "slack_webhook" = Js.get original "slack_webhook" /\
          Js.keys config = Js.keys original
    | _ => False
    end /\
    match fst r with
    | Fs.Returned v => v = updatedTargets
    | Fs.Raised t =>
        exists m,
          t = Fs.Plain (newError ("Failed to update and persist configuration: "
                                  +:+ m))
    end.
Proof.
  intros r.
  destruct (FileFacts.updateAndPersist_spec w filePath updatedTargets st)
    as (cs & Hc & Hw & Hr).
  fold r in Hc, Hr. exists cs. split; [exact Hc|].
  split.
  - destruct Hw as [Hw|(fields & before & Hl & Hv & Hv' & -> & Hb)].
    + rewrite Hw in Hr |- *. destruct (fst r); [by destruct Hr|done].
    + cbn zeta in *. rewrite FileFacts.written_app, Hb. cbn.
      destruct (FileFacts.withTargets_get fields updatedTargets) as (Ht & Hh & Hk).
      split; [done|]. split; [by rewrite last_snoc|]. split; [done|].
      split; [done|]. exists (Js.VObject fields). split; [done|]. split; [done|].
      apply Hk. unfold ConfigurationManager.validateConfig in Hv.
      cbn [Js.isArray Js.truthy Js.typeofObject andb] in Hv.
      unfold ConfigurationManager.validateConfigObject in Hv.
      destruct (Js.truthy _); [done|]. done.
  - destruct (fst r); [by destruct Hr|done].
Qed.

Module LoadFailureFacts.
Import ChangeDetector Workflow Runs RunEvents Summary.

(** A run whose configuration cannot be loaded. *)
Lemma run_load_failed (w : World) (configPath : string)
  (slackWebhook : option string) (e : Err) :
  loadConfig w = Throw e ->
  let stop := ErrorHandler.shouldStopWorkflow
                (ErrorHandler.categorizeError e executeContext) in
  let st := snd (run w configPath slackWebhook) in
  fst (run w configPath slackWebhook) = (if stop then Throw e else Ok tt) /\
  exitCode w configPath slackWebhook = (if stop then 1 else 0) /\
  results st = [] /\
  trace st = (EvLoadConfig configPath :: cleanupEvents w) /\
  Workflow.errors st = [sessionErrorOf executeContext e].
Proof.
  intros Hl stop st.
  assert (executeBody w (initialize configPath slackWebhook)
          = (Throw e, emit [EvLoadConfig configPath]
                        (initialize configPath slackWebhook))) as Hb.
  { unfold executeBody, bind, call. by rewrite Hl. }
  pose proof (SessionFacts.execute_outcome w (initialize configPath slackWebhook))
    as Ho.
  pose proof (SessionFacts.execute_handler w (initialize configPath slackWebhook))
    as Hh.
  destruct (RunFacts.execute_frame w (initialize configPath slackWebhook))
    as (Ht & Hr & He).
  rewrite Hb in Ho, Hh, Ht, Hr, He. cbn [fst snd] in Ho, Hh, Ht, Hr, He.
  fold stop in Ho.
  assert (fst (run w configPath slackWebhook) = (if stop then Throw e else Ok tt))
    as Hrun by exact Ho.
  split; [exact Hrun|]. split; [|by split; [|split]].
  unfold exitCode. fold st.
  destruct (run w configPath slackWebhook) as [[u|e'] s] eqn:Hrn;
    cbn [fst snd] in *.
  - destruct stop eqn:Hstop; [done|].
    unfold getSessionSummary, ErrorStats.getErrorStats.
    cbn [criticalErrors ErrorStats.criticalErrors].
    subst st. unfold run in Hrn. rewrite Hrn in Hh. cbn [snd] in Hh. rewrite Hh.
    cbn [initialize emit handler ErrorHandler.initial ErrorHandler.sessionErrors app].
    rewrite ClassifierFacts.countSeverity_one. cbn [ErrorHandler.categorized].
    subst stop. unfold ErrorHandler.shouldStopWorkflow in Hstop.
    apply bool_decide_eq_false in Hstop. by rewrite decide_False.
  - by destruct stop.
Qed.

End LoadFailureFacts.

(** X25: what the tool makes of a configuration it cannot load. When the
    file is missing, [loadConfig] throws an error that is CRITICAL in the
    context of [execute]: the run throws it and the exit code is 1. When the
    file holds an empty array, [loadConfig] throws "Targets array cannot be
    empty", which the classifier rates a general error of HIGH severity: the
    run records it, returns normally, and the exit code is 0. Either way
    nothing is launched and no target is processed. *)
Theorem unloadable_config_and_exit_code (w : Workflow.World) (fw : Fs.World)
  (configPath : string) (slackWebhook : option string) :
  FileCalls.answers (fst (ConfigurationFiles.loadConfig fw configPath Fs.initial))
    (Workflow.loadConfig w) ->
  let st := snd (Workflow.run w configPath slackWebhook) in
  let quietly :=
    Workflow.results st = [] /\
    Workflow.trace st = EvLoadConfig configPath :: RunEvents.cleanupEvents w in
  match Fs.access fw [] configPath Fs.R_OK with
  | Some e =>
      if String.eqb (Fs.code e) "ENOENT" then
        fst (Workflow.run w configPath slackWebhook)
          = Throw (newError ("Configuration file not found: " +:+ configPath)) /\
        Summary.exitCode w configPath slackWebhook = 1 /\ quietly
      else True
  | None =>
      match Fs.readFile fw [Fs.Access configPath Fs.R_OK] configPath with
      | inr content =>
          match Fs.jsonParse fw content with
          | Ok (Js.VArray []) =>
              fst (Workflow.run w configPath slackWebhook) = Ok tt /\
              Summary.exitCode w configPath slackWebhook = 0 /\ quietly /\
              Summary.success (Summary.getSessionSummary st) = false
          | _ => True
          end
      | inl _ => True
      end
  end.
Proof.
  intros Ha st quietly.
  pose proof (FileFacts.loadConfig_spec fw configPath Fs.initial) as H.
  cbn zeta in H. destruct H as (_ & H).
  cbn [Fs.calls Fs.initial app] in H.
  destruct (Fs.access fw [] configPath Fs.R_OK) as [e|].
  { destruct (String.eqb (Fs.code e) "ENOENT"); [|done].
    destruct H as (_ & t & Hr & _ & ->). rewrite Hr in Ha.
    unfold FileCalls.answers in Ha.
    destruct (Workflow.loadConfig w) as [c|e'] eqn:Hl; [done|]. subst e'.
    cbn [Fs.errorOf] in Hl.
    destruct (LoadFailureFacts.run_load_failed w configPath slackWebhook _ Hl)
      as (Hrun & Hexit & Hres & Htr & _).
    destruct (FileFacts.not_found_critical configPath Workflow.executeContext)
      as [_ Hsev].
    unfold ErrorHandler.shouldStopWorkflow in Hrun, Hexit.
    rewrite bool_decide_eq_true_2 in Hrun, Hexit by exact Hsev.
    done. }
  destruct H as (_ & H).
  destruct (Fs.readFile fw [Fs.Access configPath Fs.R_OK] configPath)
    as [e|content]; [done|].
  destruct (Fs.jsonParse fw content) as [[| | | | |[|x l]|]|pe]; try done.
  cbn in H. destruct H as [Hr _]. rewrite Hr in Ha.
  unfold FileCalls.answers in Ha.
  destruct (Workflow.loadConfig w) as [c|e'] eqn:Hl; [done|]. subst e'.
  cbn [Fs.errorOf] in Hl.
  destruct (LoadFailureFacts.run_load_failed w configPath slackWebhook _ Hl)
    as (Hrun & Hexit & Hres & Htr & Herr).
  change (ErrorHandler.shouldStopWorkflow _) with false in Hrun, Hexit.
  split; [exact Hrun|]. split; [exact Hexit|]. split; [done|].
  unfold Summary.getSessionSummary. cbn [Summary.success]. fold st.
  subst st. by rewrite Herr.
Qed.

Lemma unloadable_config_and_exit_code_witness :
  let missing := newError "Configuration file not found: input.json" in
  let empty := newError "Targets array cannot be empty" in
  (fst (Workflow.run (FileSamples.failingLoad missing) "input.json" None)
     = Throw missing /\
   Summary.exitCode (FileSamples.failingLoad missing) "input.json" None = 1) /\
  (fst (Workflow.run (FileSamples.failingLoad empty) "input.json" None) = Ok tt /\
   Summary.exitCode (FileSamples.failingLoad empty) "input.json" None = 0).
Proof.
  intros missing empty. split.
  - pose proof (unloadable_config_and_exit_code
                  (FileSamples.failingLoad missing)
                  (FileSamples.fsWorld (Some FileSamples.noEntry) "" (Ok Js.VNull))
                  "input.json" None) as H.
    cbn zeta in H. destruct H as (Hr & He & _); [reflexivity|].
    split; [exact Hr|exact He].
  - pose proof (unloadable_config_and_exit_code
                  (FileSamples.failingLoad empty)
                  (FileSamples.fsWorld None "[]" (Ok (Js.VArray [])))
                  "input.json" None) as H.
    cbn zeta in H. destruct H as (Hr & He & _); [reflexivity|].
    split; [exact Hr|exact He].
Defined.

(** ** The browser controller *)

Module LifecycleFacts.
Import Str BrowserLifecycle.

(** One release: the flags and the handler stay, the page leaves the
    tracking set, and a page that is not closed yet gets its [close]. *)
Lemma closePage_spec (w : World) (page : Page) (st : State) :
  let st' := closePage w page st in
  browser st' = browser st /\ context st' = context st /\
  isConnected st' = isConnected st /\ handler st' = handler st /\
  BrowserController.pages (tracking st')
    = BrowserController.pages (tracking st) ∖ {[ page ]} /\
  exists cs,
    calls st' = (calls st ++ cs)%list /\
    Forall (fun c => exists p, c = PageClose p) cs /\
    match BrowserController.pageIsClosed (closeWorld w page) with
    | Ok false => PageClose page ∈ cs
    | _ => True
    end.
Proof.
  unfold closePage, BrowserController.closePage, BrowserController.closePageBody.
  destruct (BrowserController.pageIsClosed (closeWorld w page)) as [[|]|e]; cbn.
  - repeat split; try done. exists []. by rewrite app_nil_r.
  - destruct (BrowserController.pageClose (closeWorld w page)) as [[]|e]; cbn;
      (repeat split; try done; exists [PageClose page];
       split; [done|]; split; [repeat constructor; by eexists|];
       apply list_elem_of_here).
  - repeat split; try done. exists []. by rewrite app_nil_r.
Qed.

(** A series of releases. *)
Lemma closePages_spec (w : World) (pages : list Page) :
  forall st,
    let st' := foldl (fun s page => closePage w page s) st pages in
    browser st' = browser st /\ context st' = context st /\
    isConnected st' = isConnected st /\ handler st' = handler st /\
    exists cs,
      calls st' = (calls st ++ cs)%list /\
      Forall (fun c => exists p, c = PageClose p) cs /\
      Forall (fun page =>
                match BrowserController.pageIsClosed (closeWorld w page) with
                | Ok false => PageClose page ∈ cs
                | _ => True
                end) pages.
Proof.
  induction pages as [|page rest IH]; intros st; cbn [foldl].
  { repeat split; try done. exists []. by rewrite app_nil_r. }
  destruct (closePage_spec w page st) as (Hb & Hc & Hi & Hh & _ & cs1 & Hcs1 & Hf1 & Hp).
  destruct (IH (closePage w page st)) as (Hb' & Hc' & Hi' & Hh' & cs2 & Hcs2 & Hf2 & Hall).
  cbn zeta in *.
  split; [congruence|]. split; [congruence|]. split; [congruence|].
  split; [congruence|].
  exists (cs1 ++ cs2)%list. split; [by rewrite Hcs2, Hcs1, <- app_assoc|].
  split; [by apply Forall_app|].
  apply Forall_cons. split.
  - destruct (BrowserController.pageIsClosed (closeWorld w page)) as [[|]|e];
      try done. apply elem_of_app. by left.
  - eapply Forall_impl; [exact Hall|]. intros p Hpc. cbn in Hpc.
    destruct (BrowserController.pageIsClosed (closeWorld w p)) as [[|]|e];
      try done. apply elem_of_app. by right.
Qed.

Lemma closeAllPages_spec (w : World) (st : State) :
  let st' := closeAllPages w st in
  browser st' = browser st /\ context st' = context st /\
  isConnected st' = isConnected st /\ handler st' = handler st /\
  BrowserController.pages (tracking st') = ∅ /\
  exists cs,
    calls st' = (calls st ++ cs)%list /\
    Forall (fun c => exists p, c = PageClose p) cs /\
    Forall (fun page =>
              match BrowserController.pageIsClosed (closeWorld w page) with
              | Ok false => PageClose page ∈ cs
              | _ => True
              end) (elements (BrowserController.pages (tracking st))).
Proof.
  unfold closeAllPages.
  destruct (closePages_spec w (elements (BrowserController.pages (tracking st))) st)
    as (Hb & Hc & Hi & Hh & cs & Hcs & Hf & Hall).
  cbn zeta in *. cbn [setTracking browser context isConnected handler tracking calls
                      BrowserController.pages].
  repeat split; try done. by exists cs.
Qed.

(** The message of a failed [connect] is CRITICAL for the classifier. *)
Lemma connect_message_critical (m : string) (ctx : ErrorHandler.Context) :
  ErrorHandler.severity
    (ErrorHandler.categorizeError (newError ("Failed to connect to Chrome: " +:+ m)) ctx)
  = ErrorHandler.CRITICAL.
Proof.
  unfold ErrorHandler.categorizeError. cbn [message newError].
  rewrite StrFacts.orElse_truthy by reflexivity.
  destruct (ErrorHandler.isConfigError _ ctx); [done|].
  destruct (ErrorHandler.isChromeError _); [done|].
  unfold ErrorHandler.isBrowserError.
  rewrite (FileFacts.includes_app_l "Failed to connect to Chrome: " m "connect")
    by reflexivity.
  done.
Qed.

End LifecycleFacts.

(** X26: [disconnect] always leaves the controller disconnected, whether
    it returns or throws: [isConnected] and the context are cleared, no page
    is tracked, every tracked page that was not closed yet got its [close],
    and the error handler is not involved. It throws only when closing the
    context or the browser fails, with a message that starts with "Failed to
    disconnect from browser: ", and then the browser handle is dropped too.
    When it returns, the browser handle is still set exactly when it was set
    on a controller that was not marked connected: such a browser is never
    closed. *)
Theorem disconnect_leaves_nothing_open (w : BrowserLifecycle.World)
  (st : BrowserLifecycle.State) :
  let r := BrowserLifecycle.disconnect w st in
  BrowserLifecycle.isConnectedToBrowser (snd r) = false /\
  BrowserLifecycle.isConnected (snd r) = false /\
  BrowserLifecycle.context (snd r) = false /\
  BrowserLifecycle.getOpenPageCount (snd r) = 0 /\
  BrowserLifecycle.handler (snd r) = BrowserLifecycle.handler st /\
  Forall (fun page =>
            match BrowserController.pageIsClosed (BrowserLifecycle.closeWorld w page) with
            | Ok false =>
                BrowserLifecycle.PageClose page ∈ BrowserLifecycle.calls (snd r)
            | _ => True
            end)
    (elements (BrowserController.pages (BrowserLifecycle.tracking st))) /\
  match fst r with
  | Ok _ =>
      BrowserLifecycle.browser (snd r)
      = BrowserLifecycle.browser st && negb (BrowserLifecycle.isConnected st)
  | Throw e =>
      BrowserLifecycle.browser (snd r) = false /\
      exists cause,
        (BrowserLifecycle.contextClose w = Throw cause \/
         BrowserLifecycle.browserClose w = Throw cause) /\
        message e = "Failed to disconnect from browser: " +:+ message cause
  end.
Proof.
  intros r.
  assert (r = BrowserLifecycle.disconnect w st) as Hr by done. clearbody r.
  unfold BrowserLifecycle.disconnect, BrowserLifecycle.disconnectBody in Hr.
  destruct (LifecycleFacts.closeAllPages_spec w st)
    as (Hb & Hc & Hi & Hh & Hp & cs & Hcs & _ & Hall).
  cbn zeta in *.
  set (st1 := BrowserLifecycle.closeAllPages w st) in *.
  assert (forall l : list BrowserLifecycle.Call,
             (exists cs', l = (BrowserLifecycle.calls st1 ++ cs')%list) ->
             Forall (fun page =>
                       match BrowserController.pageIsClosed
                               (BrowserLifecycle.closeWorld w page) with
                       | Ok false => BrowserLifecycle.PageClose page ∈ l
                       | _ => True
                       end)
               (elements (BrowserController.pages (BrowserLifecycle.tracking st))))
    as Hkeep.
  { intros l (cs' & ->). eapply Forall_impl; [exact Hall|]. intros p Hpc. cbn in Hpc.
    destruct (BrowserController.pageIsClosed (BrowserLifecycle.closeWorld w p))
      as [[|]|e]; try done.
    rewrite Hcs. apply elem_of_app. left. apply elem_of_app. by right. }
  unfold BrowserLifecycle.isConnectedToBrowser, BrowserLifecycle.getOpenPageCount.
  assert (BrowserLifecycle.browser st1 && BrowserLifecycle.isConnected st1 = false ->
          BrowserLifecycle.browser st1
          = BrowserLifecycle.browser st && negb (BrowserLifecycle.isConnected st))
    as Hleak.
  { rewrite <- Hb, <- Hi.
    by destruct (BrowserLifecycle.browser st1), (BrowserLifecycle.isConnected st1). }
  assert (BrowserLifecycle.browser st1 && BrowserLifecycle.isConnected st1 = true ->
          false = BrowserLifecycle.browser st && negb (BrowserLifecycle.isConnected st))
    as Hclosed.
  { rewrite <- Hb, <- Hi.
    by destruct (BrowserLifecycle.browser st1), (BrowserLifecycle.isConnected st1). }
  destruct (BrowserLifecycle.context st1) eqn:Hctx;
    [destruct (BrowserLifecycle.contextClose w) as [[]|e] eqn:Hcc|];
    cbn [BrowserLifecycle.browser BrowserLifecycle.isConnected
           BrowserLifecycle.setContext BrowserLifecycle.called] in Hr;
    try (destruct (BrowserLifecycle.browser st1 && BrowserLifecycle.isConnected st1)
           eqn:Hbi;
         [destruct (BrowserLifecycle.browserClose w) as [[]|e'] eqn:Hbc|]);
    subst r; cbn; rewrite ?Hp, ?size_empty, ?Hh, ?Hctx, ?andb_false_r;
    (split; [done|]); (split; [done|]); (split; [done|]); (split; [done|]);
    (split; [done|]);
    (split;
     [apply Hkeep;
      first [ by (exists []; rewrite app_nil_r)
            | by (eexists; cbn; rewrite <- ?app_assoc) ]|]).
  all: try (by apply Hleak).
  all: try (by apply Hclosed).
  all: split; [done|]; eexists; (split; [|reflexivity]);
    first [by left | by right].
Qed.

(** X27: [connect] either connects or leaves the controller marked
    disconnected. When it returns, the controller was not connected before
    and [isConnectedToBrowser] holds. When it throws, [isConnected] is
    cleared, even on a controller that was connected: a second [connect]
    makes no call on Playwright, throws "Failed to connect to Chrome:
    Browser is already connected" and hands two errors to the handler
    (otherwise one). Whatever the cause, the error thrown is rated CRITICAL
    by the classifier in every context. *)
Theorem connect_or_disconnected (w : BrowserLifecycle.World) (debugUrl : string)
  (st : BrowserLifecycle.State) (ctx : ErrorHandler.Context) :
  let r := BrowserLifecycle.connect w debugUrl st in
  let handled s := List.length (ErrorHandler.sessionErrors (BrowserLifecycle.handler s)) in
  match fst r with
  | Ok _ =>
      BrowserLifecycle.isConnected st = false /\
      BrowserLifecycle.isConnectedToBrowser (snd r) = true /\
      handled (snd r) = handled st
  | Throw e =>
      BrowserLifecycle.isConnected (snd r) = false /\
      BrowserLifecycle.isConnectedToBrowser (snd r) = false /\
      ErrorHandler.severity (ErrorHandler.categorizeError e ctx)
        = ErrorHandler.CRITICAL /\
      if BrowserLifecycle.isConnected st
      then e = newError "Failed to connect to Chrome: Browser is already connected" /\
           BrowserLifecycle.calls (snd r) = BrowserLifecycle.calls st /\
           handled (snd r) = handled st + 2
      else handled (snd r) = handled st + 1
  end.
Proof.
  intros r handled. subst r handled.
  unfold BrowserLifecycle.connect, BrowserLifecycle.connectBody,
    BrowserLifecycle.isConnectedToBrowser.
  destruct (BrowserLifecycle.isConnected st) eqn:Hi.
  { cbn. rewrite !length_app. cbn.
    split; [done|]. split; [done|].
    split; [apply (LifecycleFacts.connect_message_critical "Browser is already connected")|].
    split; [done|]. split; [done|lia]. }
  destruct (BrowserLifecycle.connectOverCDP w) as [[]|e].
  2:{ cbn. rewrite length_app. cbn. split; [done|]. split; [done|].
      split; [apply LifecycleFacts.connect_message_critical|lia]. }
  destruct (BrowserLifecycle.newContext w) as [[]|e].
  2:{ cbn. rewrite length_app. cbn. split; [done|]. split; [done|].
      split; [apply LifecycleFacts.connect_message_critical|lia]. }
  cbn. done.
Qed.

(** X28: pages are tracked from [createPage] to [closePage]. On a
    controller that is connected and has a context, [createPage] asks
    Playwright for a page and, when it gets one, tracks it; [closePage] on
    that page then untracks it again, whatever the page answers, without
    touching the connection or the handler. On a controller that is not
    connected [createPage] asks for nothing and throws "Failed to create
    page: Browser is not connected. Call connect() first.", handled twice
    and rated CRITICAL. A failure leaves the tracking set as it was. *)
Theorem pages_tracked_until_closed (w : BrowserLifecycle.World)
  (st : BrowserLifecycle.State) :
  let r := BrowserLifecycle.createPage w st in
  let pages s := BrowserController.pages (BrowserLifecycle.tracking s) in
  let handled s := List.length (ErrorHandler.sessionErrors (BrowserLifecycle.handler s)) in
  let ready := BrowserLifecycle.isConnected st && BrowserLifecycle.context st in
  match fst r with
  | Ok page =>
      ready = true /\
      BrowserLifecycle.newPage w (BrowserLifecycle.calls st) = Ok page /\
      BrowserLifecycle.calls (snd r)
        = (BrowserLifecycle.calls st ++ [BrowserLifecycle.NewPage])%list /\
      pages (snd r) = {[ page ]} ∪ pages st /\
      let st2 := BrowserLifecycle.closePage w page (snd r) in
      pages st2 = pages st ∖ {[ page ]} /\
      BrowserLifecycle.isConnectedToBrowser st2
        = BrowserLifecycle.isConnectedToBrowser st /\
      handled st2 = handled st
  | Throw e =>
      pages (snd r) = pages st /\
      if ready
      then handled (snd r) = handled st + 1 /\
           exists cause,
             BrowserLifecycle.newPage w (BrowserLifecycle.calls st) = Throw cause /\
             e = newError ("Failed to create page: " +:+ message cause)
      else e = newError ("Failed to create page: "
                         +:+ "Browser is not connected. Call connect() first.") /\
           BrowserLifecycle.calls (snd r) = BrowserLifecycle.calls st /\
           handled (snd r) = handled st + 2 /\
           ErrorHandler.severity
             (ErrorHandler.categorizeError e Workflow.targetContext)
             = ErrorHandler.CRITICAL
  end.
Proof.
  intros r pages handled ready. subst r pages handled ready.
  unfold BrowserLifecycle.createPage, BrowserLifecycle.createPageBody.
  destruct (BrowserLifecycle.isConnected st) eqn:Hi;
    [destruct (BrowserLifecycle.context st) eqn:Hc|]; cbn [negb orb andb].
  - destruct (BrowserLifecycle.newPage w (BrowserLifecycle.calls st))
      as [page|cause] eqn:Hn; cbn [fst snd].
    + split; [done|]. split; [done|]. split; [done|]. split; [done|].
      match goal with
      | |- context [BrowserLifecycle.closePage w page ?s] =>
          destruct (LifecycleFacts.closePage_spec w page s)
            as (Hb' & Hc' & Hi' & Hh' & Hp' & _)
      end.
      cbn zeta in *. unfold BrowserLifecycle.isConnectedToBrowser.
      rewrite Hb', Hc', Hi', Hh', Hp'. cbn.
      split; [|done].
      apply set_eq. intros p.
      rewrite !elem_of_difference, elem_of_union, elem_of_singleton. tauto.
    + cbn. rewrite length_app. cbn. split; [done|]. split; [lia|]. by exists cause.
  - cbn. rewrite !length_app. cbn. repeat split; try done. lia.
  - cbn. rewrite !length_app. cbn. repeat split; try done. lia.
Qed.

(** ** The notifier and the logger *)

Module LoggerFacts.
Import Logger.

Lemma stringLe_refl (s : string) : stringLe s s = true.
Proof.
  induction s as [|a s IH]; [done|]. cbn [stringLe].
  rewrite Nat.ltb_irrefl. by rewrite Ascii.eqb_refl.
Qed.

Lemma stringLe_trans (s t u : string) :
  stringLe s t = true -> stringLe t u = true -> stringLe s u = true.
Proof.
  revert t u. induction s as [|a s IH]; intros t u; [done|].
  destruct t as [|b t]; [done|]. destruct u as [|c u]; [done|].
  cbn [stringLe].
  destruct (Nat.ltb_spec (nat_of_ascii a) (nat_of_ascii b)) as [Hab|Hab].
  - intros _. destruct (Nat.ltb_spec (nat_of_ascii b) (nat_of_ascii c)) as [Hbc|Hbc].
    + intros _. destruct (Nat.ltb_spec (nat_of_ascii a) (nat_of_ascii c)); [done|lia].
    + destruct (Ascii.eqb_spec b c) as [->|Hne]; [|done]. intros _.
      by destruct (Nat.ltb_spec (nat_of_ascii a) (nat_of_ascii c)); [|lia].
  - destruct (Ascii.eqb_spec a b) as [->|Hne]; [|done]. intros Hst.
    destruct (Nat.ltb_spec (nat_of_ascii b) (nat_of_ascii c)) as [Hbc|Hbc]; [done|].
    destruct (Ascii.eqb_spec b c) as [->|Hne]; [|done]. by apply IH.
Qed.

Lemma lookup_own (proto : Prototype) (name : string) (n : nat) :
  logLevels name = Some n -> lookup proto name = Own n.
Proof. unfold lookup. by intros ->. Qed.

Lemma lookup_not_own (proto : Prototype) (name : string) :
  logLevels name = None ->
  lookup proto name = match proto name with
                      | Some primitive => Inherited primitive
                      | None => Missing
                      end.
Proof. unfold lookup. by intros ->. Qed.

(** Errors are let through exactly when the configured level is one of the
    four levels. *)
Lemma shouldLog_error (proto : Prototype) (logLevel : string) :
  shouldLog proto logLevel "ERROR" = bool_decide (is_Some (logLevels logLevel)).
Proof.
  unfold shouldLog. rewrite (lookup_own proto "ERROR" 0) by done.
  destruct (logLevels logLevel) as [b|] eqn:Hl.
  - rewrite (lookup_own _ _ _ Hl). by rewrite bool_decide_eq_true_2.
  - rewrite (lookup_not_own _ _ Hl).
    rewrite bool_decide_eq_false_2 by (by intros [? ?]).
    by destruct (proto logLevel).
Qed.

End LoggerFacts.

Module NotifierFacts.
Import Str SlackNotifier Notifications.



End NotifierFacts.


(** X30: the levels of the logger. A message is let through only when its
    level and the configured level are both among ERROR, WARN, INFO and
    DEBUG, or when both are names that the table of levels inherits from
    [Object.prototype]; such a name lets itself through. The logger itself
    asks for the four levels only: of these, a value of LOG_LEVEL that is
    none of them (it is taken as it is) lets none through, errors included;
    errors are let through exactly when the configured level is one of the
    four; and what one level lets through every more verbose level lets
    through as well. Without LOG_LEVEL exactly ERROR, WARN and INFO are let
    through. [setLogLevel] ignores a name that is no level and keeps a valid
    level valid. *)
Theorem log_levels_nest (proto : Logger.Prototype) :
  (forall logLevel level,
      Logger.shouldLog proto logLevel level = true ->
      (is_Some (Logger.logLevels logLevel) /\ is_Some (Logger.logLevels level)) \/
      (Logger.logLevels logLevel = None /\ Logger.logLevels level = None /\
       is_Some (proto logLevel) /\ is_Some (proto level))) /\
  (forall name,
      Logger.logLevels name = None -> is_Some (proto name) ->
      Logger.shouldLog proto name name = true) /\
  (forall logLevel,
      Logger.shouldLog proto logLevel "ERROR"
      = bool_decide (is_Some (Logger.logLevels logLevel))) /\
  (forall quiet verbose level,
      Logger.shouldLog proto quiet level = true ->
      Logger.shouldLog proto verbose quiet = true ->
      Logger.shouldLog proto verbose level = true) /\
  (forall env level,
      Str.truthy env = true -> Logger.logLevels env = None ->
      is_Some (Logger.logLevels level) ->
      Logger.shouldLog proto (Logger.initialLevel (Some env)) level = false) /\
  (forall level,
      Logger.shouldLog proto (Logger.initialLevel None) level = true <->
      level ∈ ["ERROR"; "WARN"; "INFO"]) /\
  (forall level logLevel,
      is_Some (Logger.logLevels logLevel) ->
      is_Some (Logger.logLevels (Logger.setLogLevel level logLevel))) /\
  (forall level logLevel,
      Logger.logLevels level = None -> Logger.setLogLevel level logLevel = logLevel).
Proof.
  split.
  { intros logLevel level. unfold Logger.shouldLog, Logger.lookup.
    destruct (Logger.logLevels level) as [a|], (Logger.logLevels logLevel) as [b|];
      cbn [Logger.lessEq].
    - intros _. left. by split.
    - by destruct (proto logLevel).
    - by destruct (proto level).
    - destruct (proto level) as [s|], (proto logLevel) as [t|]; try done.
      intros _. right. by repeat split. }
  split.
  { intros name Hn [s Hs]. unfold Logger.shouldLog.
    rewrite (LoggerFacts.lookup_not_own _ _ Hn), Hs.
    apply LoggerFacts.stringLe_refl. }
  split; [apply LoggerFacts.shouldLog_error|].
  split.
  { intros quiet verbose level. unfold Logger.shouldLog.
    destruct (Logger.lookup proto level) as [a|s|],
      (Logger.lookup proto quiet) as [b|t|],
      (Logger.lookup proto verbose) as [c|u|]; cbn [Logger.lessEq]; try done.
    - rewrite !Nat.leb_le. lia.
    - apply LoggerFacts.stringLe_trans. }
  split.
  { intros env level Ht Hn [a Ha]. unfold Logger.initialLevel, Logger.shouldLog.
    rewrite Ht, (LoggerFacts.lookup_own _ _ _ Ha), (LoggerFacts.lookup_not_own _ _ Hn).
    by destruct (proto env). }
  split.
  { intros level. cbn [Logger.initialLevel]. unfold Logger.shouldLog.
    rewrite (LoggerFacts.lookup_own proto "INFO" 2) by done.
    unfold Logger.lookup, Logger.logLevels.
    rewrite !elem_of_cons, elem_of_nil.
    destruct (String.eqb level "ERROR") eqn:H1.
    { apply String.eqb_eq in H1. split; [by left|done]. }
    destruct (String.eqb level "WARN") eqn:H2.
    { apply String.eqb_eq in H2. split; [by right; left|done]. }
    destruct (String.eqb level "INFO") eqn:H3.
    { apply String.eqb_eq in H3. split; [by right; right; left|done]. }
    apply String.eqb_neq in H1, H2, H3.
    destruct (String.eqb level "DEBUG"); [|destruct (proto level)];
      (split; [done|]); intuition. }
  split.
  { intros level logLevel Hl. unfold Logger.setLogLevel. by case_bool_decide. }
  intros level logLevel Hl. unfold Logger.setLogLevel.
  rewrite bool_decide_eq_false_2; [done|]. rewrite Hl. by intros [? ?].
Qed.

Lemma log_levels_nest_witness :
  let proto := LoggerSamples.nodePrototype in
  Logger.shouldLog proto "DEBUG" "WARN" = true /\
  Logger.setLogLevel "verbose" "WARN" = "WARN" /\
  Logger.shouldLog proto (Logger.initialLevel (Some "info")) "ERROR" = false /\
  Logger.shouldLog proto "constructor" "ERROR" = false /\
  Logger.shouldLog proto "toString" "toString" = true /\
  Logger.shouldLog proto "toString" "constructor" = true.
Proof.
  intros proto.
  destruct (log_levels_nest proto)
    as (_ & Hself & Herror & Hnest & Hsilent & _ & _ & Hset).
  split; [apply (Hnest "INFO" "DEBUG" "WARN"); reflexivity|].
  split; [apply Hset; reflexivity|].
  split; [apply Hsilent; [reflexivity|reflexivity|by eexists]|].
  split; [by rewrite Herror|].
  split; [apply Hself; [reflexivity|by eexists]|].
  reflexivity.
Defined.
